(** * pbox: item registry and modifier pipeline

    A shallow embedding of the declarative item engine of the packing-box
    library:

    - [pbox/helpers/items.py]: [_randbytes], [_repeatn], [_max], [_min],
      [_select], [dict2] (construction and call), [MetaBase.__iter__],
      [MetaBase.source], the variant expansion of [MetaItem.source], and
      of [load_yaml_config] the defaults pass [_set] and the merge
      [_merge];
    - [pbox/common/modifiers/__init__.py]: [Modifier.__call__],
      [Modifiers.__init__] (registry construction, selection check and the
      application loop) and [Modifiers.names].

    Python values are a small inductive type, dictionaries are insertion
    ordered association lists, exceptions are a sum type, and the code that
    logs, mutates the caller's objects or talks to the binary parser is
    written in a state-and-exception monad. *)

From Stdlib Require Import ZArith List String Ascii Bool Lia Arith.
From Stdlib Require Import Init.Byte.
From Stdlib Require Import Sorting.Sorted.
From stdpp Require Import base decidable list strings pretty.
Import ListNotations.

Set Warnings "-register-all".

Local Open Scope string_scope.
Local Open Scope list_scope.

(** ** Python values, exceptions, dictionaries *)

Module Py.

(** The values that YAML documents and expressions produce.  [VObj] is an
    opaque host object (a function, a parsed binary, a class instance),
    known by its identity only. *)
Inductive pyval : Type :=
| VNone
| VBool (b : bool)
| VInt (z : Z)
| VStr (s : string)
| VList (l : list pyval)
| VDict (d : list (string * pyval))
| VObj (o : nat).

Definition pydict := list (string * pyval).

(** Exception classes met in the code.  All of them derive from Python's
    [Exception] ([ForbiddenNodeError] is declared by tinyscript on top of
    a builtin error class), so an [except Exception] clause catches every
    one. *)
Inductive exn : Type :=
| ForbiddenNodeError (msg : string)
| NameError (msg : string)
| ValueError (msg : string)
| TypeError (msg : string)
| KeyError (msg : string)
| IndexError (msg : string)
| AttributeError (msg : string)
| OtherError (msg : string).

(** [str(e)] *)
Definition exn_msg (e : exn) : string :=
  match e with
  | ForbiddenNodeError m | NameError m | ValueError m | TypeError m
  | KeyError m | IndexError m | AttributeError m | OtherError m => m
  end.

Inductive res (A : Type) : Type :=
| Ok (a : A)
| Raise (e : exn).
Arguments Ok {A} a.
Arguments Raise {A} e.

Definition is_ok {A} (r : res A) : bool :=
  match r with Ok _ => true | Raise _ => false end.

#[global] Instance res_ret : MRet res := fun A a => Ok a.
#[global] Instance res_bind : MBind res :=
  fun A B f r => match r with Ok a => f a | Raise e => Raise e end.

(** [[f x for x in l]], stopping at the first exception *)
Fixpoint res_map {A B} (f : A -> res B) (l : list A) : res (list B) :=
  match l with
  | [] => Ok []
  | x :: l' =>
      match f x with
      | Raise e => Raise e
      | Ok y => match res_map f l' with
                | Raise e => Raise e
                | Ok ys => Ok (y :: ys)
                end
      end
  end.

(** [for x in l: acc = f acc x], stopping at the first exception *)
Fixpoint res_fold {A B} (f : B -> A -> res B) (l : list A) (acc : B)
  : res B :=
  match l with
  | [] => Ok acc
  | x :: l' =>
      match f acc x with
      | Raise e => Raise e
      | Ok acc' => res_fold f l' acc'
      end
  end.

(** Python truthiness, as used by [not x], [x or y] and [if x:]. *)
Definition truthy (v : pyval) : bool :=
  match v with
  | VNone => false
  | VBool b => b
  | VInt z => negb (z =? 0)%Z
  | VStr s => negb (String.eqb s "")
  | VList l => match l with [] => false | _ => true end
  | VDict d => match d with [] => false | _ => true end
  | VObj _ => true
  end.

(** *** dict operations (insertion ordered, keys unique) *)
Section Dict.
Context {V : Type}.
Implicit Types (d : list (string * V)) (k : string) (v : V).

(** [d.get(k)] *)
Fixpoint dict_get k d : option V :=
  match d with
  | [] => None
  | (k', v') :: d' => if String.eqb k k' then Some v' else dict_get k d'
  end.

(** [k in d] *)
Definition dict_mem k d : bool :=
  match dict_get k d with Some _ => true | None => false end.

(** [d[k] = v]: an existing key keeps its position. *)
Fixpoint dict_set k v d : list (string * V) :=
  match d with
  | [] => [(k, v)]
  | (k', v') :: d' =>
      if String.eqb k k' then (k, v) :: d' else (k', v') :: dict_set k v d'
  end.

(** [d.setdefault(k, v)] *)
Definition dict_setdefault k v d : list (string * V) :=
  if dict_mem k d then d else d ++ [(k, v)].

(** [d.pop(k, default)], the dictionary part *)
Fixpoint dict_pop k d : list (string * V) :=
  match d with
  | [] => []
  | (k', v') :: d' =>
      if String.eqb k k' then d' else (k', v') :: dict_pop k d'
  end.

(** [d.update(d2)] *)
Definition dict_update d d2 : list (string * V) :=
  fold_left (fun acc kv => dict_set (fst kv) (snd kv) acc) d2 d.

(** [list(d.keys())] *)
Definition dict_keys d : list string := map fst d.

End Dict.

(** Every value of the dictionary is a mapping. *)
Definition all_mappings (config : pydict) : Prop :=
  Forall (fun kv => exists params, snd kv = VDict params) config.

(** [l.remove(x)]: drops the first occurrence of [x]; [None] stands for
    the [ValueError] raised when there is none. *)
Fixpoint list_remove {A} (eqb : A -> A -> bool) (x : A) (l : list A)
  : option (list A) :=
  match l with
  | [] => None
  | y :: l' =>
      if eqb x y then Some l' else option_map (cons y) (list_remove eqb x l')
  end.

(** [x in l] for a list of strings *)
Definition str_in (x : string) (l : list string) : bool :=
  existsb (String.eqb x) l.

(** [s.split(sep)] for a one-character separator *)
Fixpoint split_on (sep : ascii) (s : string) : list string :=
  match s with
  | EmptyString => [EmptyString]
  | String c s' =>
      if Ascii.eqb c sep then EmptyString :: split_on sep s'
      else match split_on sep s' with
           | [] => [String c EmptyString]
           | w :: ws => String c w :: ws
           end
  end.

(** Iteration over a value: the elements of a list, the characters of a
    string, the keys of a dict; anything else is not iterable. *)
Definition py_iter (v : pyval) : res (list pyval) :=
  match v with
  | VList l => Ok l
  | VStr s =>
      Ok (map (fun c => VStr (String c EmptyString)) (list_ascii_of_string s))
  | VDict d => Ok (map (fun kv => VStr (fst kv)) d)
  | _ => Raise (TypeError "object is not iterable")
  end.

End Py.
Import Py.

(** ** [_randbytes] : random bytes without repetition *)

Module RandBytes.

(** The interpreter's random generator is an oracle: [rnd i] is the raw
    number behind the [i]-th draw.  [random.choice(seq)] indexes [seq]
    with it and raises [IndexError] on an empty sequence. *)
Definition choice {A} (rnd : nat -> nat) (i : nat) (seq : list A) : res A :=
  match seq with
  | [] => Raise (IndexError "Cannot choose from an empty sequence")
  | _ => match nth_error seq (rnd i mod length seq) with
         | Some c => Ok c
         | None => Raise (IndexError "Cannot choose from an empty sequence")
         end
  end.

(** [bytearray([i for i in range(256)])] *)
Definition alphabet256 : list byte :=
  Eval vm_compute in
    omap Byte.of_nat (seq 0 256).

(** The body of [for i in range(n)], [k] iterations left. *)
Fixpoint pick (rnd : nat -> nat) (k i : nat) (s alphabet : list byte)
  : res (list byte) :=
  match k with
  | O => Ok s
  | S k' =>
      match choice rnd i alphabet with
      | Raise e => Raise e
      | Ok c =>
          match list_remove Byte.eqb c alphabet with
          | None => Raise (ValueError "value not found in bytearray")
          | Some alphabet' => pick rnd k' (S i) (s ++ [c]) alphabet'
          end
      end
  end.

(** [random.randbytes(n)] *)
Definition random_randbytes (rnd : nat -> nat) (n : Z) : res (list byte) :=
  if (n <? 0)%Z then Raise (ValueError "number of bits must be non-negative")
  else Ok (omap (fun i => Byte.of_nat (rnd i mod 256)) (seq 0 (Z.to_nat n))).

Definition _randbytes (rnd : nat -> nat) (n : Z) (unique : bool)
  : res (list byte) :=
  if negb unique then random_randbytes rnd n
  else if (n >? 256)%Z then
    Raise (ValueError "Cannot produce more than 256 distinct bytes")
  else pick rnd (Z.to_nat n) 0 [] alphabet256.

End RandBytes.

(** ** A state-and-exception monad

    A Python statement either completes or raises; in both cases the
    mutations made so far (logged lines, appended names, the class-level
    registry) stay. *)

Module Eff.

Section Monad.
Context {S : Type}.

Definition M (A : Type) : Type := S -> res A * S.

Definition ret {A} (a : A) : M A := fun s => (Ok a, s).

Definition raise {A} (e : exn) : M A := fun s => (Raise e, s).

Definition bind {A B} (m : M A) (f : A -> M B) : M B :=
  fun s =>
    match m s with
    | (Ok a, s') => f a s'
    | (Raise e, s') => (Raise e, s')
    end.

(** [try: m except <all handled classes> as e: h e] *)
Definition try_except {A} (m : M A) (h : exn -> M A) : M A :=
  fun s =>
    match m s with
    | (Ok a, s') => (Ok a, s')
    | (Raise e, s') => h e s'
    end.

Definition get : M S := fun s => (Ok s, s).

Definition modify (f : S -> S) : M unit := fun s => (Ok tt, f s).

(** [for x in l: body x] *)
Fixpoint for_each {A} (l : list A) (body : A -> M unit) : M unit :=
  match l with
  | [] => ret tt
  | x :: l' => bind (body x) (fun _ => for_each l' body)
  end.

(** [[f x for x in l]] *)
Fixpoint map_m {A B} (f : A -> M B) (l : list A) : M (list B) :=
  match l with
  | [] => ret []
  | x :: l' =>
      bind (f x) (fun y => bind (map_m f l') (fun ys => ret (y :: ys)))
  end.

(** An attribute or item read that may fail. *)
Definition of_option {A} (o : option A) (e : exn) : M A :=
  match o with Some a => ret a | None => raise e end.

End Monad.

Arguments M : clear implicits.

(** [m], run from any state, ends in a state related to it by [R],
    whether it completes or raises. *)
Definition preserves {S A} (R : S -> S -> Prop) (m : M S A) : Prop :=
  forall s r s', m s = (r, s') -> R s s'.

(** Two programs, run from related states, end with the same outcome and
    in related states. *)
Definition related {S A} (R : S -> S -> Prop) (m1 m2 : M S A) : Prop :=
  forall s t, R s t ->
              fst (m1 s) = fst (m2 t) /\ R (snd (m1 s)) (snd (m2 t)).

(** The component [proj] of the state is left as it was. *)
Definition keeps {S X} (proj : S -> X) : S -> S -> Prop :=
  fun s s' => proj s' = proj s.

#[global] Instance M_ret {S} : MRet (M S) := fun A => @ret S A.
#[global] Instance M_bind {S} : MBind (M S) := fun A B f m => bind m f.

End Eff.
Import Eff.

(** ** The host: what the engine calls but does not define

    The expression interpreter [eval2] and the error classes come from the
    tinyscript library, the binary parser from lief, the format table and
    the modifier functions from sibling modules of the package.  They are
    taken as an interface; [W] is the part of the world they may change
    (the binary being altered, the random generator, the files). *)

Class Host (W : Type) : Type := {
  (** the sentinel [UNDEF_RESULT] *)
  UNDEF_RESULT : string;
  (** [str(v)] for containers and host objects *)
  host_str : pyval -> string;
  (** [eval2(expr, d, {}, whitelist_nodes=...)] *)
  eval2 : pyval -> pydict -> W -> res pyval * W;
  (** the call of [r] with the keyword arguments [kwargs] *)
  invoke : pyval -> pydict -> W -> res pyval * W;
  (** the object bound to a name of [random], of the helper functions of
      [items.py] or of [builtins] *)
  namespace_obj : string -> pyval;
  (** the rendering of the context in the "Variables:" debug line *)
  fmt_variables : pydict -> string;
  (** [with open(path) as f: yaml.load(f, Loader=yaml.Loader)] *)
  read_yaml : string -> W -> res pyval * W;
  (** [lief.parse(path)] *)
  lief_parse : string -> W -> res pyval * W;
  (** [list(p.sections)] *)
  sections_of : pyval -> W -> res pyval * W;
  (** [list(p.get_sections())] *)
  get_sections : pyval -> W -> res pyval * W;
  (** the bound method [p.compute_checksum] *)
  compute_checksum_of : pyval -> W -> res pyval * W;
  (** [p.build()] *)
  build : pyval -> W -> res unit * W;
  (** the table [FORMATS] and the function [expand_formats] *)
  FORMATS : list (string * list string);
  expand_formats : string -> list string;
  (** [{k: globals()[k] for k in __common__}] and its three format
      specific analogues *)
  common_globals : pydict;
  elf_globals : pydict;
  macho_globals : pydict;
  pe_globals : pydict;
  (** [config[<class name>]] and [Path(s, expand=True)] *)
  config_source : string;
  expand_path : string -> string;
  (** [re.search(pattern, name) is not None] *)
  re_search : string -> string -> bool
}.

(** ** Runtime state *)

Inductive level : Type := Debug | Warning | Error | Exception.

(** Calls made to the binary parser that the executor counts on. *)
Inductive event : Type :=
| EvParse (path : string)
| EvBuild (parser : pyval).

(** category -> item name -> item *)
Definition registry_t : Type := list (string * list (string * pydict)).

Record state (W : Type) : Type := mkState {
  world : W;
  (** the lines handed to the loggers, oldest first *)
  log : list (level * string);
  (** the class attributes [Modifiers.source] and [Modifiers.registry] *)
  cls_source : option string;
  cls_registry : option registry_t;
  (** the caller's [select] argument: [None], or the list object *)
  select_obj : option (list string);
  (** [self], the list of applied names *)
  applied : list string;
  trace : list event
}.
Arguments mkState {W}.
Arguments world {W}.
Arguments log {W}.
Arguments cls_source {W}.
Arguments cls_registry {W}.
Arguments select_obj {W}.
Arguments applied {W}.
Arguments trace {W}.

Module St.
Section Setters.
Context {W : Type}.
Implicit Type s : state W.

Definition set_world (w : W) s : state W :=
  mkState w (log s) (cls_source s) (cls_registry s) (select_obj s)
          (applied s) (trace s).
Definition set_log l s : state W :=
  mkState (world s) l (cls_source s) (cls_registry s) (select_obj s)
          (applied s) (trace s).
Definition set_source p s : state W :=
  mkState (world s) (log s) p (cls_registry s) (select_obj s)
          (applied s) (trace s).
Definition set_registry r s : state W :=
  mkState (world s) (log s) (cls_source s) r (select_obj s)
          (applied s) (trace s).
Definition set_select l s : state W :=
  mkState (world s) (log s) (cls_source s) (cls_registry s) l
          (applied s) (trace s).
Definition set_applied l s : state W :=
  mkState (world s) (log s) (cls_source s) (cls_registry s) (select_obj s)
          l (trace s).
Definition set_trace t s : state W :=
  mkState (world s) (log s) (cls_source s) (cls_registry s) (select_obj s)
          (applied s) t.

(** [logger.<level>(msg)] *)
Definition emit (lv : level) (msg : string) : M (state W) unit :=
  modify (fun s => set_log (log s ++ [(lv, msg)]) s).

(** The state once [emit lv msg] has run. *)
Definition logged (lv : level) (msg : string) s : state W :=
  set_log (log s ++ [(lv, msg)]) s.

Definition record (ev : event) : M (state W) unit :=
  modify (fun s => set_trace (trace s ++ [ev]) s).

(** A call into the host. *)
Definition host {A} (f : W -> res A * W) : M (state W) A :=
  fun s => let (r, w) := f (world s) in (r, set_world w s).

(** A component of the state that neither the host nor the loggers
    touch. *)
Definition silent_proj {X} (proj : state W -> X) : Prop :=
  (forall w s, proj (set_world w s) = proj s)
  /\ (forall l s, proj (set_log l s) = proj s).

(** A component of the state that the parse events do not reach
    either. *)
Definition parse_proj {X} (proj : state W -> X) : Prop :=
  silent_proj proj
  /\ forall p s, proj (set_trace (trace s ++ [EvParse p]) s) = proj s.

End Setters.
End St.
Import St.

(** ** [dict2]: callable item definitions *)

Module Dict2.
Section Dict2.
Context {W : Type} `{Host W}.

(** [str(v)] *)
Definition py_str (v : pyval) : string :=
  match v with
  | VNone => "None"
  | VBool true => "True"
  | VBool false => "False"
  | VInt z => pretty z
  | VStr s => s
  | _ => host_str v
  end.

(** [v == UNDEF_RESULT] *)
Definition is_undef (v : pyval) : bool :=
  match v with
  | VStr s => String.eqb s UNDEF_RESULT
  | _ => false
  end.

(** [dict2.__init__(self, idict, **kwargs)] for a class whose [_fields]
    attribute is [fields].  The dictionary starts empty, receives its
    defaults, then the content of [idict] and of [kwargs], both without
    their [logger] entry. *)
Definition dict2_init (fields idict kwargs : pydict) : res pydict :=
  let self := dict_setdefault "name" (VStr UNDEF_RESULT) [] in
  let self := dict_setdefault "description" (VStr "") self in
  let self :=
    dict_setdefault "result"
      (match dict_get "name" self with Some n => n | None => VNone end)
      self in
  let self :=
    fold_left (fun acc fv => dict_setdefault (fst fv) (snd fv) acc)
              fields self in
  let idict' := dict_pop "logger" idict in
  let kwargs' := dict_pop "logger" kwargs in
  let self := dict_update (dict_update self idict') kwargs' in
  let result :=
    match dict_get "result" self with Some r => r | None => VNone end in
  let name :=
    match dict_get "name" self with Some n => n | None => VNone end in
  if is_undef result
  then Raise (ValueError (py_str name ++ ": 'result' shall be defined"))
  else Ok self.

(** What [idict] and [kwargs] resolve a key to: the keyword argument if
    there is one, else the entry of the mapping. *)
Definition resolved (k : string) (idict kwargs : pydict) : option pyval :=
  match dict_get k kwargs with
  | Some v => Some v
  | None => dict_get k idict
  end.

Definition random_names : list string :=
  ["choice"; "randint"; "randrange"; "randstr"].

Definition helper_names : list string :=
  ["apply"; "concatn"; "len"; "max"; "min"; "printable"; "randbytes";
   "repeatn"; "select"; "select_section_name"; "size"; "value";
   "zeropad"].

(** the keys of [_EVAL_NAMESPACE] *)
Definition eval_namespace_names : list string :=
  ["abs"; "all"; "any"; "divmod"; "float"; "hash"; "hex"; "id"; "int";
   "list"; "next"; "oct"; "ord"; "pow"; "range"; "range2"; "round";
   "set"; "str"; "sum"; "tuple"; "type"].

Definition bindings (names : list string) : pydict :=
  map (fun k => (k, namespace_obj k)) names.

(** The dictionary [d] of [__call__] once [data] has been merged in. *)
Definition call_context (data : pydict) : pydict :=
  dict_update
    (dict_update
       (dict_update (bindings random_names) (bindings helper_names))
       (bindings eval_namespace_names))
    data.

(** The handlers of the first [try] of [_exec]; every one of them ends
    in a bare [raise]. *)
Definition on_eval_error (silent : bool) (expr : pyval) (d : pydict)
           (e : exn) : M (state W) pyval :=
  match e with
  | ForbiddenNodeError _ =>
      emit Warning ("Bad expression: " ++ py_str expr);;
      emit Error (exn_msg e);;
      raise e
  | NameError msg =>
      (if silent then mret tt
       else
         name ← of_option (nth_error (split_on "'"%char msg) 1)
                          (IndexError "list index out of range");
         emit Debug ("'" ++ name
                     ++ "' is either not computed yet or mistaken"));;
      raise e
  | _ =>
      (if silent then mret tt
       else
         emit Warning ("Bad expression: " ++ py_str expr);;
         emit Exception (exn_msg e);;
         emit Debug ("Variables:" ++ fmt_variables d));;
      raise e
  end.

(** The handler of the second [try] of [_exec].  When logging is on, its
    message reads the name [result], which is bound neither in [_exec]
    nor in [__call__] (the comprehension variable of that name is local
    to the comprehension): the handler itself raises [NameError].  When
    logging is off the handler does nothing and [_exec] returns
    [None]. *)
Definition on_call_error (silent : bool) (e : exn) : M (state W) pyval :=
  if silent then mret VNone
  else raise (NameError "name 'result' is not defined").

(** [_exec(expr)] *)
Definition _exec (silent : bool) (kwargs d : pydict) (expr : pyval)
  : M (state W) pyval :=
  let d := dict_pop "__builtins__" d in
  r ← try_except (host (eval2 expr d)) (on_eval_error silent expr d);
  match kwargs with
  | [] => mret r
  | _ => try_except (host (invoke r kwargs)) (on_call_error silent)
  end.

(** [dict2.__call__(self, data, silent, **kwargs)] for a class named
    [cls] whose [_multi_expr] attribute is [multi_expr].  The
    [parameters] that [kwargs.update] receives are followed when they are
    a mapping or an empty sequence; a sequence of pairs, which [update]
    accepts as well, is not: the model raises for every other value, as
    [update] does for one that is not iterable. *)
Definition dict2_call (cls : string) (multi_expr : bool) (self : pydict)
           (data : pydict) (silent : bool) (kwargs : pydict)
  : M (state W) pyval :=
  let d := call_context data in
  kwargs ← match dict_get "parameters" self with
           | None => mret kwargs
           | Some (VDict p) => mret (dict_update kwargs p)
           | Some (VList []) | Some (VStr "") => mret kwargs
           | Some _ => raise (TypeError "object is not iterable")
           end;
  result ← of_option (dict_get "result" self)
                     (AttributeError "result");
  match result with
  | VList exprs =>
      if multi_expr then
        retv ← map_m (_exec silent kwargs d) exprs;
        match retv with
        | [r] => mret r
        | _ => mret (VList retv)
        end
      else
        raise (ValueError
                 ("List of expressions is not supported for the result of "
                  ++ cls))
  | expr => _exec silent kwargs d expr
  end.

End Dict2.
End Dict2.
Import Dict2.

(** ** [Modifier] and [Modifiers] *)

Record executable : Type := mkExe {
  format : string;
  destination : string
}.

Module Modifiers.
Section Modifiers.
Context {W : Type} `{Host W}.

(** [Modifier._fields] *)
Definition _fields : pydict :=
  [("apply", VBool true); ("loop", VNone); ("grid", VNone)].

(** The executable as it is handed to the modifier functions. *)
Definition exe_value (exe : executable) : pyval :=
  VDict [("format", VStr (format exe));
         ("destination", VStr (destination exe))].

(** [for _ in range(n): parser = f(parser)] *)
Fixpoint iterate (n : nat) (f : pyval -> M (state W) pyval) (parser : pyval)
  : M (state W) pyval :=
  match n with
  | O => mret parser
  | S n' => p ← f parser; iterate n' f p
  end.

(** [Modifier.__call__(self, d, parser, **kw)].  [Modifier] defines no
    [_multi_expr], and the call never passes [silent]. *)
Definition modifier_call (self : pydict) (d : pydict) (parser : pyval)
           (kw : pydict) : M (state W) pyval :=
  let once p :=
    dict2_call "Modifier" false self d false
               (dict_update [("parser", p)] kw) in
  loop ← of_option (dict_get "loop" self) (AttributeError "loop");
  match loop with
  | VNone => once parser
  | VInt n => iterate (Z.to_nat n) once parser
  | VBool b => iterate (if b then 1 else 0) once parser
  | _ => raise (TypeError "object cannot be interpreted as an integer")
  end.

(** *** Registry construction *)

(** [Modifiers.registry.setdefault(c2, {}); Modifiers.registry[c2][name] = m] *)
Definition register (c2 name : string) (m : pydict) (reg : registry_t)
  : registry_t :=
  let reg := dict_setdefault c2 [] reg in
  match dict_get c2 reg with
  | Some items => dict_set c2 (dict_set name m items) reg
  | None => reg
  end.

Definition with_registry (f : registry_t -> registry_t)
  : M (state W) unit :=
  modify (fun s =>
            set_registry
              (Some (f (match cls_registry s with
                        | Some r => r
                        | None => []
                        end))) s).

(** The three lists of categories, most specific formats first. *)
Definition category_lists : list (list string) :=
  [expand_formats "All"; tl (map fst FORMATS); ["All"]].

(** The body of [for c in clist]. *)
Definition register_category (self_id : nat) (name : string)
           (params : pydict) (r : pyval) (c : string) : M (state W) unit :=
  let expr :=
    match r with
    | VDict rd => match dict_get c rd with Some e => e | None => VNone end
    | _ => VStr (py_str r)
    end in
  if truthy expr then
    match dict2_init _fields params
            [("name", VStr name); ("parent", VObj self_id);
             ("result", expr)] with
    | Raise e => raise e
    | Ok m => for_each (expand_formats c)
                       (fun c2 => with_registry (register c2 name m))
    end
  else mret tt.

Definition as_dict (v : pyval) : M (state W) pydict :=
  match v with
  | VDict d => mret d
  | _ => raise (AttributeError "object is not a mapping")
  end.

(** The parameters of an item, on which [setdefault] and then [pop] are
    called.  A list has no [setdefault]; when there is no default to
    set, the first call it receives is [pop('result', {})], which a list
    refuses for its two arguments. *)
Definition item_params (defaults : pydict) (params : pyval)
  : M (state W) pydict :=
  match params, defaults with
  | VList _, [] => raise (TypeError "pop expected at most 1 argument, got 2")
  | _, _ => as_dict params
  end.

(** The parameters of an item once the file-wide defaults are in. *)
Definition with_defaults (defaults params : pydict) : pydict :=
  fold_left (fun acc i => dict_setdefault (fst i) (snd i) acc) defaults params.

(** The body of [for name, params in modifiers.items()]. *)
Definition register_item (self_id : nat) (data_all : pyval)
           (item : string * pyval) : M (state W) unit :=
  let (name, params) := item in
  defaults ← as_dict data_all;
  params ← item_params defaults params;
  let params := with_defaults defaults params in
  let r := match dict_get "result" params with
           | Some r => r
           | None => VDict []
           end in
  let params := dict_pop "result" params in
  for_each category_lists
           (fun clist =>
              for_each clist (register_category self_id name params r)).

(** [Modifiers.source]: a plain attribute of the class, which is a
    subclass of [list] and has no metaclass; it is bound to the configured
    path when the class is created.  A state that records no source
    stands for the class at that point. *)
Definition default_source : string := expand_path config_source.

Definition source_get : M (state W) string :=
  s ← get;
  match cls_source s with
  | Some p => mret p
  | None =>
      modify (fun s => set_registry None (set_source (Some default_source) s));;
      mret default_source
  end.

(** [Modifiers.source = path]: the assignment rebinds the attribute and
    does nothing else. *)
Definition source_assign (path : string) : M (state W) unit :=
  modify (set_source (Some path)).

(** The loop over the definitions read from the source, [y] being what
    [yaml.load] returned. *)
Definition register_all (self_id : nat) (y : pyval) : M (state W) unit :=
  modifiers ← as_dict (if truthy y then y else VDict []);
  let data_all := match dict_get "defaults" modifiers with
                  | Some dflt => dflt
                  | None => VDict []
                  end in
  for_each (dict_pop "defaults" modifiers) (register_item self_id data_all).

(** The first block of [__init__]: parse the definitions once. *)
Definition ensure_registry (self_id : nat) : M (state W) unit :=
  s ← get;
  match cls_registry s with
  | Some _ => mret tt
  | None =>
      src ← source_get;
      y ← host (read_yaml src);
      modify (set_registry (Some []));;
      register_all self_id y
  end.

(** *** Selection check *)

(** [Modifiers.registry[exe.format]] *)
Definition registry_for (exe : option executable)
  : M (state W) (list (string * pydict)) :=
  e ← of_option exe
        (AttributeError "'NoneType' object has no attribute 'format'");
  s ← get;
  reg ← of_option (cls_registry s)
          (TypeError "'NoneType' object is not subscriptable");
  of_option (dict_get (format e) reg) (KeyError (format e)).

(** [select.remove(name)] on the caller's list *)
Definition select_remove (name : string) : M (state W) unit :=
  s ← get;
  match select_obj s with
  | None => raise (AttributeError "'NoneType' object has no attribute 'remove'")
  | Some l =>
      l' ← of_option (list_remove String.eqb name l)
             (ValueError "list.remove(x): x not in list");
      modify (set_select (Some l'))
  end.

(** The body of [for name in (select or [])[:]]. *)
Definition check_name (exe : option executable) (warn : bool)
           (name : string) : M (state W) unit :=
  items ← registry_for exe;
  if dict_mem name items then mret tt
  else
    let msg : string := ("Modifier '" ++ name ++ "' does not exist")%string in
    if warn then emit Warning msg;; select_remove name
    else raise (ValueError msg).

Definition check_selection (exe : option executable) (warn : bool)
  : M (state W) unit :=
  s ← get;
  let copy := match select_obj s with Some l => l | None => [] end in
  for_each copy (check_name exe warn).

(** *** The application loop *)

(** The module of format specific functions, [md]. *)
Definition format_globals (fmt : string) : pydict :=
  if str_in fmt (expand_formats "ELF") then elf_globals
  else if str_in fmt (expand_formats "Mach-O") then macho_globals
  else if str_in fmt (expand_formats "PE") then pe_globals
  else [].

(** The dictionary [d] built for one item. *)
Definition item_context (exe : executable)
           (items : list (string * pydict)) (parser : pyval)
  : M (state W) pydict :=
  d ← match parser with
      | VNone =>
          record (EvParse (destination exe));;
          tmp_parser ← host (lief_parse (destination exe));
          secs ← host (sections_of tmp_parser);
          mret [("sections", secs)]
      | _ =>
          secs ← host (get_sections parser);
          cc ← host (compute_checksum_of parser);
          mret [("sections", secs); ("compute_checksum", cc)]
      end;
  mret (dict_update
          (dict_update (dict_update d common_globals)
                       (format_globals (format exe)))
          (map (fun nm => (fst nm, VDict (snd nm))) items)).

(** [select is None and not modifier.apply or
     select is not None and name not in select] *)
Definition skipped (name : string) (modifier : pydict)
  : M (state W) bool :=
  s ← get;
  match select_obj s with
  | None =>
      a ← of_option (dict_get "apply" modifier) (AttributeError "apply");
      mret (negb (truthy a))
  | Some l => mret (negb (str_in name l))
  end.

(** [self.append(name)] *)
Definition append_applied (name : string) : M (state W) unit :=
  modify (fun s => set_applied (applied s ++ [name]) s).

(** The body of the loop over the registry; the result is the value of
    [parser] after the iteration. *)
Definition apply_item (exe : executable) (items : list (string * pydict))
           (parser : pyval) (item : string * pydict) : M (state W) pyval :=
  let (name, modifier) := item in
  skip ← skipped name modifier;
  if skip : bool then mret parser
  else
    d ← item_context exe items parser;
    try_except
      (p ← modifier_call modifier d parser
             [("executable", exe_value exe)];
       append_applied name;;
       mret p)
      (fun e => emit Warning (name ++ ": " ++ exn_msg e);; mret parser).

Fixpoint apply_items (exe : executable) (items : list (string * pydict))
         (todo : list (string * pydict)) (parser : pyval)
  : M (state W) pyval :=
  match todo with
  | [] => mret parser
  | item :: todo' =>
      p ← apply_item exe items parser item;
      apply_items exe items todo' p
  end.

(** [if parser is not None: parser.build()] *)
Definition finalize (parser : pyval) : M (state W) unit :=
  match parser with
  | VNone => mret tt
  | _ => record (EvBuild parser);; host (build parser)
  end.

(** The last block of [__init__]. *)
Definition run (exe : option executable) : M (state W) unit :=
  match exe with
  | None => mret tt
  | Some e =>
      items ← registry_for exe;
      parser ← apply_items e items items VNone;
      finalize parser
  end.

(** [Modifiers.__init__(self, exe, select, warn)]; [select] and the
    fresh, empty [self] are in the state. *)
Definition init (self_id : nat) (exe : option executable) (warn : bool)
  : M (state W) unit :=
  ensure_registry self_id;;
  check_selection exe warn;;
  run exe.

(** [Modifiers.registry[c][name]] *)
Definition entry_of (reg : option registry_t) (c name : string)
  : option pydict :=
  match reg with
  | Some r => match dict_get c r with
              | Some items => dict_get name items
              | None => None
              end
  | None => None
  end.

(** The same function on every value of a dictionary. *)
Definition vmap {A B} (f : A -> B) (d : list (string * A))
  : list (string * B) :=
  map (fun kv => (fst kv, f (snd kv))) d.

(** The definition held by an item: its content without [parent], the
    reference to the instance that happened to build the registry. *)
Definition definition_of (m : pydict) : pydict := dict_pop "parent" m.

(** category -> name -> definition *)
Definition definitions (reg : option registry_t) : option registry_t :=
  option_map (vmap (vmap definition_of)) reg.

(** The item that [Modifier(params, name=name, parent=self, result=expr)]
    builds when [expr] is not the sentinel. *)
Definition modifier_of (self_id : nat) (name : string) (params : pydict)
           (expr : pyval) : pydict :=
  dict_set "result" expr
    (dict_set "parent" (VObj self_id)
       (dict_set "name" (VStr name)
          (dict_update
             (fold_left (fun acc fv => dict_setdefault (fst fv) (snd fv) acc)
                _fields
                [("name", VStr UNDEF_RESULT); ("description", VStr "");
                 ("result", VStr UNDEF_RESULT)])
             (dict_pop "logger" params)))).

(** Two states with the same registry. *)
Definition same_registry (s t : state W) : Prop :=
  cls_registry s = cls_registry t.

(** Two states whose registries hold the same definitions. *)
Definition same_definitions (s t : state W) : Prop :=
  definitions (cls_registry s) = definitions (cls_registry t).

(** An expression that is not a chain of expressions. *)
Definition single_expr (expr : pyval) : Prop :=
  match expr with VList _ => False | _ => True end.

(** A value of [loop] with which the expression is evaluated at least
    once: [None], a positive integer, [True]. *)
Definition loops_once (loop : pyval) : Prop :=
  match loop with
  | VNone => True
  | VInt n => (0 < n)%Z
  | VBool b => b = true
  | _ => False
  end.

(** A value of [loop] with which the expression is not evaluated at all:
    a count that is not positive, [False]. *)
Definition loops_never (loop : pyval) : Prop :=
  match loop with
  | VInt n => (n <= 0)%Z
  | VBool b => b = false
  | _ => False
  end.

(** The [parameters] entry of an item, when there is one, is a
    mapping. *)
Definition parameters_ok (self : pydict) : Prop :=
  match dict_get "parameters" self with
  | None | Some (VDict _) => True
  | Some _ => False
  end.

(** The number of [build] calls of a run. *)
Definition builds (t : list event) : nat :=
  length (List.filter
            (fun ev => match ev with EvBuild _ => true | _ => false end) t).

End Modifiers.
End Modifiers.

(** ** Variant templates ([MetaItem.source]) *)

Module Variants.
Section Variants.
Context {W : Type} `{Host W}.

(** [itertools.product( *iterables )]: the leftmost iterable varies
    slowest. *)
Fixpoint product (ls : list (list pyval)) : list (list pyval) :=
  match ls with
  | [] => [[]]
  | l :: ls' => flat_map (fun x => map (cons x) (product ls')) l
  end.

(** [k[1:]] when [k.startswith("_")] *)
Definition attr_of (k : string) : option string :=
  match k with
  | String "_" rest => Some rest
  | _ => None
  end.

(** ["-".join(map(str, (item, ) + values))] *)
Definition vitem_name (item : string) (values : list pyval) : string :=
  String.concat "-" (map py_str (VStr item :: values)).

(** [zip(attrs, values)] *)
Fixpoint zip (attrs : list string) (values : list pyval) : pydict :=
  match attrs, values with
  | a :: attrs', v :: values' => (a, v) :: zip attrs' values'
  | _, _ => []
  end.

(** The body of [for values in itertools.product( *iterables )]. *)
Definition add_variant (item : string) (attrs : list string)
           (template : pydict) (variants : pydict) (values : list pyval)
  : res pydict :=
  let vitem := vitem_name item values in
  let variants := dict_setdefault vitem (VDict template) variants in
  match zip attrs values ++ template with
  | [] => Ok variants
  | kvs =>
      match dict_get vitem variants with
      | Some (VDict v) =>
          Ok (dict_set vitem
                (VDict (fold_left
                          (fun acc kv => dict_setdefault (fst kv) (snd kv) acc)
                          kvs v))
                variants)
      | _ => Raise (AttributeError "object has no attribute 'setdefault'")
      end
  end.

(** [variants = data.pop('variants', {})], on which [pop('_template', {})]
    is called next: a list refuses the two arguments, the other values
    that are not mappings have no [pop]. *)
Definition mapping (v : option pyval) : res pydict :=
  match v with
  | None => Ok []
  | Some (VDict d) => Ok d
  | Some (VList _) =>
      Raise (TypeError "pop expected at most 1 argument, got 2")
  | Some _ => Raise (AttributeError "object has no attribute 'pop'")
  end.

(** [template = variants.pop('_template', {})] as the test
    [len(template) > 0] and the block under it take it: an empty
    sequence is passed over like an empty mapping, a sequence that is not
    empty has no [keys], the other values have no length. *)
Definition template_of (v : option pyval) : res pydict :=
  match v with
  | None => Ok []
  | Some (VDict d) => Ok d
  | Some (VList []) | Some (VStr "") => Ok []
  | Some (VList _) | Some (VStr _) =>
      Raise (AttributeError "object has no attribute 'keys'")
  | Some _ => Raise (TypeError "object has no len()")
  end.

(** The attribute names of a template, [attrs]. *)
Definition template_attrs (template : pydict) : list string :=
  omap attr_of (dict_keys template).

(** The values [template.pop(f"_{k}")], one per attribute. *)
Definition template_iterables (template : pydict) : list pyval :=
  omap (fun k => dict_get (String "_" k) template) (template_attrs template).

(** The template once its attribute entries have been popped. *)
Definition template_rest (template : pydict) : pydict :=
  fold_left (fun t k => dict_pop (String "_" k) t)
            (template_attrs template) template.

(** The expansion of the [_template] entry of a [variants] mapping:
    [variants] after the [if len(template) > 0] block. *)
Definition expand_template (item : string) (variants : pydict)
  : res pydict :=
  template ← template_of (dict_get "_template" variants);
  let variants := dict_pop "_template" variants in
  match template with
  | [] => Ok variants
  | _ =>
      iterables ← res_map py_iter (template_iterables template);
      res_fold (add_variant item (template_attrs template)
                            (template_rest template))
               (product iterables) variants
  end.

(** The keys of a dictionary after [setdefault(n, ...)]. *)
Definition add_name (ks : list string) (n : string) : list string :=
  if str_in n ks then ks else ks ++ [n].

(** A text without the separator of the names. *)
Fixpoint dash_free (s : string) : Prop :=
  match s with
  | EmptyString => True
  | String c s' => c <> "-"%char /\ dash_free s'
  end.

(** An iterable whose values have pairwise distinct texts, none of which
    contains the separator. *)
Definition plain_values (l : list pyval) : Prop :=
  NoDup (map py_str l) /\ Forall (fun v => dash_free (py_str v)) l.

(** The names given to the tuples of the cross product, in order. *)
Definition tuple_names (item : string) (ls : list (list pyval))
  : list string :=
  map (vitem_name item) (product ls).

(** [data.pop('variants', {})] followed by the expansion. *)
Definition variants_of (item : string) (data : pydict) : res pydict :=
  variants ← mapping (dict_get "variants" data);
  expand_template item variants.

End Variants.
End Variants.

(** ** Cascading defaults ([load_yaml_config._set]) *)

Module Loader.
Section Loader.
Context {W : Type} `{Host W}.
Variable no_defaults : list string.
Variable parse_defaults : bool.

(** The configuration being filled is the state. *)
Definition C : Type -> Type := M pydict.

(** [config[name]], which has to offer [setdefault] *)
Definition entry (name : string) : C pydict :=
  config ← get;
  match dict_get name config with
  | Some (VDict params) => mret params
  | Some _ => raise (AttributeError "object has no attribute 'setdefault'")
  | None => raise (KeyError name)
  end.

(** [config[name].setdefault(default, v)] *)
Definition entry_setdefault (name default : string) (v : pyval) : C unit :=
  params ← entry name;
  modify (dict_set name (VDict (dict_setdefault default v params))).

(** [re.search(pattern, name2)] *)
Definition search (pattern : pyval) (name2 : string) : C bool :=
  match pattern with
  | VStr p => mret (re_search p name2)
  | _ => raise (TypeError "first argument must be string or compiled pattern")
  end.

(** The body of [for name2 in config.keys()]. *)
Definition apply_pattern (default : string) (v pattern : pyval)
           (name2 : string) : C unit :=
  match v with
  | VBool b =>
      _ ← entry name2;
      m ← search pattern name2;
      entry_setdefault name2 default (VBool (if m : bool then b else negb b))
  | _ =>
      m ← search pattern name2;
      if m : bool then entry_setdefault name2 default v else mret tt
  end.

(** The loop over the patterns of a default. *)
Definition apply_patterns (default : string) (v : pyval)
           (patterns : list pyval) : C unit :=
  for_each patterns
           (fun pattern =>
              config ← get;
              for_each (dict_keys config) (apply_pattern default v pattern)).

(** [set(value.keys()) == {'match', 'value'}] *)
Definition is_match_value (value : pydict) : bool :=
  (length value =? 2)%nat && dict_mem "match" value && dict_mem "value" value.

(** The body of [for default, value in defaults.items()], for the entry
    [name]. *)
Definition apply_default (name : string) (dv : string * pyval) : C unit :=
  let (default, value) := dv in
  if str_in default no_defaults then
    raise (ValueError ("default value for parameter '" ++ default
                       ++ "' is not allowed"))
  else
    match value with
    | VDict vd =>
        let vd := dict_pop "comment" vd in
        if is_match_value vd then
          let v := match dict_get "value" vd with
                   | Some v => v
                   | None => VNone
                   end in
          patterns ← match dict_get "match" vd with
                     | Some m => match py_iter m with
                                 | Ok l => mret l
                                 | Raise e => raise e
                                 end
                     | None => mret []
                     end;
          apply_patterns default v patterns
        else mret tt
    | _ => entry_setdefault name default value
    end.

(** [_set(config, defaults_)].  The [defaults] of the file, which
    [defaults.update] receives, are followed when they are a mapping or
    an empty sequence; the model raises for every other value, as
    [update] does for one that is not iterable. *)
Definition _set (defaults_ : pydict) : C unit :=
  if parse_defaults then
    config ← get;
    own ← match dict_get "defaults" config with
          | None => mret []
          | Some (VDict d) => mret d
          | Some (VList []) | Some (VStr "") => mret []
          | Some _ => raise (TypeError "object is not iterable")
          end;
    let defaults := dict_update defaults_ own in
    modify (dict_pop "defaults");;
    config ← get;
    for_each (dict_keys config)
             (fun name => for_each defaults (apply_default name))
  else mret tt.

(** What one boolean pattern default does to a configuration: every entry
    receives [default], unless it has it, with the value [b] if its name
    matches [pattern] and the opposite otherwise. *)
Definition fill_default (default : string) (b : bool) (pattern : string)
           (config : pydict) : pydict :=
  map (fun kv =>
         (fst kv,
          match snd kv with
          | VDict params =>
              VDict (dict_setdefault default
                       (VBool (if re_search pattern (fst kv) then b
                               else negb b))
                       params)
          | v => v
          end))
      config.

(** The single file branch of [load_yaml_config]: the pairs yielded. *)
Definition load_file (content : pyval) : res pydict :=
  match (if truthy content then content else VDict []) with
  | VDict config =>
      match _set [] config with
      | (Ok _, config') => Ok config'
      | (Raise e, _) => Raise e
      end
  | _ => Raise (AttributeError "object has no attribute 'pop'")
  end.

End Loader.
End Loader.

(** ** Helper functions offered to the expressions

    [_repeatn], [_max], [_min] and the function made by [_select] are
    bound in the namespace of every expression ([repeatn], [max], [min],
    [select], [select_section_name]). *)

Module Helpers.

(** The error of an integer division by zero. *)
Definition ZeroDivisionError : exn :=
  OtherError "integer division or modulo by zero".

(** [s * k]: [k] copies of the sequence, none when [k] is not positive. *)
Definition seq_mul {A} (s : list A) (k : Z) : list A :=
  concat (repeat s (Z.to_nat k)).

(** [s[:n]]: the first [n] elements, or all but the last [-n] when [n] is
    negative. *)
Definition slice_to {A} (s : list A) (n : Z) : list A :=
  if (0 <=? n)%Z then firstn (Z.to_nat n) s
  else firstn (length s - Z.to_nat (- n)) s.

(** [_repeatn = lambda s, n: (s * (n // len(s) + 1))[:n]] *)
Definition _repeatn {A} (s : list A) (n : Z) : res (list A) :=
  let len := Z.of_nat (length s) in
  if (len =? 0)%Z then Raise ZeroDivisionError
  else Ok (slice_to (seq_mul s (n / len + 1)) n).

Section MinMax.
(** [better x y]: the comparison that makes [x] replace the current
    extremum [y], [x > y] for [max] and [x < y] for [min]; it may raise,
    as the comparison of values of unrelated types does. *)
Variable better : pyval -> pyval -> res bool.

(** The builtin [max] or [min] of a sequence whose first element is
    [cur]: the first extremal element is kept. *)
Fixpoint extremum_from (cur : pyval) (l : list pyval) : res pyval :=
  match l with
  | [] => Ok cur
  | x :: l' =>
      b ← better x cur;
      extremum_from (if b : bool then x else cur) l'
  end.

(** [[x for x in l if x is not None]] *)
Definition not_none (l : list pyval) : list pyval :=
  List.filter (fun x => match x with VNone => false | _ => true end) l.

(** [lambda l: None if len(l2 := [x for x in l if x is not None]) == 0
    else max(l2)], the body shared by [_max] and [_min], called without
    further arguments. *)
Definition _extremum (l : list pyval) : res pyval :=
  match not_none l with
  | [] => Ok VNone
  | x :: l2 => extremum_from x l2
  end.

End MinMax.

(** [_max] and [_min], given the comparisons [>] and [<]. *)
Definition _max (gt : pyval -> pyval -> res bool) := _extremum gt.
Definition _min (lt : pyval -> pyval -> res bool) := _extremum lt.

Section Select.
Context {A R : Type}.
(** [y == x], or [y is x] *)
Variable eqb : A -> A -> bool.
(** [apply_func], when it is a function written in Python *)
Variable apply_func : option (A -> A).
(** [random.choice(rlst, exc, False)] *)
Variable random_choice : list A -> list A -> R.

(** [x in l] *)
Definition elem_in (x : A) (l : list A) : bool :=
  existsb (fun y => eqb y x) l.

Definition _map (l : list A) : list A :=
  match apply_func with Some f => map f l | None => l end.

(** [_select(apply_func)(lst, random_lst, inclusions, exclusions)], the
    four arguments being the lists that [_list] makes of them. *)
Definition _wrapper (lst random_lst inclusions exclusions : list A)
  : A + R :=
  let lst := _map lst in
  let rlst := _map random_lst in
  let exc := _map exclusions in
  let inc := match _map inclusions with
             | [] => lst ++ rlst
             | inc => inc
             end in
  match find (fun x => negb (elem_in x exc || negb (elem_in x inc))) lst with
  | Some x => inl x
  | None => inr (random_choice rlst exc)
  end.

End Select.

End Helpers.

(** ** The names of a registry

    [MetaBase.__iter__] and [Modifiers.names]. *)

Module Names.

(** [s1 < s2] on strings: the order of the code points, which is the
    order of the bytes of their encoding. *)
Definition str_lt (s1 s2 : string) : bool :=
  match String.compare s1 s2 with Lt => true | _ => false end.

(** The place that [sorted] gives to [x] in a sorted list: after the
    elements that are not greater. *)
Fixpoint insert_sorted (x : string) (l : list string) : list string :=
  match l with
  | [] => [x]
  | y :: l' => if str_lt x y then x :: l else y :: insert_sorted x l'
  end.

(** [sorted(l)] *)
Definition py_sorted (l : list string) : list string :=
  fold_left (fun acc x => insert_sorted x acc) l [].

(** [temp.append(name)] unless [name in temp] *)
Definition append_new (temp : list string) (name : string) : list string :=
  if str_in name temp then temp else temp ++ [name].

(** [list(set(l))]: the distinct strings of [l], here in the order of
    their first occurrence. *)
Definition py_set (l : list string) : list string :=
  fold_left append_new l [].

(** The names that the generator of [MetaBase.__iter__] yields, once the
    registry is there: those of each category in turn, a name already
    yielded being passed over. *)
Definition iter_names {V} (registry : list (string * list (string * V)))
  : list string :=
  fold_left (fun temp base => fold_left append_new (dict_keys (snd base)) temp)
            registry [].

(** A list in strictly increasing order. *)
Definition increasing (l : list string) : Prop :=
  StronglySorted (fun a b => str_lt a b = true) l.

Section Names.
Context {W : Type} `{Host W}.

(** [Modifiers(None)]: an instance made for the sake of the registry.
    It has its own, empty list of applied names and no selection; the
    loggers, the class attributes and the world are those of the
    caller. *)
Definition force_registry (self_id : nat) : M (state W) unit :=
  fun s =>
    let (r, s') :=
      Modifiers.init self_id None false (set_applied [] (set_select None s)) in
    (r, set_applied (applied s) (set_select (select_obj s) s')).

(** [Modifiers.registry[c].keys()] *)
Definition category_keys (c : string) : M (state W) (list string) :=
  s ← get;
  reg ← of_option (cls_registry s)
          (TypeError "'NoneType' object is not subscriptable");
  items ← of_option (dict_get c reg) (KeyError c);
  mret (dict_keys items).

(** [Modifiers.names(format)] *)
Definition names (self_id : nat) (format : string)
  : M (state W) (list string) :=
  force_registry self_id;;
  l ← map_m category_keys (expand_formats format);
  mret (py_sorted (py_set (concat l))).

End Names.
End Names.

(** ** Notions used to state what the pipeline does *)

Module Views.
Section Views.
Context {W : Type} `{Host W}.

(** The test that lets an item through: the negation of the condition
    of the [continue] statement, for the selection [select]. *)
Definition selected (select : option (list string))
           (item : string * pydict) : bool :=
  match select with
  | Some l => str_in (fst item) l
  | None => match dict_get "apply" (snd item) with
            | Some a => truthy a
            | None => false
            end
  end.

(** The keyword arguments that [_exec] passes to the function: those of
    the call, then the [parameters] of the item. *)
Definition call_kwargs (self kwargs : pydict) : pydict :=
  match dict_get "parameters" self with
  | Some (VDict p) => dict_update kwargs p
  | _ => kwargs
  end.

(** The dictionary of a [dict2] before [idict] and [kwargs] are merged in:
    the three standard keys and the fields of the class. *)
Definition dict2_defaults (fields : pydict) : pydict :=
  fold_left (fun acc fv => dict_setdefault (fst fv) (snd fv) acc)
            fields
            [("name", VStr UNDEF_RESULT); ("description", VStr "");
             ("result", VStr UNDEF_RESULT)].

(** A text without quote. *)
Fixpoint quote_free (s : string) : Prop :=
  match s with
  | EmptyString => True
  | String c s' => c <> "'"%char /\ quote_free s'
  end.

(** The entries that [__init__] puts in the context of an item before the
    functions of the package: the sections and, with a parser, its
    checksum method. *)
Definition context_base (secs : pyval) (cc : option pyval) : pydict :=
  match cc with
  | None => [("sections", secs)]
  | Some c => [("sections", secs); ("compute_checksum", c)]
  end.

(** The formats reached by the three passes of the registry construction
    for an item that has an expression for every category. *)
Definition registered_formats : list string :=
  concat (map expand_formats (concat Modifiers.category_lists)).

End Views.
End Views.

(** ** Merging configurations ([load_yaml_config._merge]) and plain
    defaults *)

Module Merge.

(** [a == b] on the values of a YAML document: numbers by value, [True]
    and [False] being the numbers 1 and 0, strings by text, lists
    element by element, mappings key by key whatever their order, host
    objects by identity. *)
Fixpoint py_eq (a b : pyval) : bool :=
  match a, b with
  | VNone, VNone => true
  | VBool x, VBool y => Bool.eqb x y
  | VBool x, VInt z | VInt z, VBool x => (z =? (if x then 1 else 0))%Z
  | VInt x, VInt y => (x =? y)%Z
  | VStr x, VStr y => String.eqb x y
  | VList l, VList m =>
      (fix all2 (l m : list pyval) {struct l} : bool :=
         match l, m with
         | [], [] => true
         | x :: l', y :: m' => py_eq x y && all2 l' m'
         | _, _ => false
         end) l m
  | VDict d, VDict e =>
      (length d =? length e)%nat
      && (fix all (d : list (string * pyval)) : bool :=
            match d with
            | [] => true
            | (k, v) :: d' =>
                match dict_get k e with
                | Some w => py_eq v w
                | None => false
                end && all d'
            end) d
  | VObj x, VObj y => (x =? y)%nat
  | _, _ => false
  end.

(** [x in l] *)
Definition py_in (x : pyval) (l : list pyval) : bool :=
  existsb (fun y => py_eq y x) l.

(** [for sv in v: if sv not in v1: v1.append(sv)] *)
Definition extend_new (v1 v : list pyval) : list pyval :=
  fold_left (fun acc sv => if py_in sv acc then acc else acc ++ [sv]) v v1.

(** [_merge(config, k, v, keep)], as the value of [config] once the call
    has returned; [config] and [v] are taken to share no object. *)
Fixpoint _merge (config : pydict) (k : string) (v : pyval) (keep : bool)
  : pydict :=
  match dict_get k config with
  | None => dict_set k v config
  | Some (VDict v1) =>
      match v with
      | VDict d =>
          dict_set k
            (VDict (fold_left (fun acc kv => _merge acc (fst kv) (snd kv) false)
                              d v1))
            config
      | _ => if keep then config else dict_set k v config
      end
  | Some (VList v1) =>
      match v with
      | VList l => dict_set k (VList (extend_new v1 l)) config
      | _ => dict_set k (VList (v1 ++ [v])) config
      end
  | Some _ => if keep then config else dict_set k v config
  end.

(** [isinstance(value, dict)] *)
Definition is_mapping (v : pyval) : bool :=
  match v with VDict _ => true | _ => false end.

(** An entry once plain defaults are in: what the loop
    [for default, value in defaults.items(): params.setdefault(default,
    value)] leaves. *)
Definition fill_plain (defaults : pydict) (entry : pyval) : pyval :=
  match entry with
  | VDict params =>
      VDict (fold_left (fun acc dv => dict_setdefault (fst dv) (snd dv) acc)
                       defaults params)
  | v => v
  end.

Definition fill_entry (defaults : pydict) (kv : string * pyval)
  : string * pyval :=
  (fst kv, fill_plain defaults (snd kv)).

(** Defaults that are plain values and that the caller of the loader
    allows. *)
Definition plain_allowed (no_defaults : list string) (defaults : pydict)
  : Prop :=
  Forall (fun dv => is_mapping (snd dv) = false
                    /\ str_in (fst dv) no_defaults = false) defaults.

(** The mapping found under the key [defaults] of a file, none when the
    key holds something else. *)
Definition file_defaults (config : pydict) : option pydict :=
  match dict_get "defaults" config with
  | None => Some []
  | Some (VDict d) => Some d
  | Some _ => None
  end.

End Merge.

(** ** Pattern defaults whose value is not boolean *)

Module Matching.
Section Matching.
Context {W : Type} `{Host W}.

(** [isinstance(v, bool)] *)
Definition is_bool (v : pyval) : bool :=
  match v with VBool _ => true | _ => false end.

(** What the loops over the patterns and the names leave of a
    configuration, for a value that is not boolean: every entry whose name
    matches one of the patterns has received [default], unless it had
    it. *)
Definition fill_matching (default : string) (v : pyval)
           (patterns : list string) (config : pydict) : pydict :=
  map (fun kv =>
         (fst kv,
          match snd kv with
          | VDict params =>
              VDict (if existsb (fun p => re_search p (fst kv)) patterns
                     then dict_setdefault default v params
                     else params)
          | x => x
          end))
      config.

End Matching.
End Matching.

(** ** The [source] property of [MetaBase]

    The property belongs to the classes that have [MetaBase] as their
    metaclass. *)

Module MetaBase.
Section MetaBase.
Context {W : Type} `{Host W}.
(** What the registry of the class holds. *)
Variable R : Type.
(** The outcome of [config[self.__name__.lower()]]. *)
Variable class_config : res string.

(** The two attributes of the class that the property touches:
    [_source], absent until the first assignment, and [registry]. *)
Record cls : Type := mkCls {
  _source : option string;
  registry : option R
}.

(** [Path(str(path or config[self.__name__.lower()]), expand=True)] *)
Definition assigned_path (path : option string) : res string :=
  match (match path with
         | Some q => if String.eqb q "" then class_config else Ok q
         | None => class_config
         end) with
  | Ok q => Ok (expand_path q)
  | Raise e => Raise e
  end.

(** [MetaBase.source.setter] *)
Definition source_set (path : option string) : M cls unit :=
  fun c =>
    match assigned_path path with
    | Raise e => (Raise e, c)
    | Ok p =>
        match _source c with
        | Some cur =>
            if String.eqb cur p then (Ok tt, c)
            else (Ok tt, mkCls (Some p) None)
        | None => (Ok tt, mkCls (Some p) None)
        end
    end.

(** [MetaBase.source], the getter *)
Definition source_get : M cls string :=
  (c ← get;
   match _source c with
   | Some _ => mret tt
   | None => source_set None
   end);;
  c ← get;
  of_option (_source c) (AttributeError "_source").

End MetaBase.

Arguments mkCls {R}.
Arguments _source {R}.
Arguments registry {R}.
Arguments source_set {W H R}.
Arguments source_get {W H R}.

End MetaBase.

(** ** A concrete host

    A small world on which the definitions above can be run: files are an
    association list from paths to parsed documents, expressions are names
    looked up in the context (with one forbidden construct and one failing
    division), and three host functions stand for modifier functions. *)

Module Sample.

(** The world: the parsed content of each file. *)
Definition world_t : Type := list (string * pyval).

(** A function that returns the parser it was given, parsing the
    executable itself when it got none. *)
Definition f_keep : pyval := VObj 1.
(** A function that alters the binary and returns nothing. *)
Definition f_none : pyval := VObj 2.
(** A function that raises. *)
Definition f_fail : pyval := VObj 3.
(** The parser objects handed out by the host. *)
Definition parsed : pyval := VObj 100.
Definition tmp_parsed : pyval := VObj 101.

Definition s_eval2 (expr : pyval) (d : pydict) (w : world_t)
  : res pyval * world_t :=
  match expr with
  | VStr "__import__('os')" =>
      (Raise (ForbiddenNodeError "forbidden node"), w)
  | VStr "1 / 0" => (Raise (OtherError "division by zero"), w)
  | VStr x =>
      match dict_get x d with
      | Some v => (Ok v, w)
      | None => (Raise (NameError ("name '" ++ x ++ "' is not defined")), w)
      end
  | _ => (Raise (TypeError "expression must be a string"), w)
  end.

Definition s_invoke (r : pyval) (kwargs : pydict) (w : world_t)
  : res pyval * world_t :=
  match r with
  | VObj 1 =>
      match dict_get "parser" kwargs with
      | Some VNone | None => (Ok parsed, w)
      | Some p => (Ok p, w)
      end
  | VObj 2 => (Ok VNone, w)
  | VObj 3 => (Raise (OtherError "cannot alter"), w)
  | _ => (Raise (TypeError "object is not callable"), w)
  end.

Definition s_read_yaml (path : string) (w : world_t) : res pyval * world_t :=
  match dict_get path w with
  | Some y => (Ok y, w)
  | None => (Raise (OtherError "No such file or directory"), w)
  end.

(** A table of formats in two levels: the universal class [All] lists the
    format classes, each class lists its formats. *)
Definition s_formats : list (string * list string) :=
  [("All", ["ELF"; "Mach-O"; "MSDOS"; "PE"]);
   ("ELF", ["ELF32"; "ELF64"]);
   ("Mach-O", ["Mach-O32"; "Mach-O64"; "Mach-Ou"]);
   ("MSDOS", ["MSDOS"]);
   ("PE", [".NET"; "PE32"; "PE64"])].

(** A class expands to its formats, the universal class to the formats
    of all its classes, a format to itself. *)
Definition s_expand_formats (c : string) : list string :=
  let sub x := match dict_get x s_formats with Some l => l | None => [x] end in
  flat_map sub (sub c).

(** Patterns of the form [^literal] match the names that start with the
    literal; any other pattern is searched as a literal. *)
Fixpoint s_contains (p s : string) : bool :=
  String.prefix p s
  || match s with
     | EmptyString => false
     | String _ s' => s_contains p s'
     end.

Definition s_re_search (pattern name : string) : bool :=
  match pattern with
  | String "^" lit => String.prefix lit name
  | _ => s_contains pattern name
  end.

#[global] Instance host : Host world_t := {|
  UNDEF_RESULT := "undefined";
  host_str := fun _ => "<object>";
  eval2 := s_eval2;
  invoke := s_invoke;
  namespace_obj := fun _ => VObj 0;
  fmt_variables := fun _ => "";
  read_yaml := s_read_yaml;
  lief_parse := fun _ w => (Ok tmp_parsed, w);
  sections_of := fun _ w => (Ok (VList []), w);
  get_sections := fun _ w => (Ok (VList []), w);
  compute_checksum_of := fun _ w => (Ok (VObj 102), w);
  build := fun _ w => (Ok tt, w);
  FORMATS := s_formats;
  expand_formats := s_expand_formats;
  common_globals := [("keep", f_keep); ("none", f_none); ("fail", f_fail)];
  elf_globals := [];
  macho_globals := [];
  pe_globals := [];
  config_source := "modifiers.yml";
  expand_path := fun p => p;
  re_search := s_re_search
|}.

(** A state with nothing loaded, nothing selected, nothing applied. *)
Definition fresh (files : world_t) (select : option (list string))
  : state world_t :=
  mkState files [] (Some "modifiers.yml") None select [] [].

Definition pe32 : executable := mkExe "PE32" "/tmp/sample.exe".

(** An item of the registry, as [Modifier] builds it. *)
Definition item (name : string) (expr : pyval) (loop : pyval) : pydict :=
  [("name", VStr name); ("description", VStr ""); ("result", expr);
   ("apply", VBool true); ("loop", loop); ("grid", VNone);
   ("parent", VObj 0)].

(** A state whose registry is already built. *)
Definition loaded (items : list (string * pydict))
           (select : option (list string)) : state world_t :=
  mkState [] [] (Some "modifiers.yml") (Some [("PE32", items)]) select [] [].

(** *** Scenarios *)

Definition kw : pydict := [("executable", Modifiers.exe_value pe32)].

(** An item that works, one whose expression divides by zero, and a
    third one that works. *)
Definition good_a : string * pydict := ("A", item "A" (VStr "keep") VNone).
Definition bad_i : string * pydict := ("I", item "I" (VStr "1 / 0") VNone).
Definition good_b : string * pydict := ("B", item "B" (VStr "keep") VNone).
Definition iso_items : list (string * pydict) := [good_a; bad_i; good_b].
Definition iso_s : state world_t := loaded iso_items None.
Definition iso_s1 : state world_t :=
  snd (Modifiers.apply_items pe32 iso_items [good_a] VNone iso_s).
Definition iso_d : pydict :=
  match fst (Modifiers.item_context pe32 iso_items parsed iso_s1) with
  | Ok d => d
  | Raise _ => []
  end.
Definition iso_s1' : state world_t :=
  snd (Modifiers.item_context pe32 iso_items parsed iso_s1).
Definition iso_s2 : state world_t :=
  snd (Modifiers.modifier_call (snd bad_i) iso_d parsed kw iso_s1').

(** An item whose expression uses a forbidden construct, followed by one
    that works. *)
Definition forbidden_a : string * pydict :=
  ("A", item "A" (VStr "__import__('os')") VNone).
Definition sec_items : list (string * pydict) := [forbidden_a; good_b].
Definition sec_s : state world_t := loaded sec_items None.
Definition sec_d : pydict :=
  match fst (Modifiers.item_context pe32 sec_items VNone sec_s) with
  | Ok d => d
  | Raise _ => []
  end.
Definition sec_s1 : state world_t :=
  snd (Modifiers.item_context pe32 sec_items VNone sec_s).

(** An item whose function returns nothing, and one that is asked to
    loop zero times. *)
Definition quiet_a : string * pydict := ("A", item "A" (VStr "none") VNone).
Definition idle_a : string * pydict := ("A", item "A" (VStr "keep") (VInt 0)).

(** A feature configuration in the manner of the example given in
    [load_yaml_config]: features are kept, except those whose name starts
    with [entropy] or with [is_]. *)
Definition keep_cfg : pydict :=
  [("defaults",
    VDict [("keep", VDict [("match", VList [VStr "^entropy"; VStr "^is_"]);
                           ("value", VBool false)])]);
   ("entropy", VDict [("result", VStr "e")]);
   ("is_pe", VDict [("result", VStr "p")]);
   ("size", VDict [("result", VStr "s")]);
   ("is_forced", VDict [("result", VStr "f"); ("keep", VBool true)])].

(** A definitions file with the two working modifiers, and the registry
    that an instance of identity 0 builds from it. *)
Definition ab_yaml : pyval :=
  VDict [("A", VDict [("result", VStr "keep")]);
         ("B", VDict [("result", VStr "keep")])].


(** A definitions file with one modifier whose [result] gives an
    expression for the format PE32, one for the class PE and one for
    [All]. *)
Definition pe_yaml : pyval :=
  VDict [("defaults", VDict [("apply", VBool true)]);
         ("A", VDict [("result", VDict [("PE32", VStr "keep");
                                        ("PE", VStr "none");
                                        ("All", VStr "fail")])])].

(** The same, without an expression for [All]. *)
Definition pe_yaml' : pyval :=
  VDict [("A", VDict [("result", VDict [("PE32", VStr "keep");
                                        ("PE", VStr "none")])])].

End Sample.

(** ** Further cases *)

Module Cases.
Import Sample.

(** [x > y] on integers; other values are taken not to be ordered. *)
Definition int_gt (x y : pyval) : res bool :=
  match x, y with
  | VInt a, VInt b => Ok (b <? a)%Z
  | _, _ => Raise (TypeError "'>' not supported between instances")
  end.

(** The order that [int_gt] computes. *)
Definition int_above (x y : pyval) : bool :=
  match x, y with
  | VInt a, VInt b => (b <? a)%Z
  | _, _ => false
  end.

(** A list with missing entries. *)
Definition some_values : list pyval :=
  [VNone; VInt 3; VInt 7; VNone; VInt 5].

(** The first element of the random list that is not excluded, in place
    of a random one. *)
Definition first_choice (rlst exc : list string) : option string :=
  find (fun x => negb (existsb (fun y => String.eqb y x) exc)) rlst.

(** A definitions file with one modifier for the format PE32 only. *)
Definition pe32_only_yaml : pyval :=
  VDict [("A", VDict [("result", VDict [("PE32", VStr "keep")])])].

(** Items that are defined but not applied by default. *)
Definition off_a : string * pydict :=
  ("A", [("name", VStr "A"); ("description", VStr "");
         ("result", VStr "keep"); ("apply", VBool false); ("loop", VNone);
         ("grid", VNone); ("parent", VObj 0)]).

(** An item whose [result] is a chain of two expressions. *)
Definition chain_l : string * pydict :=
  ("L", item "L" (VList [VStr "keep"; VStr "keep"]) VNone).

(** An item whose function raises, and the context it is called in. *)
Definition fail_f : pydict := item "F" (VStr "fail") VNone.
Definition fail_data : pydict := [("fail", f_fail)].

(** An item whose expression uses a name that is not bound. *)
Definition lost_n : pydict := item "N" (VStr "entropy") VNone.

(** A configuration with plain defaults. *)
Definition plain_cfg : pydict :=
  [("defaults", VDict [("keep", VBool true); ("source", VStr "here")]);
   ("a", VDict [("result", VStr "e")]);
   ("b", VDict [("result", VStr "f"); ("keep", VBool false)])].

(** Defaults that come from the enclosing folders. *)
Definition inherited_defaults : pydict :=
  [("source", VStr "above"); ("author", VStr "me")].

(** A configuration whose defaults set a parameter that the caller does
    not allow. *)
Definition steps_cfg : pydict :=
  [("defaults", VDict [("keep", VBool true); ("steps", VList [])]);
   ("a", VDict [("result", VStr "e")])].

(** A configuration to merge into. *)
Definition base_cfg : pydict :=
  [("upx", VDict [("formats", VList [VStr "PE"; VStr "ELF"])]);
   ("tags", VList [VStr "x"; VStr "y"])].

(** A template with an attribute and a plain entry, next to a declared
    variant that has the name of one of its tuples. *)
Definition tpl_variants : pydict :=
  [("_template", VDict [("_n", VList [VInt 1; VInt 2]);
                        ("level", VStr "low")]);
   ("T-2", VDict [("level", VStr "high")]);
   ("other", VDict [("n", VInt 9)])].

(** A definitions file in which the parameters of a modifier are not a
    mapping. *)
Definition broken_yaml : pyval := VDict [("A", VStr "oops")].

(** A feature configuration whose default [source] is given by patterns,
    with a value that is not boolean. *)
Definition source_cfg : pydict :=
  [("defaults",
    VDict [("source", VDict [("match", VList [VStr "^entropy"; VStr "^is_"]);
                             ("value", VStr "derived")])]);
   ("entropy", VDict [("result", VStr "e")]);
   ("is_pe", VDict [("result", VStr "p")]);
   ("size", VDict [("result", VStr "s")]);
   ("is_forced", VDict [("result", VStr "f"); ("source", VStr "own")])].

(** The same chain, asked to loop zero times. *)
Definition chain_idle : string * pydict :=
  ("L", item "L" (VList [VStr "keep"; VStr "keep"]) (VInt 0)).

(** A class of the metaclass [MetaBase] whose registry is built, and the
    path that the configuration gives for it. *)
Definition meta_built : MetaBase.cls (list string) :=
  MetaBase.mkCls (Some "features.yml") (Some ["entropy"]).
Definition meta_config : res string := Ok "features.yml".

End Cases.

(** * Properties *)

(** ** Lists and dictionaries *)

Module PyFacts.

Lemma list_remove_perm {A} (eqb : A -> A -> bool) (x : A) (l l' : list A) :
  (forall a b, eqb a b = true -> a = b) ->
  list_remove eqb x l = Some l' -> l ≡ₚ x :: l'.
Proof.
  intros Hbl. revert l'.
  induction l as [|y l IH]; intros l' Hr; simpl in Hr; [discriminate|].
  destruct (eqb x y) eqn:E.
  - apply Hbl in E. injection Hr as <-. now subst.
  - destruct (list_remove eqb x l) as [l0|]; simpl in Hr; [|discriminate].
    injection Hr as <-. rewrite (IH l0 eq_refl). apply Permutation_swap.
Qed.

Lemma list_remove_is_Some {A} (eqb : A -> A -> bool) (x : A) (l : list A) :
  (forall a, eqb a a = true) ->
  x ∈ l -> is_Some (list_remove eqb x l).
Proof.
  intros Hrefl. induction l as [|y l IH]; intros Hin.
  - now apply elem_of_nil in Hin.
  - simpl. destruct (eqb x y) eqn:E; [eauto|].
    apply elem_of_cons in Hin as [->|Hin].
    + rewrite Hrefl in E. discriminate.
    + destruct (IH Hin) as [l' ->]. simpl. eauto.
Qed.


Lemma str_in_spec (x : string) (l : list string) :
  str_in x l = true <-> x ∈ l.
Proof.
  unfold str_in. rewrite existsb_exists. split.
  - intros (y & Hy & E). apply String.eqb_eq in E. subst.
    now apply list_elem_of_In.
  - intros Hin. exists x. split; [now apply list_elem_of_In|].
    apply String.eqb_refl.
Qed.

(** *** Lookups after dictionary updates *)
Section DictFacts.
Context {V : Type}.
Implicit Types (d : list (string * V)) (k : string) (v : V).

Lemma dict_get_None k d : dict_get k d = None <-> k ∉ dict_keys d.
Proof.
  induction d as [|[k' v'] d IH]; simpl.
  - split; [intros _; apply not_elem_of_nil | reflexivity].
  - rewrite not_elem_of_cons. destruct (String.eqb_spec k k') as [->|Hne].
    + split; [discriminate | intros [Hk _]; congruence].
    + rewrite IH. tauto.
Qed.

Lemma dict_get_set k k' v d :
  dict_get k (dict_set k' v d)
  = if String.eqb k k' then Some v else dict_get k d.
Proof.
  induction d as [|[k0 v0] d IH]; simpl.
  - reflexivity.
  - destruct (String.eqb_spec k' k0) as [->|Hne]; simpl.
    + now destruct (String.eqb k k0).
    + destruct (String.eqb_spec k k0) as [->|Hne'].
      * destruct (String.eqb_spec k0 k'); [congruence | reflexivity].
      * exact IH.
Qed.

Lemma dict_get_app k d d' :
  dict_get k (d ++ d')
  = match dict_get k d with Some x => Some x | None => dict_get k d' end.
Proof.
  induction d as [|[k0 v0] d IH]; simpl; [reflexivity|].
  now destruct (String.eqb k k0).
Qed.

Lemma dict_get_setdefault k k' v d :
  dict_get k (dict_setdefault k' v d)
  = match dict_get k d with
    | Some x => Some x
    | None => if String.eqb k k' then Some v else None
    end.
Proof.
  unfold dict_setdefault, dict_mem.
  destruct (dict_get k' d) eqn:E.
  - destruct (dict_get k d) eqn:E'; [reflexivity|].
    destruct (String.eqb_spec k k') as [->|]; congruence.
  - rewrite dict_get_app. simpl. now destruct (dict_get k d).
Qed.

Lemma dict_get_pop_ne k k' d :
  k <> k' -> dict_get k (dict_pop k' d) = dict_get k d.
Proof.
  intros Hne. induction d as [|[k0 v0] d IH]; simpl; [reflexivity|].
  destruct (String.eqb_spec k' k0) as [->|Hne0]; simpl.
  - destruct (String.eqb_spec k k0); [congruence | reflexivity].
  - now rewrite IH.
Qed.

Lemma dict_keys_pop_sublist k d :
  dict_keys (dict_pop k d) `sublist_of` dict_keys d.
Proof.
  induction d as [|[k0 v0] d IH]; simpl; [constructor|].
  destruct (String.eqb k k0); simpl.
  - now constructor.
  - now constructor.
Qed.

Lemma dict_pop_NoDup k d :
  NoDup (dict_keys d) -> NoDup (dict_keys (dict_pop k d)).
Proof.
  intros Hnd. eapply sublist_NoDup; [exact Hnd | apply dict_keys_pop_sublist].
Qed.

Lemma dict_get_middle k v (l1 l2 : list (string * V)) :
  k ∉ dict_keys l1 -> dict_get k (l1 ++ (k, v) :: l2) = Some v.
Proof.
  intros Hk. apply dict_get_None in Hk.
  rewrite dict_get_app, Hk. simpl. now rewrite String.eqb_refl.
Qed.

Lemma dict_set_middle k v v' (l1 l2 : list (string * V)) :
  k ∉ dict_keys l1 ->
  dict_set k v' (l1 ++ (k, v) :: l2) = l1 ++ (k, v') :: l2.
Proof.
  induction l1 as [|[k0 v0] l1 IH]; intros Hk; simpl.
  - now rewrite String.eqb_refl.
  - simpl in Hk. apply not_elem_of_cons in Hk as [Hne Hk].
    destruct (String.eqb_spec k k0); [congruence|]. now rewrite IH.
Qed.

Lemma dict_setdefault_twice k v v' d :
  dict_setdefault k v' (dict_setdefault k v d) = dict_setdefault k v d.
Proof.
  unfold dict_setdefault at 1. unfold dict_mem.
  rewrite dict_get_setdefault, String.eqb_refl.
  now destruct (dict_get k d).
Qed.

Lemma dict_mem_keys k d : dict_mem k d = str_in k (dict_keys d).
Proof.
  unfold dict_mem, str_in.
  induction d as [|[k0 v0] d IH]; simpl; [reflexivity|].
  now destruct (String.eqb k k0).
Qed.

Lemma dict_keys_set_mem k v d :
  dict_mem k d = true -> dict_keys (dict_set k v d) = dict_keys d.
Proof.
  unfold dict_mem.
  induction d as [|[k0 v0] d IH]; simpl; [discriminate|].
  destruct (String.eqb_spec k k0) as [->|Hne]; simpl; [reflexivity|].
  intros Hk. now rewrite IH.
Qed.

Lemma dict_pop_set_eq k v d : dict_pop k (dict_set k v d) = dict_pop k d.
Proof.
  induction d as [|[k0 v0] d IH]; simpl.
  - now rewrite String.eqb_refl.
  - destruct (String.eqb_spec k k0) as [->|Hne]; simpl.
    + now rewrite String.eqb_refl.
    + destruct (String.eqb_spec k k0); [congruence|]. now rewrite IH.
Qed.

Lemma dict_pop_set_ne k k' v d :
  k <> k' -> dict_pop k (dict_set k' v d) = dict_set k' v (dict_pop k d).
Proof.
  intros Hne. induction d as [|[k0 v0] d IH]; simpl.
  - destruct (String.eqb_spec k k'); [congruence | reflexivity].
  - destruct (String.eqb_spec k' k0) as [->|Hne0]; simpl.
    + destruct (String.eqb_spec k k0); [congruence|]. simpl.
      now rewrite String.eqb_refl.
    + destruct (String.eqb_spec k k0) as [->|Hne1]; [reflexivity|].
      simpl. destruct (String.eqb_spec k' k0); [congruence|].
      now rewrite IH.
Qed.

(** With unique keys, an update lets the new bindings win. *)
Lemma dict_get_update k d d2 :
  NoDup (dict_keys d2) ->
  dict_get k (dict_update d d2)
  = match dict_get k d2 with Some x => Some x | None => dict_get k d end.
Proof.
  unfold dict_update. revert d.
  induction d2 as [|[k0 v0] d2 IH]; intros d Hnd; simpl; [reflexivity|].
  simpl in Hnd. apply NoDup_cons in Hnd as [Hk0 Hnd].
  rewrite (IH _ Hnd), dict_get_set.
  destruct (String.eqb_spec k k0) as [->|Hne]; [|reflexivity].
  apply dict_get_None in Hk0. now rewrite Hk0.
Qed.

Lemma dict_get_fold_setdefault k (fields : list (string * V)) d :
  is_Some (dict_get k d) ->
  dict_get k (fold_left (fun acc fv => dict_setdefault (fst fv) (snd fv) acc)
                        fields d)
  = dict_get k d.
Proof.
  revert d. induction fields as [|[f v] fields IH]; intros d Hd; simpl.
  - reflexivity.
  - rewrite IH; rewrite dict_get_setdefault; destruct Hd as [x ->]; eauto.
Qed.

End DictFacts.

Lemma all_mappings_get (k : string) (d : pydict) (v : pyval) :
  all_mappings d -> dict_get k d = Some v -> exists params, v = VDict params.
Proof.
  intros Hall. induction d as [|[k0 v0] d IH]; simpl; [discriminate|].
  apply Forall_cons in Hall as [Hv0 Hall].
  destruct (String.eqb k k0); [intros [= <-]; exact Hv0 | now apply IH].
Qed.

Lemma all_mappings_set (k : string) (params d : pydict) :
  all_mappings d -> all_mappings (dict_set k (VDict params) d).
Proof.
  intros Hall. induction d as [|[k0 v0] d IH]; simpl.
  - repeat constructor. simpl. eauto.
  - apply Forall_cons in Hall as [Hv0 Hall].
    destruct (String.eqb k k0); constructor; simpl; eauto.
    now apply IH.
Qed.

End PyFacts.

(** ** [_randbytes] *)

Module RandBytesFacts.
Import RandBytes PyFacts.

Lemma choice_elem {A} (rnd : nat -> nat) (i : nat) (l : list A) :
  l <> [] -> exists c, choice rnd i l = Ok c /\ c ∈ l.
Proof.
  intros Hne. unfold choice. destruct l as [|a l]; [congruence|].
  set (l0 := a :: l).
  assert (Hlt : rnd i mod length l0 < length l0)
    by (apply Nat.mod_upper_bound; discriminate).
  destruct (nth_error l0 (rnd i mod length l0)) as [c|] eqn:E.
  - exists c. split; [reflexivity|].
    apply list_elem_of_In. eapply nth_error_In, E.
  - apply nth_error_None in E. lia.
Qed.

Lemma alphabet256_NoDup : NoDup alphabet256.
Proof.
  apply (NoDup_fmap_1 Byte.to_nat).
  assert (E : Byte.to_nat <$> alphabet256 = seq 0 256)
    by (vm_compute; reflexivity).
  rewrite E. apply NoDup_seq.
Qed.

(** The loop keeps the bytes drawn so far distinct from each other and
    from what is left of the alphabet, so it can run for as many rounds
    as the alphabet has bytes. *)
Lemma pick_spec (rnd : nat -> nat) (k : nat) :
  forall (i : nat) (s alphabet : list byte),
    NoDup (s ++ alphabet) -> k <= length alphabet ->
    exists s', pick rnd k i s alphabet = Ok s'
               /\ length s' = length s + k /\ NoDup s'.
Proof.
  induction k as [|k IH]; intros i s alphabet Hnd Hk; simpl.
  - exists s. rewrite Nat.add_0_r. split; [reflexivity|]. split; [reflexivity|].
    apply NoDup_app in Hnd. tauto.
  - destruct (choice_elem rnd i alphabet) as (c & -> & Hc).
    { intros ->. simpl in Hk. lia. }
    destruct (list_remove_is_Some Byte.eqb c alphabet) as [a' Ha'];
      [intros a; now apply Byte.byte_dec_lb | exact Hc |].
    rewrite Ha'.
    apply list_remove_perm in Ha'; [|apply Byte.byte_dec_bl].
    destruct (IH (S i) (s ++ [c]) a') as (s' & Hs' & Hlen & Hnd').
    + rewrite <- app_assoc. simpl. now rewrite <- Ha'.
    + apply Permutation_length in Ha'. simpl in Ha'. lia.
    + exists s'. split; [exact Hs'|]. split; [|exact Hnd'].
      rewrite Hlen, length_app. simpl. lia.
Qed.

(** C9.  Asked for [n] bytes without repetition, [_randbytes] returns [n]
    pairwise distinct bytes when [n] is at most 256, whatever the random
    generator draws, and raises [ValueError] without returning anything
    when [n] exceeds 256. *)
Theorem randbytes_unique (rnd : nat -> nat) (n : Z) :
  (0 <= n <= 256 ->
   exists s, _randbytes rnd n true = Ok s
             /\ Z.of_nat (length s) = n /\ NoDup s)%Z
  /\ (256 < n ->
      _randbytes rnd n true
      = Raise (ValueError "Cannot produce more than 256 distinct bytes"))%Z.
Proof.
  unfold _randbytes. simpl. split; intros Hn.
  - destruct (Z.gtb_spec n 256) as [Hgt|_]; [lia|].
    destruct (pick_spec rnd (Z.to_nat n) 0 [] alphabet256)
      as (s & Hs & Hlen & Hnd).
    + apply alphabet256_NoDup.
    + change (length alphabet256) with 256. lia.
    + exists s. split; [exact Hs|]. split; [|exact Hnd].
      rewrite Hlen. simpl. lia.
  - destruct (Z.gtb_spec n 256) as [_|Hle]; [reflexivity|lia].
Qed.

Lemma randbytes_unique_witness :
  (exists s, _randbytes (fun i => 7 * i + 3) 5 true = Ok s
             /\ Z.of_nat (length s) = 5%Z /\ NoDup s)
  /\ _randbytes (fun i => 7 * i + 3) 300 true
     = Raise (ValueError "Cannot produce more than 256 distinct bytes").
Proof.
  split.
  - apply (randbytes_unique (fun i => 7 * i + 3) 5). lia.
  - apply (randbytes_unique (fun i => 7 * i + 3) 300). lia.
Defined.

(** The bytes drawn on a concrete run. *)
Example randbytes_run :
  _randbytes (fun i => 7 * i + 3) 5 true
  = Ok [x03; x0b; x13; x1b; x23].
Proof. vm_compute. reflexivity. Qed.

End RandBytesFacts.

(** ** [dict2] *)

Module Dict2Facts.
Import PyFacts.

Section Init.
Context {W : Type} `{Host W}.

Lemma dict2_init_lookup (fields idict kwargs : pydict) (k : string) :
  NoDup (dict_keys idict) -> NoDup (dict_keys kwargs) ->
  k = "name" \/ k = "result" ->
  dict_get k
    (dict_update
       (dict_update
          (fold_left (fun acc fv => dict_setdefault (fst fv) (snd fv) acc)
             fields
             [("name", VStr UNDEF_RESULT); ("description", VStr "");
              ("result", VStr UNDEF_RESULT)])
          (dict_pop "logger" idict))
       (dict_pop "logger" kwargs))
  = Some (match resolved k idict kwargs with
          | Some v => v
          | None => VStr UNDEF_RESULT
          end).
Proof.
  intros Hi Hk Hkey. unfold resolved.
  rewrite !dict_get_update by now apply dict_pop_NoDup.
  rewrite !dict_get_pop_ne by (destruct Hkey; subst; discriminate).
  destruct (dict_get k kwargs); [reflexivity|].
  destruct (dict_get k idict); [reflexivity|].
  rewrite dict_get_fold_setdefault; destruct Hkey; subst; simpl; eauto.
Qed.

(** C7, as the code has it.  Construction fails exactly when [result]
    resolves to the sentinel [UNDEF_RESULT], that is when neither the
    mapping nor the keyword arguments define it, or when one of them
    sets it to the sentinel.  The error names the item.  Every other
    value is accepted as it is, an empty one included. *)
Theorem dict2_init_result (fields idict kwargs : pydict) :
  NoDup (dict_keys idict) -> NoDup (dict_keys kwargs) ->
  let result := match resolved "result" idict kwargs with
                | Some v => v
                | None => VStr UNDEF_RESULT
                end in
  let name := match resolved "name" idict kwargs with
              | Some v => v
              | None => VStr UNDEF_RESULT
              end in
  (is_undef result = true ->
   dict2_init fields idict kwargs
   = Raise (ValueError (py_str name ++ ": 'result' shall be defined")))
  /\ (is_undef result = false ->
      exists self, dict2_init fields idict kwargs = Ok self
                   /\ dict_get "result" self = Some result
                   /\ dict_get "name" self = Some name).
Proof.
  intros Hi Hk result name.
  pose proof (dict2_init_lookup fields idict kwargs "result" Hi Hk
                (or_intror eq_refl)) as Hres.
  pose proof (dict2_init_lookup fields idict kwargs "name" Hi Hk
                (or_introl eq_refl)) as Hname.
  fold result in Hres. fold name in Hname.
  unfold dict2_init.
  change (dict_setdefault "result" _ _)
    with [("name", VStr UNDEF_RESULT); ("description", VStr "");
          ("result", VStr UNDEF_RESULT)].
  split; intros Hu.
  - rewrite Hres, Hname, Hu. reflexivity.
  - rewrite Hres, Hu. eexists. split; [reflexivity|]. now split.
Qed.

End Init.

Lemma dict2_init_result_witness :
  dict2_init (H := Sample.host) Modifiers._fields
    [("description", VStr "renames a section")] [("name", VStr "A")]
  = Raise (ValueError "A: 'result' shall be defined")
  /\ exists self,
       dict2_init (H := Sample.host) Modifiers._fields
         [("result", VStr "keep")] [("name", VStr "B")] = Ok self
       /\ dict_get "result" self = Some (VStr "keep")
       /\ dict_get "name" self = Some (VStr "B").
Proof.
  split.
  - apply (dict2_init_result (H := Sample.host) Modifiers._fields
             [("description", VStr "renames a section")] [("name", VStr "A")]).
    + apply (bool_decide_unpack _); vm_compute; exact I.
    + apply (bool_decide_unpack _); vm_compute; exact I.
    + reflexivity.
  - apply (dict2_init_result (H := Sample.host) Modifiers._fields
             [("result", VStr "keep")] [("name", VStr "B")]).
    + apply (bool_decide_unpack _); vm_compute; exact I.
    + apply (bool_decide_unpack _); vm_compute; exact I.
    + reflexivity.
Defined.

(** C7, as stated, fails: a mapping whose [result] is the empty string (or
    [None], or an empty list) does not resolve [result] to a non-empty
    value, yet the item is constructed. *)
Lemma dict2_init_accepts_empty_result :
  truthy (VStr "") = false
  /\ dict2_init (H := Sample.host) Modifiers._fields
       [("name", VStr "A"); ("result", VStr "")] []
     = Ok [("name", VStr "A"); ("description", VStr "");
           ("result", VStr ""); ("apply", VBool true); ("loop", VNone);
           ("grid", VNone)]
  /\ is_ok (dict2_init (H := Sample.host) Modifiers._fields
              [("name", VStr "A"); ("result", VNone)] []) = true
  /\ is_ok (dict2_init (H := Sample.host) Modifiers._fields
              [("name", VStr "A"); ("result", VList [])] []) = true.
Proof. repeat split; reflexivity. Qed.

End Dict2Facts.

(** ** Frame rules of the monad *)

Module EffFacts.

Section Preserves.
Context {S : Type} (R : S -> S -> Prop) `{!PreOrder R}.

Lemma preserves_ret {A} (a : A) : preserves R (Eff.ret a).
Proof. intros s r s' [= _ <-]. reflexivity. Qed.

Lemma preserves_mret {A} (a : A) : preserves R (mret a : M S A).
Proof. apply preserves_ret. Qed.

Lemma preserves_raise {A} (e : exn) : preserves R (raise e : M S A).
Proof. intros s r s' [= _ <-]. reflexivity. Qed.

Lemma preserves_get : preserves R (get : M S S).
Proof. intros s r s' [= _ <-]. reflexivity. Qed.

Lemma preserves_of_option {A} (o : option A) (e : exn) :
  preserves R (of_option o e : M S A).
Proof. destruct o; [apply preserves_ret | apply preserves_raise]. Qed.

Lemma preserves_modify (f : S -> S) :
  (forall s, R s (f s)) -> preserves R (modify f).
Proof. intros Hf s r s' [= _ <-]. apply Hf. Qed.

Lemma preserves_bind {A B} (m : M S A) (f : A -> M S B) :
  preserves R m -> (forall a, preserves R (f a)) ->
  preserves R (m ≫= f).
Proof.
  intros Hm Hf s r s'. unfold mbind, M_bind, bind.
  destruct (m s) as [[a|e] s1] eqn:E; intros Hr.
  - transitivity s1; [eapply Hm, E | eapply Hf, Hr].
  - injection Hr as _ <-. eapply Hm, E.
Qed.

Lemma preserves_try_except {A} (m : M S A) (h : exn -> M S A) :
  preserves R m -> (forall e, preserves R (h e)) ->
  preserves R (try_except m h).
Proof.
  intros Hm Hh s r s'. unfold try_except.
  destruct (m s) as [[a|e] s1] eqn:E; intros Hr.
  - injection Hr as _ <-. eapply Hm, E.
  - transitivity s1; [eapply Hm, E | eapply Hh, Hr].
Qed.

Lemma preserves_for_each {A} (l : list A) (body : A -> M S unit) :
  (forall x, preserves R (body x)) -> preserves R (for_each l body).
Proof.
  intros Hb. induction l as [|x l IH]; simpl.
  - apply preserves_ret.
  - apply (preserves_bind (body x)); [apply Hb | intros _; exact IH].
Qed.

Lemma preserves_for_each_in {A} (l : list A) (body : A -> M S unit) :
  (forall x, x ∈ l -> preserves R (body x)) -> preserves R (for_each l body).
Proof.
  induction l as [|x l IH]; intros Hb; simpl.
  - apply preserves_ret.
  - apply (preserves_bind (body x)); [apply Hb; left | intros _].
    apply IH. intros y Hy. apply Hb. now right.
Qed.

Lemma for_each_app {A} (l1 l2 : list A) (body : A -> M S unit) (s : S) :
  for_each (l1 ++ l2) body s
  = (for_each l1 body ≫= fun _ => for_each l2 body) s.
Proof.
  revert s. induction l1 as [|x l1 IH]; intros s; simpl.
  - reflexivity.
  - unfold mbind, M_bind, bind in *. destruct (body x s) as [[[]|e] s1].
    + apply IH.
    + reflexivity.
Qed.

Lemma preserves_map_m {A B} (f : A -> M S B) (l : list A) :
  (forall x, preserves R (f x)) -> preserves R (map_m f l).
Proof.
  intros Hf. induction l as [|x l IH]; simpl.
  - apply preserves_ret.
  - apply preserves_bind; [apply Hf | intros y].
    apply preserves_bind; [exact IH | intros ys; apply preserves_ret].
Qed.

End Preserves.

Section Related.
Context {S : Type} (R : S -> S -> Prop).

Lemma related_ret {A} (a : A) : related R (mret a : M S A) (mret a).
Proof. intros s t Hst. now split. Qed.

Lemma related_raise {A} (e : exn) : related R (raise e : M S A) (raise e).
Proof. intros s t Hst. now split. Qed.

Lemma related_bind {A B} (m1 m2 : M S A) (f1 f2 : A -> M S B) :
  related R m1 m2 -> (forall a, related R (f1 a) (f2 a)) ->
  related R (m1 ≫= f1) (m2 ≫= f2).
Proof.
  intros Hm Hf s t Hst. unfold mbind, M_bind, bind.
  destruct (Hm s t Hst) as [Hr Hs].
  destruct (m1 s) as [[a1|e1] s1], (m2 t) as [[a2|e2] t1]; simpl in *;
    try discriminate.
  - injection Hr as <-. now apply Hf.
  - injection Hr as ->. split; [reflexivity | exact Hs].
Qed.

Lemma related_for_each {A} (l : list A) (body1 body2 : A -> M S unit) :
  (forall x, related R (body1 x) (body2 x)) ->
  related R (for_each l body1) (for_each l body2).
Proof.
  intros Hb. induction l as [|x l IH]; simpl.
  - apply (related_ret tt).
  - apply (related_bind (body1 x) (body2 x)); [apply Hb | intros _; exact IH].
Qed.

Lemma related_modify (f1 f2 : S -> S) :
  (forall s t, R s t -> R (f1 s) (f2 t)) ->
  related R (modify f1) (modify f2).
Proof. intros Hf s t Hst. split; [reflexivity | now apply Hf]. Qed.

End Related.

#[global] Instance keeps_preorder {S X} (proj : S -> X) : PreOrder (keeps proj).
Proof.
  split.
  - intros s. reflexivity.
  - intros s1 s2 s3 H12 H23. unfold keeps in *. congruence.
Qed.

Section State.
Context {W : Type}.

Lemma preserves_host {A X} (proj : state W -> X) (f : W -> res A * W) :
  silent_proj proj -> preserves (keeps proj) (host f).
Proof.
  intros [Hw _] s r s'. unfold host.
  destruct (f (world s)) as [r0 w]. intros [= _ <-]. apply Hw.
Qed.

Lemma preserves_emit {X} (proj : state W -> X) lv msg :
  silent_proj proj -> preserves (keeps proj) (emit lv msg).
Proof. intros [_ Hl]. apply preserves_modify. intros s. apply Hl. Qed.

Lemma silent_applied : silent_proj (W := W) applied.
Proof. now split. Qed.
Lemma silent_select : silent_proj (W := W) select_obj.
Proof. now split. Qed.
Lemma silent_registry : silent_proj (W := W) cls_registry.
Proof. now split. Qed.
Lemma silent_source : silent_proj (W := W) cls_source.
Proof. now split. Qed.
Lemma silent_trace : silent_proj (W := W) trace.
Proof. now split. Qed.

End State.

End EffFacts.

(** ** The modifier pipeline *)

Module ModifiersFacts.
Import PyFacts EffFacts Modifiers.

(** Splits a frame goal along the structure of the program. *)
Ltac frame_using known :=
  repeat first
    [ known
    | apply preserves_mret; apply _
    | apply preserves_ret; apply _
    | apply preserves_raise; apply _
    | apply preserves_get; apply _
    | apply preserves_of_option; apply _
    | apply preserves_host; assumption
    | apply preserves_emit; assumption
    | apply preserves_bind; try apply _; [| intros ?]
    | apply preserves_try_except; try apply _; [| intros ?]
    | apply preserves_for_each; try apply _; intros ?
    | apply preserves_map_m; try apply _; intros ?
    | match goal with
      | |- preserves _ (match ?x with _ => _ end) => destruct x
      end ].

Ltac frame := frame_using fail.

Section Frames.
Context {W : Type} `{Host W}.
Context {X : Type} (proj : state W -> X) (Hproj : silent_proj proj).

Lemma exec_keeps silent kwargs d expr :
  preserves (keeps proj) (_exec silent kwargs d expr).
Proof. unfold _exec, on_eval_error, on_call_error. frame. Qed.

Lemma dict2_call_keeps cls multi self data silent kwargs :
  preserves (keeps proj) (dict2_call cls multi self data silent kwargs).
Proof.
  unfold dict2_call. frame_using ltac:(apply exec_keeps).
Qed.

Lemma iterate_keeps n f :
  (forall p, preserves (keeps proj) (f p)) ->
  forall p, preserves (keeps proj) (iterate n f p).
Proof.
  intros Hf. induction n as [|n IH]; intros p; simpl;
    frame_using ltac:(first [apply Hf | apply IH]).
Qed.

Lemma modifier_call_keeps self d parser kw :
  preserves (keeps proj) (modifier_call self d parser kw).
Proof.
  unfold modifier_call.
  frame_using ltac:(first [ apply dict2_call_keeps
                          | apply iterate_keeps; intros ? ]).
Qed.

End Frames.

(** Exposes the state passing behind the monadic notation. *)
Ltac unfold_m :=
  cbv beta iota zeta
      delta [mbind M_bind bind try_except mret M_ret ret raise get
             of_option modify] in *.

Section Pipeline.
Context {W : Type} `{Host W}.
Implicit Types (s : state W) (exe : executable).

Lemma builds_snoc (t : list event) (ev : event) :
  builds (t ++ [ev])
  = builds t + match ev with EvBuild _ => 1 | EvParse _ => 0 end.
Proof.
  unfold builds. rewrite List.filter_app, length_app.
  destruct ev; simpl; lia.
Qed.

(** The selection test and the registry lookup only read the state. *)
Lemma skipped_state name modifier s : snd (skipped name modifier s) = s.
Proof.
  unfold skipped. unfold_m.
  destruct (select_obj s); [reflexivity|].
  now destruct (dict_get "apply" modifier).
Qed.

Lemma registry_for_state (exe : option executable) s :
  snd (registry_for exe s) = s.
Proof.
  unfold registry_for. unfold_m.
  destruct exe as [e|]; [|reflexivity]. simpl.
  destruct (cls_registry s) as [reg|]; [|reflexivity].
  destruct (dict_get (format e) reg); reflexivity.
Qed.

Lemma registry_for_loaded exe s reg items :
  cls_registry s = Some reg -> dict_get (format exe) reg = Some items ->
  registry_for (Some exe) s = (Ok items, s).
Proof.
  intros Hreg Hitems. unfold registry_for. unfold_m. simpl.
  now rewrite Hreg, Hitems.
Qed.

(** *** What the application loop leaves alone *)

Lemma item_context_keeps {X} (proj : state W -> X) exe items parser :
  parse_proj proj -> preserves (keeps proj) (item_context exe items parser).
Proof.
  intros [Hs Hp]. unfold item_context, record.
  frame_using ltac:(apply preserves_modify; try apply _; intros ?; apply Hp).
Qed.

Lemma apply_item_keeps {X} (proj : state W -> X) exe items parser item :
  parse_proj proj -> (forall l s, proj (set_applied l s) = proj s) ->
  preserves (keeps proj) (apply_item exe items parser item).
Proof.
  intros Hp Ha. pose proof Hp as [Hs _].
  unfold apply_item, skipped, append_applied. destruct item as [name modifier].
  frame_using ltac:(first
    [ apply item_context_keeps; assumption
    | apply modifier_call_keeps; assumption
    | apply preserves_modify; try apply _; intros ?; apply Ha ]).
Qed.

Lemma apply_items_keeps {X} (proj : state W -> X) exe items todo :
  parse_proj proj -> (forall l s, proj (set_applied l s) = proj s) ->
  forall parser, preserves (keeps proj) (apply_items exe items todo parser).
Proof.
  intros Hp Ha. induction todo as [|item todo IH]; intros parser; simpl.
  - frame.
  - frame_using ltac:(first [apply apply_item_keeps; assumption | apply IH]).
Qed.

Lemma parse_select : parse_proj (W := W) select_obj.
Proof. repeat split. Qed.
Lemma parse_registry : parse_proj (W := W) cls_registry.
Proof. repeat split. Qed.
Lemma parse_applied : parse_proj (W := W) applied.
Proof. repeat split. Qed.
Lemma parse_builds : parse_proj (W := W) (fun s => builds (trace s)).
Proof.
  repeat split. intros p s. simpl. rewrite builds_snoc. simpl. lia.
Qed.

End Pipeline.

Section Evaluator.
Context {W : Type} `{Host W}.
Implicit Types (s : state W).

(** A forbidden node leaves [_exec] as the error it is, after two log
    lines, whatever [silent] says. *)
Lemma exec_forbidden silent kwargs d expr s msg w :
  eval2 expr (dict_pop "__builtins__" d) (world s)
  = (Raise (ForbiddenNodeError msg), w) ->
  _exec silent kwargs d expr s
  = (Raise (ForbiddenNodeError msg),
     logged Error msg
       (logged Warning ("Bad expression: " ++ py_str expr)
               (set_world w s))).
Proof.
  intros He. unfold _exec, on_eval_error, host, emit. unfold_m.
  rewrite He. reflexivity.
Qed.

Lemma dict2_call_single cls multi self data silent kwargs expr s :
  dict_get "result" self = Some expr -> single_expr expr ->
  parameters_ok self ->
  dict2_call cls multi self data silent kwargs s
  = _exec silent
          (match dict_get "parameters" self with
           | Some (VDict p) => dict_update kwargs p
           | _ => kwargs
           end)
          (call_context data) expr s.
Proof.
  intros Hres Hsingle Hpar. unfold dict2_call, parameters_ok in *.
  unfold_m. rewrite Hres.
  destruct (dict_get "parameters" self) as [[]|]; try contradiction;
    destruct expr; try contradiction; reflexivity.
Qed.

(** In a chain, the expressions before the offending one are evaluated
    and the rest is not. *)
Lemma map_m_raise {A B} (f : A -> M (state W) B) pre x post s ys s1 e s2 :
  map_m f pre s = (Ok ys, s1) -> f x s1 = (Raise e, s2) ->
  map_m f (pre ++ x :: post) s = (Raise e, s2).
Proof.
  revert s ys. induction pre as [|a pre IH]; intros s ys Hpre Hx; simpl in *.
  - unfold_m. injection Hpre as _ <-. now rewrite Hx.
  - unfold_m. destruct (f a s) as [[y|e0] s0]; [|discriminate].
    destruct (map_m f pre s0) as [[ys0|e0] s0'] eqn:E; [|discriminate].
    injection Hpre as _ <-. now rewrite (IH _ _ E Hx).
Qed.

(** The call of an item whose expression hits a forbidden node. *)
Lemma modifier_call_forbidden modifier loop expr d parser kw s msg w :
  dict_get "loop" modifier = Some loop -> loops_once loop ->
  dict_get "result" modifier = Some expr -> single_expr expr ->
  parameters_ok modifier ->
  eval2 expr (dict_pop "__builtins__" (call_context d)) (world s)
  = (Raise (ForbiddenNodeError msg), w) ->
  modifier_call modifier d parser kw s
  = (Raise (ForbiddenNodeError msg),
     logged Error msg
       (logged Warning ("Bad expression: " ++ py_str expr) (set_world w s))).
Proof.
  intros Hloop Honce Hres Hsingle Hpar He.
  assert (Hcall : forall kwargs,
             dict2_call "Modifier" false modifier d false kwargs s
             = (Raise (ForbiddenNodeError msg),
                logged Error msg
                  (logged Warning ("Bad expression: " ++ py_str expr)
                          (set_world w s)))).
  { intros kwargs.
    rewrite (dict2_call_single _ _ _ _ _ _ _ _ Hres Hsingle Hpar).
    now apply exec_forbidden. }
  unfold modifier_call. unfold_m. rewrite Hloop.
  destruct loop as [| b | n | | | |]; try contradiction; simpl in Honce.
  - apply Hcall.
  - subst b. simpl. unfold_m. now rewrite Hcall.
  - destruct (Z.to_nat n) as [|k] eqn:Ek; [lia|]. simpl. unfold_m.
    now rewrite Hcall.
Qed.

End Evaluator.

Section Isolation.
Context {W : Type} `{Host W}.
Implicit Types (s : state W) (exe : executable).

(** The executor's handler: an item whose call raises, for whatever
    reason, costs a warning and nothing else; the loop goes on with the
    parser it had. *)
Lemma apply_items_raise exe items name modifier rest parser s d s1 e s2 :
  fst (skipped name modifier s) = Ok false ->
  item_context exe items parser s = (Ok d, s1) ->
  modifier_call modifier d parser [("executable", exe_value exe)] s1
  = (Raise e, s2) ->
  apply_items exe items ((name, modifier) :: rest) parser s
  = apply_items exe items rest parser
                (logged Warning (name ++ ": " ++ exn_msg e) s2).
Proof.
  intros Hskip Hctx Hcall. simpl. unfold apply_item, emit.
  pose proof (skipped_state name modifier s) as Hst. unfold_m.
  destruct (skipped name modifier s) as [rk sk]. simpl in *. subst.
  rewrite Hctx, Hcall. reflexivity.
Qed.

(** One round of the loop either leaves [self] and [parser] as they are
    or appends the name of its item. *)
Lemma apply_item_applied exe items parser name modifier s r s' :
  apply_item exe items parser (name, modifier) s = (r, s') ->
  (applied s' = applied s /\ forall p, r = Ok p -> p = parser)
  \/ applied s' = applied s ++ [name].
Proof.
  unfold apply_item. intros Hrun.
  pose proof (skipped_state name modifier s) as Hst.
  unfold_m.
  destruct (skipped name modifier s) as [[[|]|e] sk]; simpl in Hst; subst.
  - injection Hrun as <- <-. left. split; [reflexivity | congruence].
  - destruct (item_context exe items parser s) as [[d|e] s1] eqn:Ectx.
    + apply (item_context_keeps applied) in Ectx; [|apply parse_applied].
      destruct (modifier_call modifier d parser _ s1) as [[p|e] s2] eqn:Ecall;
        apply (modifier_call_keeps applied) in Ecall;
        try apply silent_applied; unfold keeps in *.
      * injection Hrun as <- <-. right. simpl. congruence.
      * injection Hrun as <- <-. left. simpl.
        split; [congruence | congruence].
    + injection Hrun as <- <-.
      apply (item_context_keeps applied) in Ectx; [|apply parse_applied].
      left. split; [exact Ectx | discriminate].
  - injection Hrun as <- <-. left. split; [reflexivity | discriminate].
Qed.

Lemma apply_items_cons exe items item todo parser :
  apply_items exe items (item :: todo) parser
  = (p ← apply_item exe items parser item; apply_items exe items todo p).
Proof. reflexivity. Qed.

(** The whole loop appends a subsequence of the names it goes through,
    and changes [parser] only if it appends something. *)
Lemma apply_items_applied exe items todo :
  forall parser s r s',
    apply_items exe items todo parser s = (r, s') ->
    exists l, applied s' = applied s ++ l
              /\ l `sublist_of` dict_keys todo
              /\ (l = [] -> forall p, r = Ok p -> p = parser).
Proof.
  induction todo as [|[name modifier] todo IH]; intros parser s r s' Hrun.
  - simpl in Hrun. unfold_m. injection Hrun as <- <-. exists [].
    rewrite app_nil_r. repeat split; [constructor | congruence].
  - rewrite apply_items_cons in Hrun. unfold_m.
    destruct (apply_item exe items parser (name, modifier) s)
      as [[p1|e] s1] eqn:E1.
    + destruct (IH _ _ _ _ Hrun) as (l & Hl & Hsub & Hp).
      destruct (apply_item_applied _ _ _ _ _ _ _ _ E1) as [[Ha Hsame]|Ha].
      * exists l. split; [congruence|]. split; [now constructor|].
        intros Hnil p Hr. rewrite (Hp Hnil p Hr). now apply Hsame.
      * exists (name :: l). split.
        { rewrite Hl, Ha, <- app_assoc. reflexivity. }
        split; [now constructor | discriminate].
    + injection Hrun as <- <-.
      destruct (apply_item_applied _ _ _ _ _ _ _ _ E1) as [[Ha _]|Ha].
      * exists []. rewrite app_nil_r. repeat split;
          [exact Ha | apply sublist_nil_l | discriminate].
      * exists [name]. repeat split;
          [exact Ha | constructor; apply sublist_nil_l | discriminate].
Qed.

Lemma apply_items_app exe items pre post parser s p1 s1 :
  apply_items exe items pre parser s = (Ok p1, s1) ->
  apply_items exe items (pre ++ post) parser s
  = apply_items exe items post p1 s1.
Proof.
  revert parser s. induction pre as [|item pre IH]; intros parser s Hpre.
  - simpl in *. unfold_m. now injection Hpre as <- <-.
  - rewrite <- app_comm_cons, !apply_items_cons in *. unfold_m.
    destruct (apply_item exe items parser item s) as [[p|e] s0];
      [now apply IH | discriminate].
Qed.

(** [finalize] commits once, and only a parser that is there. *)
Lemma finalize_builds parser s :
  builds (trace (snd (finalize parser s)))
  = builds (trace s) + match parser with VNone => 0 | _ => 1 end.
Proof.
  unfold finalize, record, host. unfold_m.
  destruct parser; simpl; try lia;
    destruct (build _ (world s)) as [[[]|e] w]; simpl;
    rewrite builds_snoc; reflexivity.
Qed.

Lemma finalize_keeps {X} (proj : state W -> X) parser :
  silent_proj proj -> (forall t s, proj (set_trace t s) = proj s) ->
  preserves (keeps proj) (finalize parser).
Proof.
  intros Hs Ht. unfold finalize, record.
  frame_using ltac:(apply preserves_modify; try apply _; intros ?; apply Ht).
Qed.

End Isolation.

Section Run.
Context {W : Type} `{Host W}.
Implicit Types (s : state W) (exe : executable).

(** The last block of [__init__] once the registry entry of the format
    is known. *)
Lemma run_loaded exe reg items s :
  cls_registry s = Some reg -> dict_get (format exe) reg = Some items ->
  run (Some exe) s
  = (parser ← apply_items exe items items VNone; finalize parser) s.
Proof.
  intros Hreg Hitems. unfold run. unfold_m.
  now rewrite (registry_for_loaded exe s reg items Hreg Hitems).
Qed.

Lemma apply_items_builds exe items todo parser s r s' :
  apply_items exe items todo parser s = (r, s') ->
  builds (trace s') = builds (trace s).
Proof.
  apply (apply_items_keeps (fun s => builds (trace s)));
    [apply parse_builds | reflexivity].
Qed.


(** C6, as the code has it.  A run commits at most once; it does not
    commit when no item was applied; and it commits exactly when the
    value of [parser] left by the loop, that is the value returned by
    the last item applied, is not [None]. *)
Theorem build_once_iff_parser_left exe reg items s :
  cls_registry s = Some reg -> dict_get (format exe) reg = Some items ->
  let out := run (Some exe) s in
  builds (trace (snd out)) <= builds (trace s) + 1
  /\ (applied (snd out) = applied s ->
      builds (trace (snd out)) = builds (trace s))
  /\ (forall parser s1,
        apply_items exe items items VNone s = (Ok parser, s1) ->
        builds (trace (snd out))
        = builds (trace s) + match parser with VNone => 0 | _ => 1 end)
  /\ (forall e s1,
        apply_items exe items items VNone s = (Raise e, s1) ->
        out = (Raise e, s1) /\ builds (trace s1) = builds (trace s)).
Proof.
  intros Hreg Hitems out. subst out.
  rewrite (run_loaded exe reg items s Hreg Hitems). unfold_m.
  destruct (apply_items exe items items VNone s) as [[parser|e] s1] eqn:E.
  - pose proof (apply_items_builds _ _ _ _ _ _ _ E) as Hb.
    pose proof (finalize_builds parser s1) as Hf.
    pose proof (finalize_keeps applied parser silent_applied
                  (fun _ _ => eq_refl) s1 _ _ (surjective_pairing _)) as Hfa.
    destruct (apply_items_applied _ _ _ _ _ _ _ E) as (l & Hl & _ & Hp).
    unfold keeps in Hfa. rewrite Hf, Hb.
    split; [destruct parser; lia|]. split; [|split].
    + intros Ha. rewrite Hfa, Hl in Ha.
      assert (l = []) as -> by
        (apply (f_equal length) in Ha; rewrite length_app in Ha;
         destruct l; [reflexivity | simpl in Ha; lia]).
      rewrite (Hp eq_refl parser eq_refl). lia.
    + intros parser' s1' [= <- <-]. reflexivity.
    + intros e s1' [=].
  - pose proof (apply_items_builds _ _ _ _ _ _ _ E) as Hb. simpl.
    split; [lia|]. split; [intros _; exact Hb|]. split.
    + intros parser s1' [=].
    + intros e' s1' [= <- <-]. now split.
Qed.

End Run.

Section Claims.
Context {W : Type} `{Host W}.
Implicit Types (s : state W) (exe : executable).

(** C2, as the code has it.  When the call of a selected item [name]
    raises, the run goes on with the items after it, from the parser
    and the list of applied names that the items before it left; [name]
    is not in the list of applied names at the end; and the commit
    takes place exactly when the value of [parser] after the last item
    is not [None]. *)
Theorem failure_isolated exe reg items pre name modifier post
        (s s1 s1' s2 : state W) (p1 : pyval) (d : pydict) (e : exn) :
  cls_registry s = Some reg -> dict_get (format exe) reg = Some items ->
  items = pre ++ (name, modifier) :: post ->
  NoDup (dict_keys items) -> name ∉ applied s ->
  apply_items exe items pre VNone s = (Ok p1, s1) ->
  fst (skipped name modifier s1) = Ok false ->
  item_context exe items p1 s1 = (Ok d, s1') ->
  modifier_call modifier d p1 [("executable", exe_value exe)] s1'
  = (Raise e, s2) ->
  let s3 := logged Warning (name ++ ": " ++ exn_msg e) s2 in
  let out := run (Some exe) s in
  out = (parser ← apply_items exe items post p1; finalize parser) s3
  /\ applied s3 = applied s1
  /\ (name ∉ applied (snd out))
  /\ (forall parser sf,
        apply_items exe items post p1 s3 = (Ok parser, sf) ->
        builds (trace (snd out))
        = builds (trace s) + match parser with VNone => 0 | _ => 1 end).
Proof.
  intros Hreg Hitems -> Hnd Hfresh Hpre Hskip Hctx Hcall s3 out.
  assert (Hout : out = (parser ← apply_items exe
                           (pre ++ (name, modifier) :: post) post p1;
                        finalize parser) s3).
  { subst out. rewrite (run_loaded exe reg _ s Hreg Hitems). unfold_m.
    rewrite (apply_items_app _ _ _ _ _ _ _ _ Hpre).
    now rewrite (apply_items_raise _ _ _ _ _ _ _ _ _ _ _ Hskip Hctx Hcall). }
  assert (Ha3 : applied s3 = applied s1).
  { apply (item_context_keeps applied) in Hctx; [|apply parse_applied].
    apply (modifier_call_keeps applied) in Hcall; [|apply silent_applied].
    unfold keeps in *. subst s3. simpl. congruence. }
  assert (Hb3 : builds (trace s3) = builds (trace s)).
  { apply (item_context_keeps (fun s => builds (trace s))) in Hctx;
      [|apply parse_builds].
    apply (modifier_call_keeps (fun s => builds (trace s))) in Hcall;
      [|apply parse_builds].
    apply apply_items_builds in Hpre.
    unfold keeps in *. subst s3. simpl in *. congruence. }
  unfold dict_keys in Hnd. rewrite map_app in Hnd. simpl in Hnd.
  apply NoDup_app in Hnd as (_ & Hpre_post & Hpost).
  apply NoDup_cons in Hpost as [Hpost _].
  destruct (apply_items_applied _ _ _ _ _ _ _ Hpre) as (l1 & Hl1 & Hsub1 & _).
  assert (Hn1 : name ∉ l1).
  { intros Hin. eapply (Hpre_post name); [|left].
    eapply sublist_subseteq; eassumption. }
  split; [exact Hout|]. split; [exact Ha3|].
  rewrite Hout. unfold_m.
  destruct (apply_items exe (pre ++ (name, modifier) :: post) post p1 s3)
    as [[parser|e'] sf] eqn:E;
    destruct (apply_items_applied _ _ _ _ _ _ _ E) as (l2 & Hl2 & Hsub2 & _);
    assert (Hn2 : name ∉ l2)
      by (intros Hin; apply Hpost; eapply sublist_subseteq; eassumption);
    assert (Hnf : name ∉ applied sf)
      by (rewrite Hl2, Ha3, Hl1, !elem_of_app; tauto).
  - pose proof (finalize_keeps applied parser silent_applied
                  (fun _ _ => eq_refl) sf _ _ (surjective_pairing _)) as Hfa.
    unfold keeps in Hfa. split; [now rewrite Hfa|].
    intros parser' sf' [= <- <-].
    rewrite finalize_builds, (apply_items_builds _ _ _ _ _ _ _ E), Hb3.
    reflexivity.
  - simpl. split; [exact Hnf|]. intros parser' sf' [=].
Qed.

(** C1, as the code has it.  An expression that hits a forbidden node
    makes the call of the item raise [ForbiddenNodeError], after a
    warning and an error line, whether [silent] is set or not.  The
    executor treats this error as it treats any other: it logs a
    warning, leaves the item out of the applied names and goes on with
    the next item. *)
Theorem forbidden_raised_then_isolated
        cls multi self data silent kwargs expr (s : state W) msg w
        exe items name modifier loop rest parser (t t1 : state W) d w1 :
  (dict_get "result" self = Some expr -> single_expr expr ->
   parameters_ok self ->
   eval2 expr (dict_pop "__builtins__" (call_context data)) (world s)
   = (Raise (ForbiddenNodeError msg), w) ->
   dict2_call cls multi self data silent kwargs s
   = (Raise (ForbiddenNodeError msg),
      logged Error msg
        (logged Warning ("Bad expression: " ++ py_str expr)
                (set_world w s))))
  /\ (fst (skipped name modifier t) = Ok false ->
      item_context exe items parser t = (Ok d, t1) ->
      dict_get "loop" modifier = Some loop -> loops_once loop ->
      dict_get "result" modifier = Some expr -> single_expr expr ->
      parameters_ok modifier ->
      eval2 expr (dict_pop "__builtins__" (call_context d)) (world t1)
      = (Raise (ForbiddenNodeError msg), w1) ->
      let t2 :=
        logged Warning (name ++ ": " ++ msg)
          (logged Error msg
             (logged Warning ("Bad expression: " ++ py_str expr)
                     (set_world w1 t1))) in
      apply_items exe items ((name, modifier) :: rest) parser t
      = apply_items exe items rest parser t2
      /\ applied t2 = applied t).
Proof.
  split.
  - intros Hres Hsingle Hpar He.
    rewrite (dict2_call_single _ _ _ _ _ _ _ _ Hres Hsingle Hpar).
    now apply exec_forbidden.
  - intros Hskip Hctx Hloop Honce Hres Hsingle Hpar He t2.
    pose proof (modifier_call_forbidden modifier loop expr d parser
                  [("executable", exe_value exe)] t1 msg w1
                  Hloop Honce Hres Hsingle Hpar He) as Hcall.
    split.
    + exact (apply_items_raise _ _ _ _ _ _ _ _ _ _ _ Hskip Hctx Hcall).
    + apply (item_context_keeps applied) in Hctx; [|apply parse_applied].
      exact Hctx.
Qed.

End Claims.

Section Selection.
Context {W : Type} `{Host W}.
Implicit Types (s : state W) (exe : executable).


Lemma ensure_registry_loaded self_id s reg :
  cls_registry s = Some reg -> ensure_registry self_id s = (Ok tt, s).
Proof. intros Hreg. unfold ensure_registry. unfold_m. now rewrite Hreg. Qed.

(** Building the registry touches the class attributes and nothing else. *)
Lemma ensure_registry_keeps {X} (proj : state W -> X) self_id :
  silent_proj proj ->
  (forall r s, proj (set_registry r s) = proj s) ->
  (forall p s, proj (set_source p s) = proj s) ->
  preserves (keeps proj) (ensure_registry self_id).
Proof.
  intros Hs Hr Hp.
  unfold ensure_registry, register_all, source_get, register_item, item_params,
    register_category, as_dict, with_registry.
  frame_using ltac:(apply preserves_modify; try apply _; intros ?;
                    unfold keeps; now rewrite ?Hr, ?Hp).
Qed.


End Selection.
End ModifiersFacts.

(** ** Runs on the concrete host *)

Module Scenarios.
Import PyFacts EffFacts Modifiers ModifiersFacts Sample.

Lemma forbidden_raised_then_isolated_witness :
  dict2_call "Modifier" false (snd forbidden_a) [] true [] sec_s
  = (Raise (ForbiddenNodeError "forbidden node"),
     logged Error "forbidden node"
       (logged Warning ("Bad expression: " ++ "__import__('os')")
               (St.set_world [] sec_s)))
  /\ (let t2 :=
        logged Warning ("A" ++ ": " ++ "forbidden node")
          (logged Error "forbidden node"
             (logged Warning ("Bad expression: " ++ "__import__('os')")
                     (St.set_world [] sec_s1))) in
      apply_items pe32 sec_items (forbidden_a :: [good_b]) VNone sec_s
      = apply_items pe32 sec_items [good_b] VNone t2
      /\ applied t2 = applied sec_s).
Proof.
  pose proof (forbidden_raised_then_isolated
                "Modifier" false (snd forbidden_a) [] true []
                (VStr "__import__('os')") sec_s "forbidden node" []
                pe32 sec_items "A" (snd forbidden_a) VNone [good_b] VNone
                sec_s sec_s1 sec_d []) as [Heval Hloop].
  split.
  - apply Heval; [reflexivity | exact I | exact I | reflexivity].
  - apply Hloop; first [exact I | vm_compute; reflexivity].
Defined.

(** C1, as stated, fails: the expression of [A] hits a forbidden node and
    its call raises [ForbiddenNodeError], yet the run does not raise; it
    logs a warning for [A], applies [B] and commits. *)
Lemma forbidden_expression_not_reraised :
  fst (modifier_call (snd forbidden_a) sec_d VNone kw sec_s1)
  = Raise (ForbiddenNodeError "forbidden node")
  /\ fst (run (Some pe32) sec_s) = Ok tt
  /\ applied (snd (run (Some pe32) sec_s)) = ["B"]
  /\ log (snd (run (Some pe32) sec_s))
     = [(Warning, "Bad expression: __import__('os')");
        (Error, "forbidden node"); (Warning, "A: forbidden node")]
  /\ builds (trace (snd (run (Some pe32) sec_s))) = 1.
Proof. repeat split; vm_compute; reflexivity. Qed.

Lemma failure_isolated_witness :
  let s3 := logged Warning ("I" ++ ": " ++ "division by zero") iso_s2 in
  let out := run (Some pe32) iso_s in
  out = (parser ← apply_items pe32 iso_items [good_b] parsed;
         finalize parser) s3
  /\ applied s3 = applied iso_s1
  /\ ("I" ∉ applied (snd out))
  /\ (forall parser sf,
        apply_items pe32 iso_items [good_b] parsed s3 = (Ok parser, sf) ->
        builds (trace (snd out))
        = builds (trace iso_s) + match parser with VNone => 0 | _ => 1 end).
Proof.
  apply (failure_isolated pe32 [("PE32", iso_items)] iso_items
           [good_a] "I" (snd bad_i) [good_b]
           iso_s iso_s1 iso_s1' iso_s2 parsed iso_d
           (OtherError "division by zero")); try reflexivity.
  - apply (bool_decide_unpack _); vm_compute; exact I.
  - apply not_elem_of_nil.
Defined.

(** The run of the scenario: [A] and [B] are applied, [I] is reported,
    the commit takes place once. *)
Example isolation_run :
  fst (run (Some pe32) iso_s) = Ok tt
  /\ applied (snd (run (Some pe32) iso_s)) = ["A"; "B"]
  /\ trace (snd (run (Some pe32) iso_s))
     = [EvParse "/tmp/sample.exe"; EvBuild parsed]
  /\ log (snd (run (Some pe32) iso_s))
     = [(Warning, "Bad expression: 1 / 0"); (Exception, "division by zero");
        (Debug, "Variables:"); (Warning, "I: division by zero")].
Proof. repeat split; vm_compute; reflexivity. Qed.

(** C2, as stated, fails on its last part: [A] succeeds and [I] raises,
    but [A] returned no parser, and the run ends without a commit. *)
Lemma no_commit_although_other_item_succeeded :
  let s := loaded [quiet_a; bad_i] None in
  fst (run (Some pe32) s) = Ok tt
  /\ applied (snd (run (Some pe32) s)) = ["A"]
  /\ log (snd (run (Some pe32) s))
     = [(Warning, "Bad expression: 1 / 0"); (Exception, "division by zero");
        (Debug, "Variables:"); (Warning, "I: division by zero")]
  /\ builds (trace (snd (run (Some pe32) s))) = 0.
Proof. repeat split; vm_compute; reflexivity. Qed.

Lemma build_once_iff_parser_left_witness :
  let s := loaded [good_a; good_b] None in
  let out := run (Some pe32) s in
  builds (trace (snd out)) <= builds (trace s) + 1
  /\ (applied (snd out) = applied s ->
      builds (trace (snd out)) = builds (trace s))
  /\ (forall parser s1,
        apply_items pe32 [good_a; good_b] [good_a; good_b] VNone s
        = (Ok parser, s1) ->
        builds (trace (snd out))
        = builds (trace s) + match parser with VNone => 0 | _ => 1 end)
  /\ (forall e s1,
        apply_items pe32 [good_a; good_b] [good_a; good_b] VNone s
        = (Raise e, s1) ->
        out = (Raise e, s1) /\ builds (trace s1) = builds (trace s)).
Proof.
  apply (build_once_iff_parser_left pe32 [("PE32", [good_a; good_b])]
           [good_a; good_b] (loaded [good_a; good_b] None));
    reflexivity.
Defined.

(** C6, as stated, fails: an item is applied and no commit follows, when
    the item is asked to loop zero times and when its function returns
    nothing. *)
Lemma item_applied_without_commit :
  (applied (snd (run (Some pe32) (loaded [idle_a] None))) = ["A"]
   /\ builds (trace (snd (run (Some pe32) (loaded [idle_a] None)))) = 0)
  /\ (applied (snd (run (Some pe32) (loaded [quiet_a] None))) = ["A"]
      /\ builds (trace (snd (run (Some pe32) (loaded [quiet_a] None)))) = 0).
Proof. repeat split; vm_compute; reflexivity. Qed.


(** The same call, in full: a warning per unknown name, then the selected
    items in registry order. *)
Example lenient_run :
  let out := init 0 (Some pe32) true
                  (loaded [good_a; good_b]
                          (Some ["ghost"; "B"; "phantom"; "ghost"; "A"])) in
  fst out = Ok tt
  /\ applied (snd out) = ["A"; "B"]
  /\ log (snd out)
     = [(Warning, "Modifier 'ghost' does not exist");
        (Warning, "Modifier 'phantom' does not exist");
        (Warning, "Modifier 'ghost' does not exist")].
Proof. repeat split; vm_compute; reflexivity. Qed.

End Scenarios.

(** ** Pattern defaults *)

Module LoaderFacts.
Import PyFacts Loader.

Section Patterns.
Context {W : Type} `{Host W}.
Variable no_defaults : list string.
Variable default : string.
Variable b : bool.

Lemma fill_default_keys q config :
  dict_keys (fill_default default b q config) = dict_keys config.
Proof.
  unfold fill_default, dict_keys. rewrite map_map. now apply map_ext.
Qed.

Lemma fill_default_app q c1 c2 :
  fill_default default b q (c1 ++ c2)
  = fill_default default b q c1 ++ fill_default default b q c2.
Proof. apply map_app. Qed.

Lemma fill_default_mappings q config :
  all_mappings config -> all_mappings (fill_default default b q config).
Proof.
  unfold all_mappings, fill_default. intros Hall.
  apply Forall_map. eapply Forall_impl; [exact Hall|].
  intros [k v] [params ->]. simpl. eauto.
Qed.

(** Once a pattern has been through, no other pattern changes anything:
    every entry has the key. *)
Lemma fill_default_absorbs q q' config :
  all_mappings config ->
  fill_default default b q' (fill_default default b q config)
  = fill_default default b q config.
Proof.
  unfold all_mappings, fill_default. intros Hall. rewrite map_map.
  apply map_ext_Forall. eapply Forall_impl; [exact Hall|].
  intros [k v] [params ->]. simpl. now rewrite dict_setdefault_twice.
Qed.

(** One pass of the loop over the names, for one pattern. *)
Lemma pattern_pass q todo :
  forall seen,
    NoDup (dict_keys (seen ++ todo)) -> all_mappings todo ->
    for_each (dict_keys todo) (apply_pattern default (VBool b) (VStr q))
             (fill_default default b q seen ++ todo)
    = (Ok tt, fill_default default b q (seen ++ todo)).
Proof.
  induction todo as [|[name v] todo IH]; intros seen Hnd Hall.
  - simpl. now rewrite !app_nil_r.
  - apply Forall_cons in Hall as [[params Hv] Hall]. simpl in Hv. subst v.
    assert (Hname : name ∉ dict_keys (fill_default default b q seen)).
    { rewrite fill_default_keys. unfold dict_keys in *.
      rewrite map_app in Hnd. apply NoDup_app in Hnd as (_ & Hdisj & _).
      intros Hin. apply (Hdisj name Hin). simpl. left. }
    cbn [dict_keys map fst for_each].
    unfold apply_pattern at 1, entry_setdefault, entry, search.
    cbv beta iota zeta
        delta [mbind M_bind bind mret M_ret ret raise get modify].
    rewrite (dict_get_middle _ _ _ _ Hname). cbv beta iota zeta.
    rewrite (dict_get_middle _ _ _ _ Hname). cbv beta iota zeta.
    rewrite (dict_set_middle _ _ _ _ _ Hname).
    specialize (IH (seen ++ [(name, VDict params)])).
    rewrite <- app_assoc in IH. simpl in IH.
    rewrite fill_default_app, <- app_assoc in IH. simpl in IH.
    now apply IH.
Qed.

(** The loop over the patterns: the first pattern fills every entry, the
    others find nothing left to fill. *)
Lemma apply_patterns_first p ps config :
  NoDup (dict_keys config) -> all_mappings config ->
  apply_patterns default (VBool b) (map VStr (p :: ps)) config
  = (Ok tt, fill_default default b p config).
Proof.
  intros Hnd Hall. unfold apply_patterns. cbn [map for_each].
  cbv beta iota zeta delta [mbind M_bind bind get].
  pose proof (pattern_pass p config [] Hnd Hall) as Hfirst.
  simpl in Hfirst. rewrite Hfirst. clear Hfirst.
  induction ps as [|q ps IH]; [reflexivity|].
  cbn [map for_each]. cbv beta iota zeta delta [mbind M_bind bind get].
  pose proof (pattern_pass q (fill_default default b p config) []) as Hq.
  simpl in Hq. rewrite Hq.
  - rewrite fill_default_absorbs by exact Hall. exact IH.
  - now rewrite fill_default_keys.
  - now apply fill_default_mappings.
Qed.

Lemma dict_get_fill q config name params :
  dict_get name config = Some (VDict params) ->
  dict_get name (fill_default default b q config)
  = Some (VDict (dict_setdefault default
                   (VBool (if re_search q name then b else negb b)) params)).
Proof.
  induction config as [|[k v] config IH]; simpl; [discriminate|].
  destruct (String.eqb_spec name k) as [->|Hne].
  - now intros [= ->].
  - exact IH.
Qed.

(** What the code does with a boolean pattern default: an entry that does
    not define the key receives [b] if its name matches the FIRST pattern
    of the list, and the opposite otherwise; the other patterns are never
    taken into account. *)
Theorem first_pattern_decides (name0 : string) p ps config name params :
  str_in default no_defaults = false ->
  NoDup (dict_keys config) -> all_mappings config ->
  dict_get name config = Some (VDict params) ->
  dict_get default params = None ->
  exists config' params',
    apply_default no_defaults name0
      (default, VDict [("match", VList (map VStr (p :: ps)));
                       ("value", VBool b)]) config
    = (Ok tt, config')
    /\ dict_get name config' = Some (VDict params')
    /\ dict_get default params'
       = Some (VBool (if re_search p name then b else negb b)).
Proof.
  intros Hallowed Hnd Hall Hname Hkey.
  exists (fill_default default b p config). eexists. split; [|split].
  - unfold apply_default. rewrite Hallowed.
    cbn -[apply_patterns map].
    cbv beta iota zeta delta [mbind M_bind bind mret M_ret ret].
    apply apply_patterns_first; assumption.
  - eapply dict_get_fill. exact Hname.
  - rewrite dict_get_setdefault, Hkey. now rewrite String.eqb_refl.
Qed.

End Patterns.

Lemma first_pattern_decides_witness :
  exists config' params',
    apply_default (H := Sample.host) [] "is_pe"
      ("keep", VDict [("match", VList (map VStr ("^entropy" :: ["^is_"])));
                      ("value", VBool false)])
      (dict_pop "defaults" Sample.keep_cfg)
    = (Ok tt, config')
    /\ dict_get "is_pe" config' = Some (VDict params')
    /\ dict_get "keep" params'
       = Some (VBool (if re_search "^entropy" "is_pe" then false
                      else negb false)).
Proof.
  apply (first_pattern_decides (H := Sample.host) [] "keep" false "is_pe"
           "^entropy" ["^is_"] (dict_pop "defaults" Sample.keep_cfg)
           "is_pe" [("result", VStr "p")]).
  - reflexivity.
  - apply (bool_decide_unpack _); vm_compute; exact I.
  - repeat constructor; simpl; eauto.
  - reflexivity.
  - reflexivity.
Defined.

(** C8 on the example of the source.  The default [keep] is given as the
    patterns [^entropy] and [^is_] with the value [false].  The entry
    [is_pe] does not define [keep] and matches the second pattern; the
    loader nevertheless sets its [keep] to [true], the value meant for the
    names that match no pattern. *)
Theorem keep_default_misses_second_pattern :
  re_search (Host := Sample.host) "^is_" "is_pe" = true
  /\ Loader.load_file (H := Sample.host) [] true (VDict Sample.keep_cfg)
     = Ok [("entropy", VDict [("result", VStr "e"); ("keep", VBool false)]);
           ("is_pe", VDict [("result", VStr "p"); ("keep", VBool true)]);
           ("size", VDict [("result", VStr "s"); ("keep", VBool true)]);
           ("is_forced", VDict [("result", VStr "f"); ("keep", VBool true)])].
Proof. split; vm_compute; reflexivity. Qed.

End LoaderFacts.

(** ** Variant templates *)

Module VariantsFacts.
Import PyFacts Variants.

Lemma flat_map_length_uniform {A B} (f : A -> list B) (l : list A) (n : nat) :
  (forall x, length (f x) = n) -> length (flat_map f l) = length l * n.
Proof.
  intros Hf. induction l as [|x l IH]; simpl; [reflexivity|].
  now rewrite length_app, Hf, IH.
Qed.

(** The cross product has as many tuples as the product of the lengths. *)
Lemma product_length (ls : list (list pyval)) :
  length (product ls) = foldr Nat.mul 1 (map (@length pyval) ls).
Proof.
  induction ls as [|l ls IH]; simpl; [reflexivity|].
  rewrite (flat_map_length_uniform _ _ (length (product ls))).
  - now rewrite IH.
  - intros x. apply length_map.
Qed.

Lemma add_name_NoDup ks n : NoDup ks -> NoDup (add_name ks n).
Proof.
  intros Hnd. unfold add_name. destruct (str_in n ks) eqn:E; [exact Hnd|].
  apply NoDup_app. split; [exact Hnd|]. split.
  - intros x Hx Hin. apply list_elem_of_singleton in Hin. subst.
    apply str_in_spec in Hx. congruence.
  - apply NoDup_singleton.
Qed.

Lemma add_names_NoDup names :
  forall ks, NoDup ks -> NoDup (fold_left add_name names ks).
Proof.
  induction names as [|n names IH]; intros ks Hnd; simpl; [exact Hnd|].
  now apply IH, add_name_NoDup.
Qed.

(** Names that are new and pairwise distinct are all appended. *)
Lemma add_names_fresh names :
  forall ks, NoDup names -> (forall n, n ∈ names -> n ∉ ks) ->
             fold_left add_name names ks = ks ++ names.
Proof.
  induction names as [|n names IH]; intros ks Hnd Hfresh; simpl.
  - now rewrite app_nil_r.
  - apply NoDup_cons in Hnd as [Hn Hnd].
    unfold add_name at 2. destruct (str_in n ks) eqn:E.
    + apply str_in_spec in E. exfalso. apply (Hfresh n); [left | exact E].
    + rewrite IH; [now rewrite <- app_assoc | exact Hnd |].
      intros m Hm Hin. apply elem_of_app in Hin as [Hin|Hin].
      * apply (Hfresh m); [now right | exact Hin].
      * apply list_elem_of_singleton in Hin. now subst.
Qed.

(** In any case no more names are appended than there are names. *)
Lemma add_names_length names :
  forall ks, length (fold_left add_name names ks) <= length ks + length names.
Proof.
  induction names as [|n names IH]; intros ks; simpl; [lia|].
  etransitivity; [apply IH|]. unfold add_name.
  destruct (str_in n ks); rewrite ?length_app; simpl; lia.
Qed.

(** *** When the names of the tuples are pairwise distinct *)

Lemma append_cancel_l (a b c : string) :
  String.append a b = String.append a c -> b = c.
Proof. induction a as [|ch a IH]; simpl; [tauto | intros [= E]; auto]. Qed.

(** Two texts without dash, each followed by a dash, that start the same
    string are the same text. *)
Lemma dash_split (x : string) :
  forall y a b,
    dash_free x -> dash_free y ->
    String.append x (String "-" a) = String.append y (String "-" b) ->
    x = y /\ a = b.
Proof.
  induction x as [|c x IH]; intros [|d y] a b Hx Hy E; simpl in *.
  - injection E as ->. now split.
  - injection E as <- _. now destruct Hy.
  - injection E as -> _. now destruct Hx.
  - injection E as -> E. destruct Hx as [_ Hx], Hy as [_ Hy].
    destruct (IH y a b Hx Hy E) as [-> ->]. now split.
Qed.

Lemma concat_dash_inj (xs : list string) :
  forall ys,
    length xs = length ys ->
    Forall dash_free xs -> Forall dash_free ys ->
    String.concat "-" xs = String.concat "-" ys -> xs = ys.
Proof.
  induction xs as [|x xs IH]; intros [|y ys] Hlen Hxs Hys E;
    try discriminate; [reflexivity|].
  apply Forall_cons in Hxs as [Hx Hxs]. apply Forall_cons in Hys as [Hy Hys].
  destruct xs as [|x2 xs], ys as [|y2 ys]; try discriminate.
  - simpl in E. now subst.
  - change (String.append x (String "-" (String.concat "-" (x2 :: xs)))
            = String.append y (String "-" (String.concat "-" (y2 :: ys))))
      in E.
    destruct (dash_split x y _ _ Hx Hy E) as [-> E'].
    f_equal. apply IH; [simpl in *; lia | assumption..].
Qed.

Lemma elem_of_product (ls : list (list pyval)) :
  forall vs, vs ∈ product ls -> Forall2 (fun v l => v ∈ l) vs ls.
Proof.
  induction ls as [|l ls IH]; intros vs Hvs; simpl in Hvs.
  - apply list_elem_of_singleton in Hvs. subst. constructor.
  - apply list_elem_of_In, in_flat_map in Hvs as (x & Hx & Hvs).
    apply in_map_iff in Hvs as (vs' & <- & Hvs').
    constructor; [now apply list_elem_of_In | apply IH].
    now apply list_elem_of_In.
Qed.

Lemma product_NoDup (ls : list (list pyval)) :
  Forall NoDup ls -> NoDup (product ls).
Proof.
  induction ls as [|l ls IH]; intros Hnd; simpl.
  - apply NoDup_singleton.
  - apply Forall_cons in Hnd as [Hl Hls]. specialize (IH Hls).
    induction l as [|x l IHl]; simpl; [constructor|].
    apply NoDup_cons in Hl as [Hx Hl].
    apply NoDup_app. split; [|split].
    + apply NoDup_fmap_2; [|exact IH]. intros a b [= ->]. reflexivity.
    + intros vs Hin1 Hin2.
      apply list_elem_of_fmap in Hin1 as (vs' & -> & _).
      apply list_elem_of_In, in_flat_map in Hin2 as (y & Hy & Hin2).
      apply in_map_iff in Hin2 as (vs2 & [= -> _] & _).
      now apply Hx, list_elem_of_In.
    + exact (IHl Hl).
Qed.

Section Expansion.
Context {W : Type} `{Host W}.

(** One tuple: the variant of its name is created unless there is one
    already, and nothing else is. *)
Lemma add_variant_keys item attrs template variants values :
  all_mappings variants ->
  exists variants',
    add_variant item attrs template variants values = Ok variants'
    /\ dict_keys variants'
       = add_name (dict_keys variants) (vitem_name item values)
    /\ all_mappings variants'.
Proof.
  intros Hall. unfold add_variant, add_name, dict_setdefault.
  rewrite <- dict_mem_keys.
  set (vitem := vitem_name item values).
  destruct (dict_mem vitem variants) eqn:Hmem.
  - destruct (zip attrs values ++ template) as [|kv kvs]; [eauto|].
    unfold dict_mem in Hmem.
    destruct (dict_get vitem variants) as [v|] eqn:Hget; [|discriminate].
    assert (Hv : exists d, v = VDict d)
      by (eapply all_mappings_get; eassumption).
    destruct Hv as [d ->]. eexists. split; [reflexivity|]. split.
    + apply dict_keys_set_mem. unfold dict_mem. now rewrite Hget.
    + now apply all_mappings_set.
  - assert (Hget : dict_get vitem (variants ++ [(vitem, VDict template)])
                   = Some (VDict template)).
    { apply dict_get_middle. apply dict_get_None. unfold dict_mem in Hmem.
      now destruct (dict_get vitem variants). }
    assert (Hall' : all_mappings (variants ++ [(vitem, VDict template)])).
    { apply Forall_app. split; [exact Hall|]. repeat constructor.
      simpl. eauto. }
    destruct (zip attrs values ++ template) as [|kv kvs].
    + eexists. split; [reflexivity|]. split; [|exact Hall'].
      unfold dict_keys. now rewrite map_app.
    + rewrite Hget. eexists. split; [reflexivity|]. split.
      * rewrite dict_set_middle.
        -- unfold dict_keys. now rewrite !map_app.
        -- apply dict_get_None. unfold dict_mem in Hmem.
           now destruct (dict_get vitem variants).
      * rewrite dict_set_middle.
        -- apply Forall_app. split; [exact Hall|]. repeat constructor.
           simpl. eauto.
        -- apply dict_get_None. unfold dict_mem in Hmem.
           now destruct (dict_get vitem variants).
Qed.

Lemma add_variants_keys item attrs template tuples :
  forall variants,
    all_mappings variants ->
    exists variants',
      res_fold (add_variant item attrs template) tuples variants
      = Ok variants'
      /\ dict_keys variants'
         = fold_left add_name (map (vitem_name item) tuples)
                     (dict_keys variants)
      /\ all_mappings variants'.
Proof.
  induction tuples as [|values tuples IH]; intros variants Hall; simpl.
  - eauto.
  - destruct (add_variant_keys item attrs template variants values Hall)
      as (v1 & -> & Hk1 & Hall1).
    destruct (IH v1 Hall1) as (v2 & -> & Hk2 & Hall2).
    exists v2. rewrite Hk2, Hk1. eauto.
Qed.

Lemma fmap_NoDup_inj {A B} (f : A -> B) (l : list A) x y :
  NoDup (map f l) -> x ∈ l -> y ∈ l -> f x = f y -> x = y.
Proof.
  induction l as [|a l IH]; simpl; intros Hnd Hx Hy E.
  - now apply elem_of_nil in Hx.
  - apply NoDup_cons in Hnd as [Ha Hnd].
    apply elem_of_cons in Hx as [->|Hx]; apply elem_of_cons in Hy as [->|Hy];
      [reflexivity | | | now apply IH].
    + exfalso. apply Ha. rewrite E. apply list_elem_of_fmap. now exists y.
    + exfalso. apply Ha. rewrite <- E. apply list_elem_of_fmap. now exists x.
Qed.

(** Tuples of plain values with the same texts are the same tuple. *)
Lemma tuple_texts_inj (ls : list (list pyval)) :
  Forall plain_values ls ->
  forall vs vs',
    Forall2 (fun v l => v ∈ l) vs ls -> Forall2 (fun v l => v ∈ l) vs' ls ->
    map py_str vs = map py_str vs' -> vs = vs'.
Proof.
  intros Hplain vs vs' Hvs. revert vs'.
  induction Hvs as [|v l vs ls Hv Hvs IH]; intros vs' Hvs' E.
  - now inversion Hvs'.
  - inversion Hvs' as [|v' l' vs2 ls' Hv' Hvs2]; subst.
    apply Forall_cons in Hplain as [[Hnd _] Hplain].
    simpl in E. injection E as Ev E.
    rewrite (fmap_NoDup_inj py_str l v v' Hnd Hv Hv' Ev).
    f_equal. now apply IH.
Qed.

Lemma tuple_texts_dash_free (ls : list (list pyval)) vs :
  Forall plain_values ls -> Forall2 (fun v l => v ∈ l) vs ls ->
  Forall dash_free (map py_str vs).
Proof.
  intros Hplain Hvs. induction Hvs as [|v l vs ls Hv Hvs IH]; simpl.
  - constructor.
  - apply Forall_cons in Hplain as [[_ Hfree] Hplain].
    constructor; [|now apply IH].
    rewrite Forall_forall in Hfree. apply Hfree. exact Hv.
Qed.

(** Plain values give every tuple of the product a name of its own. *)
Lemma tuple_names_NoDup item (ls : list (list pyval)) :
  Forall plain_values ls -> NoDup (tuple_names item ls).
Proof.
  intros Hplain. unfold tuple_names. apply NoDup_fmap_2_strong.
  - intros vs vs' Hvs Hvs' E.
    apply elem_of_product in Hvs, Hvs'.
    apply (tuple_texts_inj ls Hplain vs vs' Hvs Hvs').
    pose proof (tuple_texts_dash_free ls vs Hplain Hvs) as Hfree.
    pose proof (tuple_texts_dash_free ls vs' Hplain Hvs') as Hfree'.
    assert (Hlen : length (map py_str vs) = length (map py_str vs')).
    { rewrite !length_map. apply Forall2_length in Hvs, Hvs'. congruence. }
    unfold vitem_name in E. cbn [map py_str] in E.
    destruct (map py_str vs) as [|x xs], (map py_str vs') as [|y ys];
      try discriminate; [reflexivity|].
    change (String.append item
              (String "-" (String.concat "-" (x :: xs)))
            = String.append item
                (String "-" (String.concat "-" (y :: ys)))) in E.
    apply append_cancel_l in E. injection E as E.
    now apply concat_dash_inj.
  - apply product_NoDup. eapply Forall_impl; [exact Hplain|].
    intros l [Hnd _]. eapply NoDup_fmap_1, Hnd.
Qed.

(** C4, as the code has it.  The template gives one name per tuple of the
    cross product, hence L1 x ... x Ln names.  The expansion creates one
    variant per name that [variants] does not have yet: the names of the
    variants stay pairwise distinct, at most L1 x ... x Ln variants are
    added, and exactly that many, one per tuple and in the order of the
    product, when the names of the tuples are pairwise distinct and new.
    This is so when no variant is declared next to the template and, in
    each iterable, the values have pairwise distinct texts without dash. *)
Theorem template_variants item variants template ls :
  dict_get "_template" variants = Some (VDict template) ->
  template <> [] ->
  res_map py_iter (template_iterables template) = Ok ls ->
  all_mappings (dict_pop "_template" variants) ->
  let declared := dict_keys (dict_pop "_template" variants) in
  let names := tuple_names item ls in
  exists variants',
    expand_template item variants = Ok variants'
    /\ length names = foldr Nat.mul 1 (map (@length pyval) ls)
    /\ dict_keys variants' = fold_left add_name names declared
    /\ (NoDup declared -> NoDup (dict_keys variants'))
    /\ length (dict_keys variants')
       <= length declared + foldr Nat.mul 1 (map (@length pyval) ls)
    /\ (NoDup names -> (forall n, n ∈ names -> n ∉ declared) ->
        dict_keys variants' = declared ++ names
        /\ length (dict_keys variants')
           = length declared + foldr Nat.mul 1 (map (@length pyval) ls))
    /\ (declared = [] -> Forall plain_values ls ->
        dict_keys variants' = names
        /\ length (dict_keys variants')
           = foldr Nat.mul 1 (map (@length pyval) ls)).
Proof.
  intros Htpl Hne Hiter Hall declared names.
  assert (Hlen : length names = foldr Nat.mul 1 (map (@length pyval) ls)).
  { unfold names, tuple_names. now rewrite length_map, product_length. }
  destruct (add_variants_keys item (template_attrs template)
              (template_rest template) (product ls)
              (dict_pop "_template" variants) Hall)
    as (variants' & Hrun & Hkeys & _).
  exists variants'. split; [|split; [exact Hlen|]].
  - unfold expand_template. rewrite Htpl. simpl.
    destruct template; [congruence|]. rewrite Hiter. simpl. exact Hrun.
  - change (dict_keys variants' = fold_left add_name names declared) in Hkeys.
    rewrite Hkeys.
    split; [reflexivity|]. split; [apply add_names_NoDup|]. split; [|split].
    + rewrite <- Hlen. apply add_names_length.
    + intros Hnd Hfresh. rewrite (add_names_fresh names declared Hnd Hfresh).
      split; [reflexivity|]. rewrite length_app. lia.
    + intros Hdecl Hplain. rewrite Hdecl.
      rewrite (add_names_fresh names []); [now split | |].
      * now apply tuple_names_NoDup.
      * intros n _. apply not_elem_of_nil.
Qed.

End Expansion.

Lemma template_variants_witness :
  let variants :=
    [("_template",
      VDict [("_n", VList [VInt 1; VInt 2]);
             ("_c", VList [VStr "x"; VStr "y"])])] in
  let ls := [[VInt 1; VInt 2]; [VStr "x"; VStr "y"]] in
  let declared := dict_keys (dict_pop "_template" variants) in
  let names := tuple_names (H := Sample.host) "T" ls in
  exists variants',
    expand_template (H := Sample.host) "T" variants = Ok variants'
    /\ length names = foldr Nat.mul 1 (map (@length pyval) ls)
    /\ dict_keys variants' = fold_left add_name names declared
    /\ (NoDup declared -> NoDup (dict_keys variants'))
    /\ length (dict_keys variants')
       <= length declared + foldr Nat.mul 1 (map (@length pyval) ls)
    /\ (NoDup names -> (forall n, n ∈ names -> n ∉ declared) ->
        dict_keys variants' = declared ++ names
        /\ length (dict_keys variants')
           = length declared + foldr Nat.mul 1 (map (@length pyval) ls))
    /\ (declared = [] -> Forall plain_values ls ->
        dict_keys variants' = names
        /\ length (dict_keys variants')
           = foldr Nat.mul 1 (map (@length pyval) ls)).
Proof.
  apply (template_variants (H := Sample.host) "T"
           [("_template",
             VDict [("_n", VList [VInt 1; VInt 2]);
                    ("_c", VList [VStr "x"; VStr "y"])])]
           [("_n", VList [VInt 1; VInt 2]); ("_c", VList [VStr "x"; VStr "y"])]
           [[VInt 1; VInt 2]; [VStr "x"; VStr "y"]]).
  - reflexivity.
  - discriminate.
  - reflexivity.
  - constructor.
Defined.

(** The scenario of the specification: four variants, in product order. *)
Example template_scenario :
  expand_template (H := Sample.host) "T"
    [("_template",
      VDict [("_n", VList [VInt 1; VInt 2]);
             ("_c", VList [VStr "x"; VStr "y"])])]
  = Ok [("T-1-x", VDict [("n", VInt 1); ("c", VStr "x")]);
        ("T-1-y", VDict [("n", VInt 1); ("c", VStr "y")]);
        ("T-2-x", VDict [("n", VInt 2); ("c", VStr "x")]);
        ("T-2-y", VDict [("n", VInt 2); ("c", VStr "y")])].
Proof. vm_compute. reflexivity. Qed.

(** C4, as stated, fails: a template whose iterable repeats a value has two
    tuples with one name, and a single variant comes out of it; so do
    values whose texts, once joined, coincide. *)
Lemma template_repeated_value_one_variant :
  (length (product [[VInt 1; VInt 1]]) = 2
   /\ expand_template (H := Sample.host) "T"
        [("_template", VDict [("_n", VList [VInt 1; VInt 1])])]
      = Ok [("T-1", VDict [("n", VInt 1)])])
  /\ (length (product [[VStr "x-y"; VStr "x"]; [VStr "z"; VStr "y-z"]]) = 4
      /\ expand_template (H := Sample.host) "T"
           [("_template",
             VDict [("_a", VList [VStr "x-y"; VStr "x"]);
                    ("_b", VList [VStr "z"; VStr "y-z"])])]
         = Ok [("T-x-y-z", VDict [("a", VStr "x-y"); ("b", VStr "z")]);
               ("T-x-y-y-z", VDict [("a", VStr "x-y"); ("b", VStr "y-z")]);
               ("T-x-z", VDict [("a", VStr "x"); ("b", VStr "z")])]).
Proof. repeat split; vm_compute; reflexivity. Qed.

End VariantsFacts.

(** ** Registry construction *)

Module RegistryFacts.
Import PyFacts EffFacts Modifiers ModifiersFacts.

Section Build.
Context {W : Type} `{Host W}.
Implicit Types (s : state W).

(** What [Modifier(params, name=name, parent=self, result=expr)] gives. *)
Lemma modifier_init self_id name params expr :
  dict2_init _fields params
             [("name", VStr name); ("parent", VObj self_id); ("result", expr)]
  = if is_undef expr
    then Raise (ValueError (name ++ ": 'result' shall be defined"))
    else Ok (modifier_of self_id name params expr).
Proof.
  unfold dict2_init, modifier_of.
  change (dict_setdefault "result" _ _)
    with [("name", VStr UNDEF_RESULT); ("description", VStr "");
          ("result", VStr UNDEF_RESULT)].
  change (dict_pop "logger" [("name", VStr name); ("parent", VObj self_id);
                             ("result", expr)])
    with [("name", VStr name); ("parent", VObj self_id); ("result", expr)].
  set (base := dict_update _ (dict_pop "logger" params)).
  change (dict_update base _)
    with (dict_set "result" expr
            (dict_set "parent" (VObj self_id)
               (dict_set "name" (VStr name) base))).
  rewrite !dict_get_set. cbn [String.eqb Ascii.eqb Bool.eqb]. reflexivity.
Qed.

Lemma modifier_of_result self_id name params expr :
  dict_get "result" (modifier_of self_id name params expr) = Some expr.
Proof. unfold modifier_of. now rewrite dict_get_set. Qed.

(** The definition of an item does not depend on the instance that built
    it. *)
Lemma modifier_of_definition i j name params expr :
  definition_of (modifier_of i name params expr)
  = definition_of (modifier_of j name params expr).
Proof.
  unfold definition_of, modifier_of.
  rewrite !(dict_pop_set_ne "parent" "result") by discriminate.
  now rewrite !dict_pop_set_eq.
Qed.

(** One assignment [registry[c2][name] = m]. *)
Lemma register_entry c2 name m reg c n :
  entry_of (Some (register c2 name m reg)) c n
  = if String.eqb c c2 && String.eqb n name then Some m
    else entry_of (Some reg) c n.
Proof.
  unfold entry_of, register.
  set (reg1 := dict_setdefault c2 [] reg).
  assert (Hc2 : dict_get c2 reg1
                = Some (match dict_get c2 reg with
                        | Some items => items
                        | None => []
                        end)).
  { unfold reg1. rewrite dict_get_setdefault, String.eqb_refl.
    now destruct (dict_get c2 reg). }
  rewrite Hc2, dict_get_set.
  destruct (String.eqb_spec c c2) as [->|Hne]; simpl.
  - rewrite dict_get_set. destruct (String.eqb n name); [reflexivity|].
    now destruct (dict_get c2 reg).
  - unfold reg1. rewrite dict_get_setdefault.
    destruct (dict_get c reg); [reflexivity|].
    destruct (String.eqb_spec c c2); [congruence | reflexivity].
Qed.

Lemma with_registry_entry c2 name m s c n :
  entry_of (cls_registry (snd (with_registry (register c2 name m) s))) c n
  = if String.eqb c c2 && String.eqb n name then Some m
    else entry_of (cls_registry s) c n.
Proof.
  unfold with_registry, modify. cbn [snd cls_registry set_registry].
  rewrite register_entry. destruct (cls_registry s); reflexivity.
Qed.

(** The loop [for c2 in expand_formats(c)]. *)
Lemma register_formats name m formats :
  forall s, exists s',
    for_each formats (fun c2 => with_registry (register c2 name m)) s
    = (Ok tt, s')
    /\ forall c n,
         entry_of (cls_registry s') c n
         = if str_in c formats && String.eqb n name then Some m
           else entry_of (cls_registry s) c n.
Proof.
  induction formats as [|c2 formats IH]; intros s.
  - exists s. split; reflexivity.
  - cbn [for_each]. unfold_m.
    destruct (with_registry (register c2 name m) s) as [r s1] eqn:E1.
    assert (r = Ok tt) as -> by (unfold with_registry in E1; now injection E1).
    destruct (IH s1) as (s' & Hrun & Hentry). exists s'.
    split; [exact Hrun|]. intros c n. rewrite Hentry.
    pose proof (with_registry_entry c2 name m s c n) as H1.
    rewrite E1 in H1. simpl in H1. rewrite H1. unfold str_in. simpl.
    destruct (String.eqb c c2), (existsb (String.eqb c) formats),
      (String.eqb n name); reflexivity.
Qed.

(** The items of other names are left as they are. *)
Lemma register_category_keeps self_id name params r c0 c n :
  n <> name ->
  preserves (keeps (fun s => entry_of (cls_registry s) c n))
            (register_category self_id name params r c0).
Proof.
  intros Hne. unfold register_category. rewrite modifier_init.
  frame_using ltac:(
    idtac;
    match goal with
    | |- preserves _ (with_registry (register ?c2 _ ?m)) =>
        intros s0 r0 s0' Hrun;
        pose proof (with_registry_entry c2 name m s0 c n) as Hentry;
        rewrite Hrun in Hentry; unfold keeps; simpl in Hentry;
        rewrite Hentry;
        destruct (String.eqb_spec n name); [congruence|];
        now rewrite andb_false_r
    end).
Qed.

Lemma register_item_keeps self_id data_all item c n :
  n <> fst item ->
  preserves (keeps (fun s => entry_of (cls_registry s) c n))
            (register_item self_id data_all item).
Proof.
  intros Hne. destruct item as [name params].
  unfold register_item, item_params, as_dict.
  frame_using ltac:(apply register_category_keeps; exact Hne).
Qed.

(** The category [All] comes last: when [result] has an expression for it,
    the item built from that expression is what every format ends with. *)
Lemma register_item_all self_id defaults name params rd expr s s' :
  let params' := with_defaults defaults params in
  dict_get "result" params' = Some (VDict rd) ->
  dict_get "All" rd = Some expr -> truthy expr = true ->
  register_item self_id (VDict defaults) (name, VDict params) s = (Ok tt, s') ->
  is_undef expr = false
  /\ forall c, c ∈ expand_formats "All" ->
       entry_of (cls_registry s') c name
       = Some (modifier_of self_id name (dict_pop "result" params') expr).
Proof.
  intros params' Hres Hall Htruthy. unfold register_item, item_params, as_dict.
  unfold_m. change (with_defaults defaults params) with params'.
  rewrite Hres. unfold category_lists. cbn [for_each]. unfold_m.
  destruct (for_each (expand_formats "All") _ s) as [[[]|e] s1];
    [|discriminate].
  destruct (for_each (tl (map fst FORMATS)) _ s1) as [[[]|e] s2];
    [|discriminate].
  unfold register_category at 1. cbn [dict_get String.eqb Ascii.eqb Bool.eqb].
  rewrite Hall, Htruthy, modifier_init.
  destruct (is_undef expr); [discriminate|].
  destruct (register_formats name
              (modifier_of self_id name (dict_pop "result" params') expr)
              (expand_formats "All") s2) as (s3 & -> & Hentry).
  intros [= <-]. split; [reflexivity|]. intros c Hc.
  rewrite Hentry. apply str_in_spec in Hc. now rewrite Hc, String.eqb_refl.
Qed.


(** C3 as the code has it, in general: whenever the [result] of an item
    has a non-empty expression for [All], every format ends with the item
    built from that expression, whatever [result] gives for the format
    itself or for its class. *)
Theorem all_category_overrides self_id s s' src w modifiers defaults
        pre name params post rd expr c :
  cls_registry s = None -> cls_source s = Some src ->
  read_yaml src (world s) = (Ok (VDict modifiers), w) ->
  match dict_get "defaults" modifiers with
  | Some dflt => dflt
  | None => VDict []
  end = VDict defaults ->
  dict_pop "defaults" modifiers = pre ++ (name, VDict params) :: post ->
  name ∉ dict_keys post ->
  dict_get "result" (with_defaults defaults params) = Some (VDict rd) ->
  dict_get "All" rd = Some expr -> truthy expr = true ->
  c ∈ expand_formats "All" ->
  ensure_registry self_id s = (Ok tt, s') ->
  entry_of (cls_registry s') c name
  = Some (modifier_of self_id name
            (dict_pop "result" (with_defaults defaults params)) expr).
Proof.
  intros Hreg Hsrc Hread Hdflt Hitems Hpost Hres Hall Htruthy Hc.
  unfold ensure_registry, register_all, source_get, host, as_dict. unfold_m.
  rewrite Hreg, Hsrc, Hread.
  assert (Hm : (if truthy (VDict modifiers) then VDict modifiers else VDict [])
               = VDict modifiers) by (now destruct modifiers).
  rewrite Hm, Hdflt, Hitems, for_each_app. cbn [for_each]. unfold_m.
  match goal with
  | |- context [for_each pre ?body ?s0] =>
      destruct (for_each pre body s0) as [[[]|e] s1]; [|discriminate]
  end.
  destruct (register_item self_id (VDict defaults) (name, VDict params) s1)
    as [[[]|e] s2] eqn:Eitem; [|discriminate].
  intros Hrest.
  destruct (register_item_all self_id defaults name params rd expr s1 s2
              Hres Hall Htruthy Eitem) as [_ Hentry].
  rewrite <- (Hentry c Hc).
  apply (preserves_for_each_in
           (keeps (fun s => entry_of (cls_registry s) c name))
           post (register_item self_id (VDict defaults))) in Hrest;
    [exact Hrest|].
  intros item Hitem. apply register_item_keeps. intros ->.
  apply Hpost. unfold dict_keys. apply list_elem_of_fmap. now exists item.
Qed.

(** *** Two builds *)

Section Vmap.
Context {A B : Type} (f : A -> B).

Lemma dict_get_vmap k (d : list (string * A)) :
  dict_get k (vmap f d) = option_map f (dict_get k d).
Proof.
  induction d as [|[k0 v0] d IH]; simpl; [reflexivity|].
  now destruct (String.eqb k k0).
Qed.

Lemma dict_set_vmap k v (d : list (string * A)) :
  dict_set k (f v) (vmap f d) = vmap f (dict_set k v d).
Proof.
  induction d as [|[k0 v0] d IH]; simpl; [reflexivity|].
  destruct (String.eqb k k0); simpl; [reflexivity | now rewrite IH].
Qed.

Lemma dict_setdefault_vmap k v (d : list (string * A)) :
  dict_setdefault k (f v) (vmap f d) = vmap f (dict_setdefault k v d).
Proof.
  unfold dict_setdefault, dict_mem. rewrite dict_get_vmap.
  destruct (dict_get k d); simpl; [reflexivity|].
  unfold vmap. now rewrite map_app.
Qed.

End Vmap.

Lemma register_vmap (f : pydict -> pydict) c2 name m reg :
  vmap (vmap f) (register c2 name m reg)
  = register c2 name (f m) (vmap (vmap f) reg).
Proof.
  unfold register.
  assert (E : dict_setdefault c2 [] (vmap (vmap f) reg)
              = vmap (vmap f) (dict_setdefault c2 [] reg))
    by exact (dict_setdefault_vmap (vmap f) c2 [] reg).
  rewrite E, dict_get_vmap.
  destruct (dict_get c2 (dict_setdefault c2 [] reg)) as [items|]; simpl.
  - now rewrite <- !dict_set_vmap.
  - reflexivity.
Qed.

Lemma related_register c2 name m1 m2 :
  definition_of m1 = definition_of m2 ->
  related (same_definitions (W := W)) (with_registry (register c2 name m1))
          (with_registry (register c2 name m2)).
Proof.
  intros Hm. apply related_modify. intros s t Hst.
  unfold same_definitions, definitions in *. simpl.
  rewrite !register_vmap, Hm. do 2 f_equal.
  destruct (cls_registry s), (cls_registry t); simpl in Hst;
    try discriminate; [now injection Hst | reflexivity].
Qed.

Lemma related_register_category i j name params r c :
  related (same_definitions (W := W)) (register_category i name params r c)
          (register_category j name params r c).
Proof.
  unfold register_category. rewrite !modifier_init.
  destruct (truthy _); [|apply (related_ret _ tt)].
  destruct (is_undef _); [apply related_raise|].
  apply related_for_each. intros c2.
  apply related_register, modifier_of_definition.
Qed.

Lemma related_register_item i j data_all item :
  related (same_definitions (W := W)) (register_item i data_all item)
          (register_item j data_all item).
Proof.
  destruct item as [name params]. unfold register_item, item_params, as_dict.
  apply related_bind;
    [destruct data_all; first [apply related_ret | apply related_raise]
    | intros defaults].
  apply related_bind;
    [destruct params; try destruct defaults;
     first [apply related_ret | apply related_raise]
    | intros params'].
  apply related_for_each. intros clist. apply related_for_each. intros c.
  apply related_register_category.
Qed.

Lemma related_register_all i j y :
  related (same_definitions (W := W)) (register_all i y) (register_all j y).
Proof.
  unfold register_all, as_dict.
  apply related_bind;
    [destruct (if truthy y then y else VDict []);
     first [apply related_ret | apply related_raise] | intros modifiers].
  apply related_for_each. intros item. apply related_register_item.
Qed.

(** The same instance, from the same registry, builds the same registry. *)
Lemma related_register_all_same i y :
  related (same_registry (W := W)) (register_all i y) (register_all i y).
Proof.
  unfold register_all, register_item, item_params, register_category, as_dict,
    with_registry.
  repeat first
    [ apply related_ret | apply related_raise
    | apply related_bind; [| intros ?]
    | apply related_for_each; intros ?
    | apply related_modify; intros s0 t0 Hst; unfold same_registry in *;
      simpl; now rewrite Hst
    | match goal with
      | |- related _ (match ?x with _ => _ end) _ => destruct x
      | |- related _ (let (_, _) := ?x in _) _ => destruct x
      end ].
Qed.

(** The construction leaves the source attribute as it is. *)
Lemma register_all_source i y :
  preserves (keeps (cls_source (W := W))) (register_all i y).
Proof.
  unfold register_all, register_item, item_params, register_category, as_dict,
    with_registry.
  frame_using ltac:(apply preserves_modify; try apply _;
                    intros ?; reflexivity).
Qed.

(** C5.  The registry of [Modifiers] is memoized: once it is there,
    [__init__] does not read the source again, and this stays so when a
    path is assigned to [Modifiers.source], the same or another: the
    attribute is rebound, the registry is neither reset nor built again.
    Two builds from a source whose content has not changed end the same
    way and give the same mapping from categories to names to
    definitions, whichever instances run them and whatever else differs
    in the states they start from; so does a build that follows another
    one after the registry has been set back to [None] by hand.  The
    setter of [MetaBase.source], on a class of that metaclass, changes
    nothing when the assigned path is the current one; otherwise it
    records the path and sets the registry of that class to [None]. *)
Theorem registry_memoized
        i j (s t : state W) reg src path
        {R : Type} (class_config : res string) (c : MetaBase.cls R)
        (mpath : option string) (p : string) :
  (cls_registry s = Some reg ->
   ensure_registry i s = (Ok tt, s)
   /\ source_assign path s = (Ok tt, set_source (Some path) s)
   /\ cls_registry (set_source (Some path) s) = Some reg
   /\ ensure_registry j (set_source (Some path) s)
      = (Ok tt, set_source (Some path) s))
  /\ (cls_registry s = None -> cls_registry t = None ->
      cls_source s = Some src -> cls_source t = Some src ->
      fst (read_yaml src (world s)) = fst (read_yaml src (world t)) ->
      fst (ensure_registry i s) = fst (ensure_registry j t)
      /\ definitions (cls_registry (snd (ensure_registry i s)))
         = definitions (cls_registry (snd (ensure_registry j t)))
      /\ (i = j -> cls_registry (snd (ensure_registry i s))
                   = cls_registry (snd (ensure_registry j t))))
  /\ (cls_registry s = None -> cls_source s = Some src ->
      let s1 := snd (ensure_registry i s) in
      fst (read_yaml src (world s)) = fst (read_yaml src (world s1)) ->
      let s2 := snd (ensure_registry j (set_registry None s1)) in
      fst (ensure_registry j (set_registry None s1))
      = fst (ensure_registry i s)
      /\ definitions (cls_registry s2) = definitions (cls_registry s1)
      /\ (i = j -> cls_registry s2 = cls_registry s1))
  /\ (MetaBase.assigned_path class_config mpath = Ok p ->
      (MetaBase._source c = Some p ->
       MetaBase.source_set class_config mpath c = (Ok tt, c))
      /\ (MetaBase._source c <> Some p ->
          MetaBase.source_set class_config mpath c
          = (Ok tt, MetaBase.mkCls (Some p) None))).
Proof.
  assert (Htwice : forall i j (s t : state W),
             cls_registry s = None -> cls_registry t = None ->
             cls_source s = Some src -> cls_source t = Some src ->
             fst (read_yaml src (world s)) = fst (read_yaml src (world t)) ->
             fst (ensure_registry i s) = fst (ensure_registry j t)
             /\ definitions (cls_registry (snd (ensure_registry i s)))
                = definitions (cls_registry (snd (ensure_registry j t)))
             /\ (i = j -> cls_registry (snd (ensure_registry i s))
                          = cls_registry (snd (ensure_registry j t)))).
  { clear i j s t. intros i j s t Hs Ht Hss Hst Hread.
    unfold ensure_registry, source_get, host. unfold_m.
    rewrite Hs, Ht, Hss, Hst.
    destruct (read_yaml src (world s)) as [[y|e] w1],
             (read_yaml src (world t)) as [[y'|e'] w2]; simpl in Hread;
      try discriminate.
    - injection Hread as <-.
      pose (s0 := set_registry (Some []) (set_world w1 s)).
      pose (t0 := set_registry (Some []) (set_world w2 t)).
      split; [|split].
      + exact (proj1 (related_register_all i j y s0 t0 eq_refl)).
      + exact (proj2 (related_register_all i j y s0 t0 eq_refl)).
      + intros <-.
        exact (proj2 (related_register_all_same i y s0 t0 eq_refl)).
    - injection Hread as <-. simpl. now rewrite Hs, Ht. }
  split; [|split; [|split]].
  - intros Hreg. split; [now apply ensure_registry_loaded with (reg := reg)|].
    split; [reflexivity|]. split; [exact Hreg|].
    now apply ensure_registry_loaded with (reg := reg).
  - now apply Htwice.
  - intros Hs Hss s1 Hread s2.
    assert (Hsrc1 : cls_source s1 = Some src).
    { subst s1. unfold ensure_registry, source_get, host. unfold_m.
      rewrite Hs, Hss.
      destruct (read_yaml src (world s)) as [[y|e] w1]; [|exact Hss].
      rewrite (register_all_source i y _ _ _ (surjective_pairing _)).
      exact Hss. }
    destruct (Htwice j i (set_registry None s1) s eq_refl Hs Hsrc1 Hss
                (eq_sym Hread)) as (Hout & Hdefs & Hsame).
    split; [exact Hout|]. split; [exact Hdefs|].
    intros Hij. apply Hsame. now symmetry.
  - intros Hp. unfold MetaBase.source_set. rewrite Hp. split.
    + intros Hcur. rewrite Hcur. now rewrite String.eqb_refl.
    + intros Hne. destruct (MetaBase._source c) as [cur|]; [|reflexivity].
      destruct (String.eqb_spec cur p) as [->|_]; [now destruct Hne|].
      reflexivity.
Qed.

End Build.

Import Sample.

Lemma all_category_overrides_witness :
  entry_of
    (cls_registry
       (snd (ensure_registry 7 (fresh [("modifiers.yml", pe_yaml)] None))))
    "PE32" "A"
  = Some (modifier_of 7 "A"
            (dict_pop "result"
               (with_defaults [("apply", VBool true)]
                  [("result", VDict [("PE32", VStr "keep");
                                     ("PE", VStr "none");
                                     ("All", VStr "fail")])]))
            (VStr "fail")).
Proof.
  refine (all_category_overrides 7
            (fresh [("modifiers.yml", pe_yaml)] None)
            (snd (ensure_registry 7 (fresh [("modifiers.yml", pe_yaml)] None)))
            "modifiers.yml" [("modifiers.yml", pe_yaml)]
            [("defaults", VDict [("apply", VBool true)]);
             ("A", VDict [("result", VDict [("PE32", VStr "keep");
                                            ("PE", VStr "none");
                                            ("All", VStr "fail")])])]
            [("apply", VBool true)] [] "A"
            [("result", VDict [("PE32", VStr "keep"); ("PE", VStr "none");
                               ("All", VStr "fail")])]
            []
            [("PE32", VStr "keep"); ("PE", VStr "none"); ("All", VStr "fail")]
            (VStr "fail") "PE32" _ _ _ _ _ _ _ _ _ _ _).
  1-5, 7-9, 11: vm_compute; reflexivity.
  - apply not_elem_of_nil.
  - apply (bool_decide_unpack _); vm_compute; exact I.
Defined.

(** C3 on a definitions file.  The modifier [A] gives the expression
    [keep] for the format PE32, [none] for the class PE and [fail] for
    [All].  The entry stored under PE32 is the one built from the
    expression of [All]; and without an expression for [All] it is the one
    built from the expression of the class PE.  The expression given for
    PE32 itself is used in neither case. *)
Theorem specific_definition_overridden :
  let built :=
    cls_registry
      (snd (ensure_registry 7 (fresh [("modifiers.yml", pe_yaml)] None))) in
  let built' :=
    cls_registry
      (snd (ensure_registry 7 (fresh [("modifiers.yml", pe_yaml')] None))) in
  entry_of built "PE32" "A"
  = Some [("name", VStr "A"); ("description", VStr "");
          ("result", VStr "fail"); ("apply", VBool true); ("loop", VNone);
          ("grid", VNone); ("parent", VObj 7)]
  /\ entry_of built' "PE32" "A"
     = Some [("name", VStr "A"); ("description", VStr "");
             ("result", VStr "none"); ("apply", VBool true); ("loop", VNone);
             ("grid", VNone); ("parent", VObj 7)].
Proof. split; vm_compute; reflexivity. Qed.

Lemma registry_memoized_witness :
  (ensure_registry 1 (loaded [good_a] None) = (Ok tt, loaded [good_a] None)
   /\ source_assign "other.yml" (loaded [good_a] None)
      = (Ok tt, set_source (Some "other.yml") (loaded [good_a] None))
   /\ cls_registry (set_source (Some "other.yml") (loaded [good_a] None))
      = Some [("PE32", [good_a])]
   /\ ensure_registry 2 (set_source (Some "other.yml") (loaded [good_a] None))
      = (Ok tt, set_source (Some "other.yml") (loaded [good_a] None)))
  /\ (fst (ensure_registry 1 (fresh [("modifiers.yml", pe_yaml)] None))
      = fst (ensure_registry 2
               (fresh [("notes.yml", VNone); ("modifiers.yml", pe_yaml)]
                      (Some ["A"])))
      /\ definitions
           (cls_registry
              (snd (ensure_registry 1
                      (fresh [("modifiers.yml", pe_yaml)] None))))
         = definitions
             (cls_registry
                (snd (ensure_registry 2
                        (fresh [("notes.yml", VNone);
                                ("modifiers.yml", pe_yaml)]
                               (Some ["A"]))))))
  /\ cls_registry
       (snd (ensure_registry 1 (fresh [("modifiers.yml", pe_yaml)] None)))
     = cls_registry
         (snd (ensure_registry 1
                 (fresh [("notes.yml", VNone); ("modifiers.yml", pe_yaml)]
                        (Some ["A"]))))
  /\ definitions
       (cls_registry
          (snd (ensure_registry 2
                  (set_registry None
                     (snd (ensure_registry 1
                             (fresh [("modifiers.yml", pe_yaml)] None)))))))
     = definitions
         (cls_registry
            (snd (ensure_registry 1
                    (fresh [("modifiers.yml", pe_yaml)] None))))
  /\ MetaBase.source_set Cases.meta_config None Cases.meta_built
     = (Ok tt, Cases.meta_built)
  /\ MetaBase.source_set Cases.meta_config (Some "other.yml") Cases.meta_built
     = (Ok tt, MetaBase.mkCls (Some "other.yml") None).
Proof.
  split; [|split; [|split; [|split; [|split]]]].
  - pose proof (registry_memoized 1 2 (loaded [good_a] None)
                  (loaded [good_a] None)
                  [("PE32", [good_a])] "modifiers.yml" "other.yml"
                  Cases.meta_config Cases.meta_built None "features.yml")
      as (Hmemo & _).
    exact (Hmemo eq_refl).
  - pose proof (registry_memoized 1 2
                  (fresh [("modifiers.yml", pe_yaml)] None)
                  (fresh [("notes.yml", VNone); ("modifiers.yml", pe_yaml)]
                         (Some ["A"]))
                  [] "modifiers.yml" "other.yml"
                  Cases.meta_config Cases.meta_built None "features.yml")
      as (_ & Htwice & _).
    refine ((fun Hboth => conj (proj1 Hboth) (proj1 (proj2 Hboth)))
              (Htwice _ _ _ _ _)); vm_compute; reflexivity.
  - pose proof (registry_memoized 1 1
                  (fresh [("modifiers.yml", pe_yaml)] None)
                  (fresh [("notes.yml", VNone); ("modifiers.yml", pe_yaml)]
                         (Some ["A"]))
                  [] "modifiers.yml" "other.yml"
                  Cases.meta_config Cases.meta_built None "features.yml")
      as (_ & Htwice & _).
    refine (proj2 (proj2 (Htwice _ _ _ _ _)) eq_refl); vm_compute; reflexivity.
  - pose proof (registry_memoized 1 2
                  (fresh [("modifiers.yml", pe_yaml)] None)
                  (fresh [("modifiers.yml", pe_yaml)] None)
                  [] "modifiers.yml" "other.yml"
                  Cases.meta_config Cases.meta_built None "features.yml")
      as (_ & _ & Hagain & _).
    refine (proj1 (proj2 (Hagain _ _ _))); vm_compute; reflexivity.
  - pose proof (registry_memoized 1 1 (loaded [good_a] None)
                  (loaded [good_a] None)
                  [] "modifiers.yml" "other.yml"
                  Cases.meta_config Cases.meta_built None "features.yml")
      as (_ & _ & _ & Hmeta).
    refine (proj1 (Hmeta _) _); reflexivity.
  - pose proof (registry_memoized 1 1 (loaded [good_a] None)
                  (loaded [good_a] None)
                  [] "modifiers.yml" "other.yml"
                  Cases.meta_config Cases.meta_built (Some "other.yml")
                  "other.yml")
      as (_ & _ & _ & Hmeta).
    refine (proj2 (Hmeta _) _); [reflexivity | discriminate].
Defined.

(** C5 on a built registry.  The registry holds what was read from
    [modifiers.yml].  Another path is then assigned to
    [Modifiers.source]; the file it names defines [A] otherwise.  The
    registry is not reset, the next [__init__] reads nothing and leaves
    it as it is, and it is not the registry that a build from the
    assigned path gives. *)
Theorem source_change_without_rebuild :
  let s := mkState [("other.yml", pe_yaml)] [] (Some "modifiers.yml")
                   (Some [("PE32", [good_a])]) None [] [] in
  let s1 := snd (source_assign "other.yml" s) in
  cls_source s = Some "modifiers.yml"
  /\ cls_source s1 = Some "other.yml"
  /\ cls_registry s1 = Some [("PE32", [good_a])]
  /\ ensure_registry 0 s1 = (Ok tt, s1)
  /\ entry_of (cls_registry (snd (ensure_registry 0 s1))) "PE32" "A"
     = Some (snd good_a)
  /\ entry_of
       (cls_registry
          (snd (ensure_registry 0
                  (mkState [("other.yml", pe_yaml)] [] (Some "other.yml")
                           None None [] []))))
       "PE32" "A"
     = Some [("name", VStr "A"); ("description", VStr "");
             ("result", VStr "fail"); ("apply", VBool true); ("loop", VNone);
             ("grid", VNone); ("parent", VObj 0)]
  /\ snd good_a
     <> [("name", VStr "A"); ("description", VStr "");
         ("result", VStr "fail"); ("apply", VBool true); ("loop", VNone);
         ("grid", VNone); ("parent", VObj 0)].
Proof.
  repeat split; try (vm_compute; reflexivity). discriminate.
Qed.

(** Two builds of the same file by two instances: the items differ by
    their [parent] only. *)
Example two_builds :
  entry_of
    (cls_registry
       (snd (ensure_registry 1 (fresh [("modifiers.yml", pe_yaml')] None))))
    "PE64" "A"
  = Some [("name", VStr "A"); ("description", VStr "");
          ("result", VStr "none"); ("apply", VBool true); ("loop", VNone);
          ("grid", VNone); ("parent", VObj 1)]
  /\ entry_of
       (cls_registry
          (snd (ensure_registry 2 (fresh [("modifiers.yml", pe_yaml')] None))))
       "PE64" "A"
     = Some [("name", VStr "A"); ("description", VStr "");
             ("result", VStr "none"); ("apply", VBool true); ("loop", VNone);
             ("grid", VNone); ("parent", VObj 2)].
Proof. split; vm_compute; reflexivity. Qed.

End RegistryFacts.

(** ** More on dictionaries *)

Module DictMore.
Import PyFacts.

Lemma dict_keys_set_new {V} (k : string) (v : V) (d : list (string * V)) :
  dict_get k d = None -> dict_keys (dict_set k v d) = dict_keys d ++ [k].
Proof.
  induction d as [|[k0 v0] d IH]; simpl; [reflexivity|].
  destruct (String.eqb k k0); [discriminate|]. intros Hk. simpl.
  now rewrite IH.
Qed.

Lemma dict_set_same {V} (k : string) (v : V) (d : list (string * V)) :
  dict_get k d = Some v -> dict_set k v d = d.
Proof.
  induction d as [|[k0 v0] d IH]; simpl; [discriminate|].
  destruct (String.eqb_spec k k0) as [->|Hne].
  - now intros [= ->].
  - intros Hk. now rewrite IH.
Qed.

Lemma dict_set_set {V} (k : string) (v v' : V) (d : list (string * V)) :
  dict_set k v' (dict_set k v d) = dict_set k v' d.
Proof.
  induction d as [|[k0 v0] d IH]; simpl.
  - now rewrite String.eqb_refl.
  - destruct (String.eqb_spec k k0) as [->|Hne]; simpl.
    + now rewrite String.eqb_refl.
    + destruct (String.eqb_spec k k0); [congruence|]. now rewrite IH.
Qed.

Lemma dict_get_fill_plain {V} (k : string) (defaults : list (string * V)) :
  forall params,
    dict_get k (fold_left (fun acc dv => dict_setdefault (fst dv) (snd dv) acc)
                          defaults params)
    = match dict_get k params with
      | Some x => Some x
      | None => dict_get k defaults
      end.
Proof.
  induction defaults as [|[d v] defaults IH]; intros params; simpl.
  - now destruct (dict_get k params).
  - rewrite IH, dict_get_setdefault.
    destruct (dict_get k params); [reflexivity|].
    now destruct (String.eqb k d).
Qed.

Lemma dict_get_pop_eq {V} (k : string) (d : list (string * V)) :
  NoDup (dict_keys d) -> dict_get k (dict_pop k d) = None.
Proof.
  induction d as [|[k0 v0] d IH]; intros Hnd; [reflexivity|].
  simpl in Hnd. apply NoDup_cons in Hnd as [Hk0 Hnd]. simpl.
  destruct (String.eqb_spec k k0) as [->|Hne0].
  - now apply dict_get_None.
  - simpl. destruct (String.eqb_spec k k0); [congruence|]. now apply IH.
Qed.

Lemma str_in_app c l1 l2 : str_in c (l1 ++ l2) = str_in c l1 || str_in c l2.
Proof. apply existsb_app. Qed.

Lemma res_fold_app {A B} (f : B -> A -> res B) (l1 l2 : list A) (acc : B) :
  res_fold f (l1 ++ l2) acc
  = match res_fold f l1 acc with
    | Ok acc' => res_fold f l2 acc'
    | Raise e => Raise e
    end.
Proof.
  revert acc. induction l1 as [|x l1 IH]; intros acc; simpl; [reflexivity|].
  destruct (f acc x); [apply IH | reflexivity].
Qed.

End DictMore.

(** ** Helper functions *)

Module HelpersFacts.
Import Helpers.

Lemma concat_repeat_length {A} (s : list A) (k : nat) :
  length (concat (repeat s k)) = k * length s.
Proof.
  induction k as [|k IH]; simpl; [reflexivity|].
  rewrite length_app, IH. reflexivity.
Qed.

Lemma concat_repeat_nth {A} (s : list A) (k i : nat) :
  i < k * length s ->
  nth_error (concat (repeat s k)) i = nth_error s (i mod length s).
Proof.
  revert i. induction k as [|k IH]; intros i Hi; simpl in *; [lia|].
  destruct (Nat.lt_ge_cases i (length s)) as [Hlt|Hge].
  - rewrite nth_error_app1 by exact Hlt. now rewrite Nat.mod_small.
  - rewrite nth_error_app2 by exact Hge. rewrite IH by lia.
    f_equal.
    replace i with ((i - length s) + 1 * length s) at 2 by lia.
    rewrite Nat.Div0.mod_add. reflexivity.
Qed.

(** X1.  [_repeatn] repeats a sequence up to a length.  On an empty sequence
    it fails on a division by zero.  Otherwise a length that is not
    positive gives the empty sequence, and a length [n] gives [n] elements,
    the one of index [i] being the element of index [i mod len(s)] of the
    sequence. *)
Theorem repeatn_cycles {A} (s : list A) (n : Z) :
  (s = [] -> _repeatn s n = Raise ZeroDivisionError)
  /\ (s <> [] -> (n <= 0)%Z -> _repeatn s n = Ok [])
  /\ (s <> [] -> (0 <= n)%Z ->
      exists r, _repeatn s n = Ok r
                /\ Z.of_nat (length r) = n
                /\ forall i, i < length r ->
                             nth_error r i = nth_error s (i mod length s)).
Proof.
  unfold _repeatn. split; [intros ->; reflexivity|].
  assert (Hlen : s <> [] -> (0 < Z.of_nat (length s))%Z).
  { destruct s; [congruence | simpl; lia]. }
  split.
  - intros Hs Hn. specialize (Hlen Hs).
    destruct (Z.eqb_spec (Z.of_nat (length s)) 0) as [|_]; [lia|].
    f_equal. unfold slice_to, seq_mul.
    destruct (Z.leb_spec 0 n) as [H0|H0].
    + assert (n = 0%Z) as -> by lia. reflexivity.
    + assert (n / Z.of_nat (length s) < 0)%Z
        by (apply Z.div_lt_upper_bound; lia).
      replace (Z.to_nat _) with 0 by lia. reflexivity.
  - intros Hs Hn. specialize (Hlen Hs).
    destruct (Z.eqb_spec (Z.of_nat (length s)) 0) as [|_]; [lia|].
    eexists. split; [reflexivity|].
    unfold slice_to, seq_mul.
    destruct (Z.leb_spec 0 n) as [_|]; [|lia].
    set (len := Z.of_nat (length s)) in *.
    assert (Hk : (n < (n / len + 1) * len)%Z).
    { pose proof (Z.mul_succ_div_gt n len Hlen). lia. }
    assert (Hk' : Z.to_nat n < Z.to_nat (n / len + 1) * length s).
    { assert (0 <= n / len)%Z by (apply Z.div_pos; lia). subst len. nia. }
    rewrite length_firstn, concat_repeat_length.
    split; [lia|].
    intros i Hi. rewrite nth_error_firstn.
    destruct (Nat.ltb_spec i (Z.to_nat n)); [|lia].
    apply concat_repeat_nth. lia.
Qed.

Section MinMaxFacts.
Variable better : pyval -> pyval -> res bool.
Variable rel : pyval -> pyval -> bool.
Hypothesis rel_asym : forall x y, rel x y = true -> rel y x = false.
Hypothesis rel_trans :
  forall x y z, rel x y = true -> rel y z = true -> rel x z = true.

Lemma not_none_spec (l : list pyval) x :
  x ∈ not_none l <-> x ∈ l /\ x <> VNone.
Proof.
  unfold not_none. rewrite !list_elem_of_In, filter_In.
  destruct x; split; intros [? ?]; split;
    try congruence; try discriminate; auto.
Qed.

Lemma rel_irrefl x : rel x x = false.
Proof.
  destruct (rel x x) eqn:E; [|reflexivity].
  now rewrite (rel_asym _ _ E) in E.
Qed.

Lemma extremum_from_spec (P : pyval -> Prop) (l : list pyval) :
  (forall x y, P x -> P y -> better x y = Ok (rel x y)) ->
  forall cur seen,
    P cur -> Forall P l ->
    (forall x, x ∈ seen -> rel x cur = false) ->
    exists m, extremum_from better cur l = Ok m
              /\ m ∈ cur :: l
              /\ forall x, x ∈ seen ++ cur :: l -> rel x m = false.
Proof.
  intros Hb. induction l as [|y l IH]; intros cur seen Hcur Hl Hseen; simpl.
  - exists cur. repeat split; [left|].
    intros x Hx. apply elem_of_app in Hx as [Hx|Hx]; [auto|].
    apply list_elem_of_singleton in Hx as ->. apply rel_irrefl.
  - inversion Hl as [|? ? Hy Hl']; subst.
    rewrite (Hb y cur Hy Hcur). simpl.
    destruct (rel y cur) eqn:E.
    + destruct (IH y (seen ++ [cur]) Hy Hl') as (m & -> & Hin & Hall).
      { intros x Hx. apply elem_of_app in Hx as [Hx|Hx].
        - destruct (rel x y) eqn:E2; [|reflexivity].
          pose proof (Hseen x Hx) as Hs.
          now rewrite (rel_trans _ _ _ E2 E) in Hs.
        - apply list_elem_of_singleton in Hx as ->. now apply rel_asym. }
      exists m. split; [reflexivity|]. split; [now right|].
      intros x Hx. apply Hall. now rewrite <- app_assoc.
    + destruct (IH cur (seen ++ [y]) Hcur Hl') as (m & -> & Hin & Hall).
      { intros x Hx. apply elem_of_app in Hx as [Hx|Hx]; [auto|].
        now apply list_elem_of_singleton in Hx as ->. }
      exists m. split; [reflexivity|]. split.
      { apply elem_of_cons in Hin as [->|Hin]; [left | right; now right]. }
      intros x Hx. apply Hall.
      rewrite !elem_of_app, !elem_of_cons in Hx.
      rewrite !elem_of_app, !elem_of_cons, elem_of_nil. tauto.
Qed.

(** X2.  [_max] and [_min] skip the [None] entries.  Without any other entry
    the answer is [None], an empty list included, and nothing is
    compared.  Otherwise, the comparison being a strict order on the
    entries, the answer is an entry that no entry beats. *)
Theorem extremum_ignores_none (l : list pyval) :
  (Forall (fun x => x = VNone) l -> _extremum better l = Ok VNone)
  /\ ((forall x y, x ∈ l -> y ∈ l -> x <> VNone -> y <> VNone ->
                   better x y = Ok (rel x y)) ->
      Exists (fun x => x <> VNone) l ->
      exists m, _extremum better l = Ok m
                /\ m ∈ l /\ m <> VNone
                /\ forall x, x ∈ l -> x <> VNone -> rel x m = false).
Proof.
  unfold _extremum. split.
  - intros Hall. replace (not_none l) with (@nil pyval); [reflexivity|].
    symmetry. induction Hall as [|x l -> _ IH]; simpl; auto.
  - intros Hb Hex. destruct (not_none l) as [|c l2] eqn:E.
    + apply Exists_exists in Hex as (x & Hx & Hnn).
      assert (Hin : x ∈ not_none l) by now apply not_none_spec.
      rewrite E in Hin. inversion Hin.
    + assert (Hc : c ∈ not_none l) by (rewrite E; left).
      apply not_none_spec in Hc.
      assert (Hl2 : Forall (fun x => x ∈ l /\ x <> VNone) l2).
      { apply Forall_forall. intros x Hx. apply not_none_spec.
        rewrite E. now right. }
      destruct (extremum_from_spec (fun x => x ∈ l /\ x <> VNone) l2)
        with (cur := c) (seen := @nil pyval) as (m & -> & Hin & Hall);
        auto.
      { intros x y [] []. now apply Hb. }
      { intros x Hx. inversion Hx. }
      assert (Hm : m ∈ not_none l) by now rewrite E.
      apply not_none_spec in Hm as [Hml Hmn].
      exists m. repeat split; auto.
      intros x Hx Hxn.
      assert (Hx' : x ∈ not_none l) by now apply not_none_spec.
      rewrite E in Hx'. apply Hall. exact Hx'.
Qed.

End MinMaxFacts.

Section SelectFacts.
Context {A R : Type}.
Variable eqb : A -> A -> bool.
Variable apply_func : option (A -> A).
Variable random_choice : list A -> list A -> R.
Hypothesis eqb_refl : forall x, eqb x x = true.

Lemma elem_in_elem (x : A) (l : list A) : x ∈ l -> elem_in eqb x l = true.
Proof.
  intros Hx. unfold elem_in. apply existsb_exists. exists x.
  split; [now apply list_elem_of_In | apply eqb_refl].
Qed.

Lemma find_ext_elem (f g : A -> bool) (l : list A) :
  (forall x, x ∈ l -> f x = g x) -> find f l = find g l.
Proof.
  induction l as [|a l IH]; intros Hfg; simpl; [reflexivity|].
  rewrite <- (Hfg a) by left. destruct (f a); [reflexivity|].
  apply IH. intros x Hx. apply Hfg. now right.
Qed.

(** X3.  What [select] and [select_section_name] return.  An element taken
    from the list is never an excluded one and, when inclusions are given,
    is one of them.  Without inclusions it is the first element of the
    list that is not excluded.  The random list is used only when the
    list has no such element. *)
Theorem select_first_allowed (lst rlst inc exc : list A) :
  let lst' := _map apply_func lst in
  let exc' := _map apply_func exc in
  let fallback := random_choice (_map apply_func rlst) exc' in
  (forall x,
      _wrapper eqb apply_func random_choice lst rlst inc exc = inl x ->
      x ∈ lst' /\ elem_in eqb x exc' = false
      /\ (inc <> [] -> elem_in eqb x (_map apply_func inc) = true))
  /\ (inc = [] ->
      _wrapper eqb apply_func random_choice lst rlst inc exc
      = match find (fun x => negb (elem_in eqb x exc')) lst' with
        | Some x => inl x
        | None => inr fallback
        end)
  /\ (Forall (fun x => elem_in eqb x exc' = true) lst' ->
      _wrapper eqb apply_func random_choice lst rlst inc exc
      = inr fallback).
Proof.
  intros lst' exc' fallback. unfold _wrapper. fold lst' exc'.
  split; [|split].
  - intros x Hx.
    destruct (find _ lst') as [y|] eqn:E; [|discriminate].
    injection Hx as ->. apply find_some in E as [Hin Hok].
    apply negb_true_iff, orb_false_iff in Hok as [Hexc Hinc].
    apply negb_false_iff in Hinc.
    split; [now apply list_elem_of_In|]. split; [exact Hexc|].
    intros Hne. destruct (_map apply_func inc) eqn:Ei; [|exact Hinc].
    exfalso. apply Hne. unfold _map in Ei.
    destruct apply_func; [now apply map_eq_nil in Ei | exact Ei].
  - intros ->.
    assert (Hnil : _map apply_func [] = [])
      by (unfold _map; now destruct apply_func).
    rewrite Hnil.
    rewrite (find_ext_elem _ (fun x => negb (elem_in eqb x exc')));
      [reflexivity|].
    intros x Hx.
    rewrite (elem_in_elem x (lst' ++ _)) by (apply elem_of_app; now left).
    simpl. now rewrite orb_false_r.
  - intros Hall.
    destruct (find _ lst') as [y|] eqn:E; [|reflexivity].
    apply find_some in E as [Hin Hok].
    apply list_elem_of_In in Hin.
    rewrite Forall_forall in Hall. rewrite (Hall y Hin) in Hok. discriminate.
Qed.

End SelectFacts.

End HelpersFacts.

(** ** Names of a registry *)

Module NamesFacts.
Import Names PyFacts EffFacts Modifiers ModifiersFacts.

(** *** The order of strings *)

Lemma ascii_compare_lt_trans a b c :
  Ascii.compare a b = Lt -> Ascii.compare b c = Lt -> Ascii.compare a c = Lt.
Proof.
  unfold Ascii.compare. rewrite !N.compare_lt_iff. lia.
Qed.

Lemma ascii_compare_refl a : Ascii.compare a a = Eq.
Proof. unfold Ascii.compare. apply N.compare_refl. Qed.

Lemma str_lt_trans s1 : forall s2 s3,
  str_lt s1 s2 = true -> str_lt s2 s3 = true -> str_lt s1 s3 = true.
Proof.
  unfold str_lt.
  induction s1 as [|a s1 IH]; intros [|b s2] [|c s3]; simpl;
    try discriminate; try reflexivity.
  destruct (Ascii.compare a b) eqn:Eab; try discriminate;
    destruct (Ascii.compare b c) eqn:Ebc; try discriminate.
  - apply Ascii.compare_eq_iff in Eab, Ebc. subst.
    rewrite ascii_compare_refl. apply IH.
  - apply Ascii.compare_eq_iff in Eab. subst. now rewrite Ebc.
  - apply Ascii.compare_eq_iff in Ebc. subst. now rewrite Eab.
  - now rewrite (ascii_compare_lt_trans _ _ _ Eab Ebc).
Qed.

Lemma str_lt_total s1 s2 :
  str_lt s1 s2 = false -> s1 = s2 \/ str_lt s2 s1 = true.
Proof.
  unfold str_lt. rewrite (String.compare_antisym s2 s1).
  destruct (String.compare s1 s2) eqn:E; simpl; try discriminate; auto.
  left. now apply String.compare_eq_iff.
Qed.

Lemma str_lt_irrefl s : str_lt s s = false.
Proof.
  unfold str_lt. induction s as [|a s IH]; simpl; [reflexivity|].
  now rewrite ascii_compare_refl.
Qed.

Lemma insert_sorted_elem x l y :
  y ∈ insert_sorted x l <-> y = x \/ y ∈ l.
Proof.
  induction l as [|z l IH]; simpl.
  - rewrite list_elem_of_singleton, elem_of_nil. tauto.
  - destruct (str_lt x z); rewrite !elem_of_cons; [tauto|].
    rewrite IH. tauto.
Qed.

Lemma insert_sorted_increasing x l :
  increasing l -> x ∉ l -> increasing (insert_sorted x l).
Proof.
  unfold increasing. induction l as [|z l IH]; intros Hl Hx; simpl.
  - repeat constructor.
  - inversion Hl as [|? ? Hl' Hz]; subst.
    destruct (str_lt x z) eqn:E.
    + constructor; [exact Hl|]. constructor; [exact E|].
      eapply Forall_impl; [exact Hz|]. intros w Hw. simpl in Hw.
      eapply str_lt_trans; eassumption.
    + constructor.
      * apply IH; [exact Hl'|]. intros Hin. apply Hx. now right.
      * apply Forall_forall. intros w Hw.
        apply insert_sorted_elem in Hw as [->|Hw].
        -- destruct (str_lt_total _ _ E) as [->|Hlt]; [|exact Hlt].
           exfalso. apply Hx. left.
        -- rewrite Forall_forall in Hz. now apply Hz.
Qed.

Lemma py_sorted_spec l :
  NoDup l ->
  increasing (py_sorted l) /\ forall x, x ∈ py_sorted l <-> x ∈ l.
Proof.
  unfold py_sorted.
  assert (Hgen : forall acc, increasing acc -> NoDup l ->
            (forall x, x ∈ l -> x ∉ acc) ->
            increasing (fold_left (fun acc x => insert_sorted x acc) l acc)
            /\ forall x,
                 x ∈ fold_left (fun acc x => insert_sorted x acc) l acc
                 <-> x ∈ acc \/ x ∈ l).
  { induction l as [|y l IH]; intros acc Hacc Hnd Hdis; simpl.
    - split; [exact Hacc|]. intros x. rewrite elem_of_nil. tauto.
    - apply NoDup_cons in Hnd as [Hy Hl].
      destruct (IH (insert_sorted y acc)) as [Hinc Hmem]; auto.
      { apply insert_sorted_increasing; [exact Hacc|]. apply Hdis. left. }
      { intros x Hx Hin. apply insert_sorted_elem in Hin as [->|Hin];
          [contradiction|]. apply (Hdis x); [now right | exact Hin]. }
      split; [exact Hinc|]. intros x. rewrite Hmem.
      rewrite insert_sorted_elem, elem_of_cons. tauto. }
  intros Hnd. destruct (Hgen [] (SSorted_nil _) Hnd) as [Hinc Hmem].
  { intros x _ Hx. inversion Hx. }
  split; [exact Hinc|]. intros x. rewrite Hmem, elem_of_nil. tauto.
Qed.

Lemma append_new_spec temp name :
  NoDup temp ->
  NoDup (append_new temp name)
  /\ forall x, x ∈ append_new temp name <-> x ∈ temp \/ x = name.
Proof.
  intros Hnd. unfold append_new.
  destruct (str_in name temp) eqn:E.
  - split; [exact Hnd|]. intros x. split; [tauto|].
    intros [Hx| ->]; [exact Hx | now apply str_in_spec].
  - split.
    + apply NoDup_app. split; [exact Hnd|]. split; [|apply NoDup_singleton].
      intros x Hx Hx'. apply list_elem_of_singleton in Hx' as ->.
      apply str_in_spec in Hx. congruence.
    + intros x. now rewrite elem_of_app, list_elem_of_singleton.
Qed.

Lemma append_all_spec l : forall temp,
  NoDup temp ->
  NoDup (fold_left append_new l temp)
  /\ forall x, x ∈ fold_left append_new l temp <-> x ∈ temp \/ x ∈ l.
Proof.
  induction l as [|y l IH]; intros temp Hnd; simpl.
  - split; [exact Hnd|]. intros x. rewrite elem_of_nil. tauto.
  - destruct (append_new_spec temp y Hnd) as [Hnd1 Hmem1].
    destruct (IH _ Hnd1) as [Hnd2 Hmem2].
    split; [exact Hnd2|]. intros x.
    rewrite Hmem2, Hmem1, elem_of_cons. tauto.
Qed.

Lemma py_set_spec l :
  NoDup (py_set l) /\ forall x, x ∈ py_set l <-> x ∈ l.
Proof.
  destruct (append_all_spec l [] (NoDup_nil_2)) as [Hnd Hmem].
  split; [exact Hnd|]. intros x. unfold py_set. rewrite Hmem, elem_of_nil.
  tauto.
Qed.

(** *** [MetaBase.__iter__] *)

Lemma str_in_singleton (x y : string) : str_in x [y] = String.eqb x y.
Proof. unfold str_in. simpl. apply orb_false_r. Qed.

Lemma filter_filter_absorb (y : string) (temp l : list string) :
  str_in y temp = true ->
  List.filter (fun n => negb (str_in n temp))
              (List.filter (fun n => negb (str_in n [y])) l)
  = List.filter (fun n => negb (str_in n temp)) l.
Proof.
  intros Hy. induction l as [|x l IH]; [reflexivity|].
  cbn [List.filter]. rewrite str_in_singleton.
  destruct (String.eqb_spec x y) as [->|Hne]; cbn [negb List.filter].
  - rewrite Hy. cbn [negb]. exact IH.
  - now rewrite IH.
Qed.

Lemma filter_filter_snoc (y : string) (temp l : list string) :
  List.filter (fun n => negb (str_in n temp))
              (List.filter (fun n => negb (str_in n [y])) l)
  = List.filter (fun n => negb (str_in n (temp ++ [y]))) l.
Proof.
  induction l as [|x l IH]; [reflexivity|].
  cbn [List.filter]. rewrite str_in_singleton.
  assert (Hx : str_in x (temp ++ [y]) = str_in x temp || String.eqb x y).
  { unfold str_in. rewrite existsb_app. simpl. now rewrite orb_false_r. }
  rewrite Hx.
  destruct (String.eqb x y); cbn [negb List.filter].
  - rewrite orb_true_r. cbn [negb]. exact IH.
  - rewrite orb_false_r. destruct (str_in x temp); cbn [negb]; now rewrite IH.
Qed.

Lemma append_all_filter l : forall temp,
  fold_left append_new l temp
  = temp ++ List.filter (fun n => negb (str_in n temp))
                        (fold_left append_new l []).
Proof.
  induction l as [|y l IH]; intros temp; cbn [fold_left].
  - cbn [List.filter]. now rewrite app_nil_r.
  - rewrite (IH (append_new temp y)), (IH (append_new [] y)).
    change (append_new [] y) with [y]. cbn [app].
    cbn [List.filter]. unfold append_new.
    destruct (str_in y temp) eqn:E; cbn [negb].
    + f_equal. symmetry. now apply filter_filter_absorb.
    + rewrite <- app_assoc. cbn [app]. do 2 f_equal.
      symmetry. apply filter_filter_snoc.
Qed.

Lemma iter_names_flat {V} (registry : list (string * list (string * V))) :
  forall temp,
    fold_left (fun temp base =>
                 fold_left append_new (dict_keys (snd base)) temp)
              registry temp
    = fold_left append_new
                (concat (map (fun base => dict_keys (snd base)) registry))
                temp.
Proof.
  induction registry as [|base registry IH]; intros temp; simpl.
  - reflexivity.
  - now rewrite IH, fold_left_app.
Qed.

(** X4.  The names yielded by the iteration over a registry class are pairwise
    distinct; they are the names that some category holds; and going
    through further categories adds, after the names yielded so far,
    those that are new. *)
Theorem iter_names_distinct {V} (r1 r2 : list (string * list (string * V))) :
  NoDup (iter_names (r1 ++ r2))
  /\ (forall n, n ∈ iter_names r1
                <-> exists c items, (c, items) ∈ r1 /\ n ∈ dict_keys items)
  /\ iter_names (r1 ++ r2)
     = iter_names r1
       ++ List.filter (fun n => negb (str_in n (iter_names r1)))
                      (iter_names r2).
Proof.
  unfold iter_names. rewrite !iter_names_flat. split; [|split].
  - apply append_all_spec. constructor.
  - intros n.
    destruct (append_all_spec
                (concat (map (fun base => dict_keys (snd base)) r1)) []
                (NoDup_nil_2)) as [_ Hmem].
    rewrite Hmem, elem_of_nil. split.
    + intros [[]|Hn]. apply list_elem_of_In, in_concat in Hn
        as (ks & Hks & Hn).
      apply in_map_iff in Hks as ([c items] & <- & Hin).
      exists c, items. split; now apply list_elem_of_In.
    + intros (c & items & Hin & Hn). right.
      apply list_elem_of_In, in_concat. exists (dict_keys items).
      split; [|now apply list_elem_of_In].
      apply in_map_iff. exists (c, items).
      split; [reflexivity | now apply list_elem_of_In].
  - rewrite map_app, concat_app, fold_left_app. apply append_all_filter.
Qed.

(** *** [Modifiers.names] *)

Section NamesOf.
Context {W : Type} `{Host W}.
Implicit Types (s : state W).

(** Without executable and without selection, [__init__] stops once the
    registry is there. *)
Lemma init_registry_only self_id warn s :
  select_obj s = None ->
  init self_id None warn s = ensure_registry self_id s.
Proof.
  intros Hsel. unfold init. unfold_m.
  destruct (ensure_registry self_id s) as [[[]|e] s1] eqn:E; [|reflexivity].
  apply (ensure_registry_keeps select_obj self_id silent_select
           (fun _ _ => eq_refl) (fun _ _ => eq_refl)) in E.
  unfold keeps in E. unfold check_selection, run. unfold_m.
  rewrite E, Hsel. reflexivity.
Qed.

Lemma ensure_registry_some self_id s s' :
  ensure_registry self_id s = (Ok tt, s') -> cls_registry s' <> None.
Proof.
  unfold ensure_registry, source_get, host. unfold_m.
  destruct (cls_registry s) eqn:Hreg.
  - intros [= <-]. now rewrite Hreg.
  - assert (Hpre : forall y, preserves
                     (fun s1 s2 : state W =>
                        cls_registry s1 <> None -> cls_registry s2 <> None)
                     (register_all self_id y)).
    { intros y.
      assert (PreOrder (fun s1 s2 : state W =>
                          cls_registry s1 <> None -> cls_registry s2 <> None))
        by (split; [intros ? ? | intros ? ? ? ? ? ?]; auto).
      unfold register_all, register_item, item_params, register_category,
        as_dict, with_registry.
      frame_using ltac:(apply preserves_modify; try apply _;
                        intros ? ?; discriminate). }
    destruct (cls_source s).
    + destruct (read_yaml _ _) as [[y|e] w]; [|discriminate].
      intros Hrun. apply Hpre in Hrun. apply Hrun. discriminate.
    + cbn [world set_registry set_source].
      destruct (read_yaml _ _) as [[y|e] w]; [|discriminate].
      intros Hrun. apply Hpre in Hrun. apply Hrun. discriminate.
Qed.

(** The instance made by [names] leaves the caller's selection, the
    applied names and the binary alone. *)
Lemma force_registry_frame self_id s r s' :
  force_registry self_id s = (r, s') ->
  select_obj s' = select_obj s /\ applied s' = applied s
  /\ trace s' = trace s
  /\ (r = Ok tt -> cls_registry s' <> None).
Proof.
  unfold force_registry. rewrite init_registry_only by reflexivity.
  destruct (ensure_registry self_id _) as [r0 s0] eqn:E.
  intros [= <- <-]. repeat split.
  - apply (ensure_registry_keeps trace self_id silent_trace
             (fun _ _ => eq_refl) (fun _ _ => eq_refl)) in E. exact E.
  - intros ->. apply ensure_registry_some in E. exact E.
Qed.

Lemma category_keys_loaded c s reg :
  cls_registry s = Some reg ->
  category_keys c s
  = (match dict_get c reg with
     | Some items => Ok (dict_keys items)
     | None => Raise (KeyError c)
     end, s).
Proof.
  intros Hreg. unfold category_keys. unfold_m. rewrite Hreg.
  now destruct (dict_get c reg).
Qed.

Lemma map_category_keys cs s reg r s' :
  cls_registry s = Some reg ->
  map_m category_keys cs s = (r, s') ->
  s' = s
  /\ forall ks, r = Ok ks ->
       forall n, n ∈ concat ks
                 <-> exists c items, c ∈ cs /\ dict_get c reg = Some items
                                     /\ n ∈ dict_keys items.
Proof.
  intros Hreg. revert r s'. induction cs as [|c cs IH]; intros r s'; simpl.
  - unfold_m. intros [= <- <-]. split; [reflexivity|].
    intros ks [= <-] n. simpl. rewrite elem_of_nil. split; [tauto|].
    intros (c & items & Hc & _). inversion Hc.
  - unfold_m. rewrite (category_keys_loaded c s reg Hreg).
    destruct (dict_get c reg) as [items|] eqn:Ec.
    + destruct (map_m category_keys cs s) as [[ks0|e] s0] eqn:E.
      * destruct (IH _ _ eq_refl) as [-> Hks]. intros [= <- <-].
        split; [reflexivity|]. intros ks [= <-] n. simpl.
        rewrite elem_of_app, (Hks ks0 eq_refl n). split.
        -- intros [Hn|(c' & items' & Hc' & Hget & Hn)].
           ++ exists c, items. split; [left | now split].
           ++ exists c', items'. split; [now right | now split].
        -- intros (c' & items' & Hc' & Hget & Hn).
           apply elem_of_cons in Hc' as [->|Hc'].
           ++ left. congruence.
           ++ right. now exists c', items'.
      * destruct (IH _ _ eq_refl) as [-> _]. intros [= <- <-].
        split; [reflexivity | discriminate].
    + intros [= <- <-]. split; [reflexivity | discriminate].
Qed.

(** X5.  [Modifiers.names(format)] gives, in increasing order and without
    repetition, the names that the registry holds for the formats that
    [format] expands to.  The call leaves the binary, the caller's
    selection and the applied names alone. *)
Theorem names_sorted self_id format s l s' :
  names self_id format s = (Ok l, s') ->
  increasing l
  /\ (exists reg,
         cls_registry s' = Some reg
         /\ forall n, n ∈ l
                      <-> exists c items,
                            c ∈ expand_formats format
                            /\ dict_get c reg = Some items
                            /\ n ∈ dict_keys items)
  /\ trace s' = trace s /\ applied s' = applied s
  /\ select_obj s' = select_obj s.
Proof.
  unfold names. unfold_m.
  destruct (force_registry self_id s) as [[[]|e] s1] eqn:Ef; [|discriminate].
  destruct (force_registry_frame _ _ _ _ Ef) as (Hsel & Happ & Htr & Hreg).
  destruct (cls_registry s1) as [reg|] eqn:Ereg; [|now destruct Hreg].
  destruct (map_m category_keys (expand_formats format) s1)
    as [[ks|e] s2] eqn:Em; [|discriminate].
  destruct (map_category_keys _ _ _ _ _ Ereg Em) as [-> Hks].
  specialize (Hks ks eq_refl). intros [= <- <-].
  destruct (py_set_spec (concat ks)) as [Hnd Hset].
  destruct (py_sorted_spec _ Hnd) as [Hinc Hsorted].
  split; [exact Hinc|]. split; [|now repeat split].
  exists reg. split; [exact Ereg|]. intros n.
  now rewrite Hsorted, Hset, Hks.
Qed.

(** X6.  When a format that [format] expands to has no entry in the registry,
    because no modifier is defined for it, [names] raises [KeyError] for
    the first such format. *)
Theorem names_missing_format self_id format s s1 reg pre c post :
  force_registry self_id s = (Ok tt, s1) ->
  cls_registry s1 = Some reg ->
  expand_formats format = pre ++ c :: post ->
  Forall (fun c' => dict_mem c' reg = true) pre ->
  dict_get c reg = None ->
  names self_id format s = (Raise (KeyError c), s1).
Proof.
  intros Hf Hreg Hexp Hpre Hc. unfold names. unfold_m. rewrite Hf, Hexp.
  assert (Hok : exists ks, map_m category_keys pre s1 = (Ok ks, s1)).
  { clear Hexp. induction Hpre as [|c' pre Hc' _ [ks IH]]; simpl.
    - now exists [].
    - unfold_m. rewrite (category_keys_loaded c' s1 reg Hreg).
      unfold dict_mem in Hc'. destruct (dict_get c' reg) as [items|];
        [|discriminate].
      rewrite IH. now eexists. }
  destruct Hok as [ks Hok].
  rewrite (map_m_raise category_keys pre c post s1 ks s1 (KeyError c) s1);
    [reflexivity | exact Hok |].
  rewrite (category_keys_loaded c s1 reg Hreg). now rewrite Hc.
Qed.

End NamesOf.

End NamesFacts.

(** ** More on the pipeline *)

Module PipelineFacts.
Import Views PyFacts DictMore EffFacts Modifiers ModifiersFacts RegistryFacts.

Section Pipeline.
Context {W : Type} `{Host W}.
Implicit Types (s : state W) (exe : executable).

(** *** The selection check in strict mode *)



(** *** No executable *)

(** X8.  Without an executable, [__init__] does no more than make sure that
    the registry is there, provided no name is selected; with a non-empty
    selection it fails on [exe.format], in strict and in lenient mode
    alike. *)
Theorem init_without_executable self_id warn s :
  (select_obj s = None \/ select_obj s = Some [] ->
   init self_id None warn s = ensure_registry self_id s)
  /\ (forall n l s1,
         select_obj s = Some (n :: l) ->
         ensure_registry self_id s = (Ok tt, s1) ->
         init self_id None warn s
         = (Raise (AttributeError
                     "'NoneType' object has no attribute 'format'"), s1)).
Proof.
  split.
  - intros Hsel. unfold init. unfold_m.
    destruct (ensure_registry self_id s) as [[[]|e] s1] eqn:E; [|reflexivity].
    apply (ensure_registry_keeps select_obj self_id silent_select
             (fun _ _ => eq_refl) (fun _ _ => eq_refl)) in E.
    unfold keeps in E. unfold check_selection, run. unfold_m. rewrite E.
    destruct Hsel as [-> | ->]; reflexivity.
  - intros n l s1 Hsel Hens. unfold init. unfold_m. rewrite Hens.
    apply (ensure_registry_keeps select_obj self_id silent_select
             (fun _ _ => eq_refl) (fun _ _ => eq_refl)) in Hens.
    unfold keeps in Hens. rewrite <- Hens in Hsel.
    unfold check_selection. unfold_m. rewrite Hsel. reflexivity.
Qed.

(** *** Items that are passed over *)

Lemma skipped_selected name modifier s :
  skipped name modifier s
  = (match select_obj s, dict_get "apply" modifier with
     | None, None => Raise (AttributeError "apply")
     | _, _ => Ok (negb (selected (select_obj s) (name, modifier)))
     end, s).
Proof.
  unfold skipped, selected. unfold_m. simpl.
  destruct (select_obj s); [reflexivity|].
  now destruct (dict_get "apply" modifier).
Qed.

Lemma apply_items_none_selected exe items todo parser s :
  Forall (fun it : string * pydict =>
            selected (select_obj s) it = false
                    /\ (select_obj s = None ->
                        dict_get "apply" (snd it) <> None)) todo ->
  apply_items exe items todo parser s = (Ok parser, s).
Proof.
  intros Hall. induction Hall as [|[name modifier] todo [Hsel Happ] _ IH].
  - reflexivity.
  - rewrite apply_items_cons. unfold apply_item. unfold_m.
    rewrite skipped_selected, Hsel. simpl in Happ.
    destruct (select_obj s), (dict_get "apply" modifier);
      simpl; try exact IH.
    now destruct Happ.
Qed.

(** X9.  When the selection holds none of the names of the registry, an empty
    selection included, or when no selection is given and every item
    has a false [apply], [__init__] leaves everything as it is: the
    binary is not even parsed. *)
Theorem nothing_selected_nothing_done exe reg items s :
  cls_registry s = Some reg -> dict_get (format exe) reg = Some items ->
  (exists sel, select_obj s = Some sel
               /\ Forall (fun n => str_in n sel = false) (dict_keys items))
  \/ (select_obj s = None
      /\ Forall (fun it : string * pydict =>
                   exists a, dict_get "apply" (snd it) = Some a
                             /\ truthy a = false) items) ->
  run (Some exe) s = (Ok tt, s).
Proof.
  intros Hreg Hitems Hnone.
  rewrite (run_loaded exe reg items s Hreg Hitems). unfold_m.
  rewrite apply_items_none_selected; [reflexivity|].
  destruct Hnone as [(sel & Hsel & Hall) | [Hsel Hall]].
  - rewrite Hsel. unfold dict_keys in Hall. rewrite Forall_map in Hall.
    eapply Forall_impl; [exact Hall|]. intros it Hit. cbn beta.
    split; [exact Hit | discriminate].
  - rewrite Hsel. eapply Forall_impl; [exact Hall|].
    intros it (a & Ha & Hf). cbn beta. unfold selected. rewrite Ha.
    split; [exact Hf | discriminate].
Qed.

(** *** The applied names *)

Lemma apply_item_selected exe items parser name modifier s r s' :
  apply_item exe items parser (name, modifier) s = (r, s') ->
  applied s' = applied s
  \/ (applied s' = applied s ++ [name]
      /\ selected (select_obj s) (name, modifier) = true).
Proof.
  intros Hrun.
  destruct (selected (select_obj s) (name, modifier)) eqn:Esel.
  - destruct (apply_item_applied _ _ _ _ _ _ _ _ Hrun) as [[Ha _]|Ha];
      [now left | now right].
  - left. unfold apply_item in Hrun. unfold_m.
    rewrite skipped_selected, Esel in Hrun.
    destruct (select_obj s), (dict_get "apply" modifier);
      simpl in Hrun; now injection Hrun as _ <-.
Qed.

(** The loop appends names of selected items only, in the order of the
    registry. *)
Lemma apply_items_selected exe items todo :
  forall parser s r s',
    apply_items exe items todo parser s = (r, s') ->
    exists l, applied s' = applied s ++ l
              /\ l `sublist_of`
                   dict_keys (List.filter (selected (select_obj s)) todo).
Proof.
  induction todo as [|[name modifier] todo IH]; intros parser s r s' Hrun.
  - simpl in Hrun. unfold_m. injection Hrun as <- <-. exists [].
    rewrite app_nil_r. split; [reflexivity | constructor].
  - rewrite apply_items_cons in Hrun. unfold_m.
    destruct (apply_item exe items parser (name, modifier) s)
      as [[p1|e] s1] eqn:E1.
    + pose proof (apply_item_keeps select_obj exe items parser
                    (name, modifier) parse_select (fun _ _ => eq_refl)
                    _ _ _ E1) as Hsel.
      unfold keeps in Hsel.
      destruct (IH _ _ _ _ Hrun) as (l & Hl & Hsub). rewrite Hsel in Hsub.
      destruct (apply_item_selected _ _ _ _ _ _ _ _ E1) as [Ha|[Ha Hs]].
      * exists l. split; [congruence|]. cbn [List.filter].
        destruct (selected (select_obj s) (name, modifier));
          [now constructor | exact Hsub].
      * exists (name :: l). split.
        { rewrite Hl, Ha, <- app_assoc. reflexivity. }
        cbn [List.filter]. rewrite Hs. now constructor.
    + injection Hrun as <- <-.
      destruct (apply_item_selected _ _ _ _ _ _ _ _ E1) as [Ha|[Ha Hs]].
      * exists []. rewrite app_nil_r. split; [exact Ha | apply sublist_nil_l].
      * exists [name]. split; [exact Ha|]. cbn [List.filter]. rewrite Hs.
        constructor. apply sublist_nil_l.
Qed.

Lemma keys_filter_sublist {V} (f : string * V -> bool)
      (l : list (string * V)) :
  dict_keys (List.filter f l) `sublist_of` dict_keys l.
Proof.
  induction l as [|x l IH]; simpl; [constructor|].
  destruct (f x); simpl; now constructor.
Qed.

(** X10.  The names that [__init__] reports as applied are names of items let
    through by the selection (or, without selection, by their [apply]
    flag); they come in the order of the registry, whatever the order of
    the selection, and none comes twice. *)
Theorem applied_in_registry_order exe reg items s r s' :
  cls_registry s = Some reg -> dict_get (format exe) reg = Some items ->
  run (Some exe) s = (r, s') ->
  exists l,
    applied s' = applied s ++ l
    /\ l `sublist_of` dict_keys (List.filter (selected (select_obj s)) items)
    /\ (NoDup (dict_keys items) -> NoDup l).
Proof.
  intros Hreg Hitems. rewrite (run_loaded exe reg items s Hreg Hitems).
  unfold_m.
  destruct (apply_items exe items items VNone s) as [[parser|e] s1] eqn:E;
    intros Hrun.
  - destruct (apply_items_selected _ _ _ _ _ _ _ E) as (l & Hl & Hsub).
    pose proof (finalize_keeps applied parser silent_applied
                  (fun _ _ => eq_refl) _ _ _ Hrun) as Hfin.
    unfold keeps in Hfin. exists l. split; [congruence|].
    split; [exact Hsub|]. intros Hnd.
    eapply sublist_NoDup; [|exact Hsub].
    eapply sublist_NoDup; [exact Hnd|].
    apply keys_filter_sublist.
  - injection Hrun as <- <-.
    destruct (apply_items_selected _ _ _ _ _ _ _ E) as (l & Hl & Hsub).
    exists l. split; [exact Hl|]. split; [exact Hsub|]. intros Hnd.
    eapply sublist_NoDup; [|exact Hsub].
    eapply sublist_NoDup; [exact Hnd|].
    apply keys_filter_sublist.
Qed.

(** *** Loops *)

Lemma iterate_ext n (f g : pyval -> M (state W) pyval) :
  (forall p s, f p s = g p s) ->
  forall p s, iterate n f p s = iterate n g p s.
Proof.
  intros Hfg. induction n as [|n IH]; intros p s; simpl; [reflexivity|].
  unfold_m. rewrite Hfg. destruct (g p s) as [[q|e] s1]; [apply IH|].
  reflexivity.
Qed.

(** X11.  An item asked to loop zero times, or a negative number of times, is
    reported as applied although its expression is not evaluated: the
    parser stays as it was and only the context of the call is built. *)
Theorem zero_loop_reported_applied exe items parser name modifier n s d s1 :
  fst (skipped name modifier s) = Ok false ->
  item_context exe items parser s = (Ok d, s1) ->
  dict_get "loop" modifier = Some (VInt n) -> (n <= 0)%Z ->
  apply_item exe items parser (name, modifier) s
  = (Ok parser, set_applied (applied s1 ++ [name]) s1).
Proof.
  intros Hskip Hctx Hloop Hn. unfold apply_item.
  pose proof (skipped_state name modifier s) as Hst. unfold_m.
  destruct (skipped name modifier s) as [rk sk]. simpl in *. subst.
  rewrite Hctx. unfold modifier_call, append_applied. unfold_m.
  rewrite Hloop. replace (Z.to_nat n) with 0 by lia. reflexivity.
Qed.

Lemma dict2_call_loop_free cls multi self v data silent kwargs s :
  dict2_call cls multi (dict_set "loop" v self) data silent kwargs s
  = dict2_call cls multi self data silent kwargs s.
Proof.
  unfold dict2_call. now rewrite !dict_get_set.
Qed.

(** X12.  An item that loops [n + 1] times does what the same item does
    without loop, followed by what it does with a loop of [n] on the
    parser returned by the first round; a round that raises ends the
    call. *)
Theorem loop_unrolls self d parser kw n s :
  (0 <= n)%Z ->
  modifier_call (dict_set "loop" (VInt (n + 1)) self) d parser kw s
  = (p ← modifier_call (dict_set "loop" VNone self) d parser kw;
     modifier_call (dict_set "loop" (VInt n) self) d p kw) s.
Proof.
  intros Hn. unfold modifier_call. unfold_m.
  rewrite !dict_get_set, !String.eqb_refl.
  replace (Z.to_nat (n + 1)) with (S (Z.to_nat n)) by lia.
  cbn [iterate]. unfold_m. rewrite !dict2_call_loop_free.
  destruct (dict2_call "Modifier" false self d false _ s) as [[p|e] s1];
    [|reflexivity].
  apply iterate_ext. intros q t. now rewrite !dict2_call_loop_free.
Qed.

(** *** Items that cannot succeed *)

(** X13.  A definition whose [result] is a list of expressions is accepted by
    the registry, but [Modifier] does not support chains, and no
    expression of such an item is ever evaluated.  When the item is let
    through with a [loop] that is [None], [True] or a positive count, its
    call raises before anything is evaluated: the executor logs the
    warning, does not record the item and goes on with the same parser.
    With a [loop] that is [False] or a count that is not positive the
    call is not even made: the item is recorded as applied, without a
    warning, and the executor goes on with the same parser. *)
Theorem list_result_never_evaluated
        exe items name modifier loop exprs rest parser s d s1 :
  fst (skipped name modifier s) = Ok false ->
  item_context exe items parser s = (Ok d, s1) ->
  dict_get "loop" modifier = Some loop ->
  dict_get "result" modifier = Some (VList exprs) ->
  parameters_ok modifier ->
  (loops_once loop ->
   apply_items exe items ((name, modifier) :: rest) parser s
   = apply_items exe items rest parser
       (logged Warning
          (name ++ ": List of expressions is not supported for the result "
                ++ "of Modifier") s1))
  /\ (loops_never loop ->
      apply_items exe items ((name, modifier) :: rest) parser s
      = apply_items exe items rest parser
          (set_applied (applied s1 ++ [name]) s1)).
Proof.
  intros Hskip Hctx Hloop Hres Hpar.
  assert (Hcall : forall kwargs t,
             dict2_call "Modifier" false modifier d false kwargs t
             = (Raise (ValueError
                         ("List of expressions is not supported for the "
                          ++ "result of Modifier")), t)).
  { intros kwargs t. unfold dict2_call, parameters_ok in *. unfold_m.
    rewrite Hres.
    destruct (dict_get "parameters" modifier) as [[]|]; try contradiction;
      reflexivity. }
  split.
  - intros Honce.
    rewrite (apply_items_raise exe items name modifier rest parser s d s1
               (ValueError ("List of expressions is not supported for the "
                            ++ "result of Modifier")) s1 Hskip Hctx);
      [reflexivity|].
    unfold modifier_call. unfold_m. rewrite Hloop.
    destruct loop as [| b | n | | | |]; try contradiction; simpl in Honce.
    + apply Hcall.
    + subst b. simpl. unfold_m. now rewrite Hcall.
    + destruct (Z.to_nat n) as [|k] eqn:Ek; [lia|]. simpl. unfold_m.
      now rewrite Hcall.
  - intros Hnever. rewrite apply_items_cons. unfold apply_item.
    pose proof (skipped_state name modifier s) as Hst. unfold_m.
    destruct (skipped name modifier s) as [rk sk]. simpl in *. subst.
    rewrite Hctx. unfold modifier_call, append_applied. unfold_m.
    rewrite Hloop.
    destruct loop as [| b | n | | | |]; try contradiction; simpl in Hnever.
    + subst b. reflexivity.
    + replace (Z.to_nat n) with 0 by lia. reflexivity.
Qed.

(** X14.  When the function that an expression evaluates to raises, its error
    does not reach the caller.  A silent call returns [None].  Otherwise
    the handler fails on the unbound name [result] and the caller gets
    that [NameError]; in both cases nothing is logged. *)
Theorem failing_function_message_lost
        cls multi self data silent kwargs expr r e s w w' :
  dict_get "result" self = Some expr -> single_expr expr ->
  parameters_ok self ->
  call_kwargs self kwargs <> [] ->
  eval2 expr (dict_pop "__builtins__" (call_context data)) (world s)
  = (Ok r, w) ->
  invoke r (call_kwargs self kwargs) w = (Raise e, w') ->
  dict2_call cls multi self data silent kwargs s
  = (if silent then Ok VNone
     else Raise (NameError "name 'result' is not defined"),
     set_world w' s).
Proof.
  intros Hres Hsingle Hpar Hkw Heval Hinv.
  rewrite (dict2_call_single _ _ _ _ _ _ _ _ Hres Hsingle Hpar).
  fold (call_kwargs self kwargs).
  unfold _exec, on_call_error, host. unfold_m. rewrite Heval.
  destruct (call_kwargs self kwargs) as [|kv kws] eqn:Ekw; [congruence|].
  cbn [world set_world]. rewrite Hinv. now destruct silent.
Qed.

(** *** Silent calls *)

Lemma exec_silent_log kwargs d expr s r s' :
  _exec true kwargs d expr s = (r, s') ->
  (forall msg, r <> Raise (ForbiddenNodeError msg)) ->
  log s' = log s.
Proof.
  unfold _exec, on_eval_error, on_call_error, host. unfold_m.
  destruct (eval2 expr _ (world s)) as [[r0|e] w].
  - destruct kwargs as [|kv kws].
    + now intros [= <- <-] _.
    + cbn [world set_world].
      destruct (invoke r0 _ w) as [[r1|e1] w1]; now intros [= <- <-] _.
  - destruct e; intros [= <- <-] Hnf; try reflexivity.
    now destruct (Hnf msg).
Qed.

Lemma map_exec_silent_log kwargs d exprs : forall s r s',
  map_m (_exec true kwargs d) exprs s = (r, s') ->
  (forall msg, r <> Raise (ForbiddenNodeError msg)) ->
  log s' = log s.
Proof.
  induction exprs as [|expr exprs IH]; intros s r s'; simpl; unfold_m.
  - now intros [= <- <-] _.
  - destruct (_exec true kwargs d expr s) as [[y|e] s1] eqn:E1.
    + pose proof (exec_silent_log _ _ _ _ _ _ E1 ltac:(discriminate)) as H1.
      destruct (map_m (_exec true kwargs d) exprs s1) as [[ys|e] s2] eqn:E2.
      * pose proof (IH _ _ _ E2 ltac:(discriminate)) as H2.
        intros [= <- <-] _. congruence.
      * intros [= <- <-] Hnf. rewrite (IH _ _ _ E2 Hnf). exact H1.
    + intros [= <- <-] Hnf. apply (exec_silent_log _ _ _ _ _ _ E1).
      intros msg [= ->]. now apply (Hnf msg).
Qed.

(** X15.  A silent call logs nothing, whatever happens, unless it ends with
    the error of a forbidden node. *)
Theorem silent_call_logs_nothing cls multi self data kwargs s r s' :
  dict2_call cls multi self data true kwargs s = (r, s') ->
  (forall msg, r <> Raise (ForbiddenNodeError msg)) ->
  log s' = log s.
Proof.
  unfold dict2_call. unfold_m.
  destruct (dict_get "parameters" self) as [[| | |str|lst| |]|];
    try destruct str; try destruct lst;
    try (now intros [= <- <-] _);
    (destruct (dict_get "result" self) as [result|];
     [|now intros [= <- <-] _]);
    destruct result; try apply exec_silent_log;
    (destruct multi; [|now intros [= <- <-] _]);
    match goal with
    | |- context [map_m ?f ?l s] =>
        destruct (map_m f l s) as [[retv|e] s1] eqn:E
    end;
    intros Hrun Hnf;
    try (injection Hrun as <- <-;
         apply (map_exec_silent_log _ _ _ _ _ _ E);
         intros msg [= ->]; now apply (Hnf msg));
    pose proof (map_exec_silent_log _ _ _ _ _ _ E ltac:(discriminate)) as Hl;
    destruct retv as [|? []]; now injection Hrun as _ <-.
Qed.

(** *** Definitions without an expression *)

Lemma register_nothing self_id name params rd clist s :
  Forall (fun c => match dict_get c rd with
                   | Some e => truthy e = false
                   | None => True
                   end) clist ->
  for_each clist (register_category self_id name params (VDict rd)) s
  = (Ok tt, s).
Proof.
  intros Hall. induction Hall as [|c clist Hc _ IH]; simpl; [reflexivity|].
  unfold_m. unfold register_category at 1.
  destruct (dict_get c rd) as [e|]; [rewrite Hc|]; exact IH.
Qed.

(** X16.  A definition without [result], or whose [result] is a mapping with no
    expression for any known category, is dropped without a word: the
    registry stays as it is and nothing is raised. *)
Theorem no_expression_not_registered
        self_id defaults name params rd s :
  match dict_get "result" (with_defaults defaults params) with
  | Some r => r
  | None => VDict []
  end = VDict rd ->
  Forall (Forall (fun c => match dict_get c rd with
                           | Some e => truthy e = false
                           | None => True
                           end)) category_lists ->
  register_item self_id (VDict defaults) (name, VDict params) s = (Ok tt, s).
Proof.
  intros Hres Hall. unfold register_item, item_params, as_dict. unfold_m.
  rewrite Hres.
  induction Hall as [|clist clists Hc _ IH]; simpl; [reflexivity|].
  unfold_m. rewrite (register_nothing _ _ _ _ _ _ Hc). exact IH.
Qed.

(** *** [dict2.__init__] *)


(** X17.  In a constructed item a keyword argument prevails over the entry of
    the mapping, which prevails over the field of the class and the
    standard defaults; the [logger] given in either way is not stored. *)
Theorem dict2_init_precedence fields idict kwargs self k :
  NoDup (dict_keys idict) -> NoDup (dict_keys kwargs) ->
  dict2_init fields idict kwargs = Ok self ->
  dict_get k self
  = if String.eqb k "logger" then dict_get k (dict2_defaults fields)
    else match dict_get k kwargs with
         | Some v => Some v
         | None => match dict_get k idict with
                   | Some v => Some v
                   | None => dict_get k (dict2_defaults fields)
                   end
         end.
Proof.
  intros Hi Hk. unfold dict2_init.
  change (dict_setdefault "result" _ _)
    with [("name", VStr UNDEF_RESULT); ("description", VStr "");
          ("result", VStr UNDEF_RESULT)].
  fold (dict2_defaults fields).
  set (self0 := dict_update (dict_update (dict2_defaults fields) _) _).
  destruct (is_undef _); [discriminate|]. intros [= <-]. unfold self0.
  rewrite !dict_get_update by now apply dict_pop_NoDup.
  destruct (String.eqb_spec k "logger") as [->|Hne].
  - now rewrite !dict_get_pop_eq by assumption.
  - now rewrite !dict_get_pop_ne.
Qed.

(** *** Name errors *)

Lemma split_on_quote_free (x : string) (rest : string) :
  quote_free x ->
  split_on "'"%char (x ++ String "'"%char rest)
  = x :: split_on "'"%char rest.
Proof.
  induction x as [|c x IH]; intros Hx; simpl.
  - reflexivity.
  - destruct Hx as [Hc Hx]. rewrite IH by exact Hx.
    destruct (Ascii.eqb_spec c "'"%char); [congruence | reflexivity].
Qed.

(** X18.  When the evaluation of an expression fails on an unknown name [x],
    a call that is not silent logs one debug line that names [x] and
    lets the [NameError] through; a silent call lets it through without
    logging. *)
Theorem name_error_reported cls multi self data silent kwargs expr x s w :
  dict_get "result" self = Some expr -> single_expr expr ->
  parameters_ok self -> quote_free x ->
  eval2 expr (dict_pop "__builtins__" (call_context data)) (world s)
  = (Raise (NameError ("name '" ++ x ++ "' is not defined")), w) ->
  dict2_call cls multi self data silent kwargs s
  = (Raise (NameError ("name '" ++ x ++ "' is not defined")),
     if silent then set_world w s
     else logged Debug
            ("'" ++ x ++ "' is either not computed yet or mistaken")
            (set_world w s)).
Proof.
  intros Hres Hsingle Hpar Hx Heval.
  rewrite (dict2_call_single _ _ _ _ _ _ _ _ Hres Hsingle Hpar).
  unfold _exec, on_eval_error, host, emit. unfold_m. rewrite Heval.
  destruct silent; [reflexivity|].
  change ("name '" ++ x ++ "' is not defined")%string
    with ("name " ++ String "'"%char
                            (x ++ String "'"%char " is not defined"))%string.
  rewrite (split_on_quote_free "name " _ ltac:(repeat split; discriminate)).
  rewrite (split_on_quote_free x _ Hx). reflexivity.
Qed.

(** *** Definitions with one expression *)


Lemma register_categories self_id name params r clist :
  (forall rd, r <> VDict rd) ->
  py_str r <> "" -> py_str r <> UNDEF_RESULT ->
  forall s, exists s',
    for_each clist (register_category self_id name params r) s = (Ok tt, s')
    /\ forall c n,
         entry_of (cls_registry s') c n
         = if str_in c (concat (map expand_formats clist))
              && String.eqb n name
           then Some (modifier_of self_id name params (VStr (py_str r)))
           else entry_of (cls_registry s) c n.
Proof.
  intros Hr Hne Hdef.
  assert (Hcat : forall c, register_category self_id name params r c
                           = for_each (expand_formats c)
                               (fun c2 => with_registry
                                  (register c2 name
                                     (modifier_of self_id name params
                                        (VStr (py_str r)))))).
  { intros c. unfold register_category.
    assert (Hexpr : match r with
                    | VDict rd => match dict_get c rd with
                                  | Some e => e
                                  | None => VNone
                                  end
                    | _ => VStr (py_str r)
                    end = VStr (py_str r)).
    { destruct r; try reflexivity. now destruct (Hr d). }
    rewrite Hexpr. cbn [truthy].
    destruct (String.eqb_spec (py_str r) ""); [congruence|]. cbn [negb].
    rewrite modifier_init. cbn [is_undef].
    destruct (String.eqb_spec (py_str r) UNDEF_RESULT); [congruence|].
    reflexivity. }
  induction clist as [|c clist IH]; intros s.
  - exists s. split; reflexivity.
  - cbn [for_each]. unfold_m. rewrite Hcat.
    destruct (register_formats name
                (modifier_of self_id name params (VStr (py_str r)))
                (expand_formats c) s) as (s1 & -> & H1).
    destruct (IH s1) as (s' & -> & H2). exists s'. split; [reflexivity|].
    intros c0 n. rewrite H2, H1. cbn [map concat]. rewrite str_in_app.
    destruct (str_in c0 (concat (map expand_formats clist))),
      (str_in c0 (expand_formats c)), (String.eqb n name); reflexivity.
Qed.

(** X19.  A definition whose [result] is one expression, not a mapping from
    categories to expressions, is registered with that expression under
    every format that the three passes reach; the other entries of the
    registry stay as they are. *)
Theorem plain_result_registered self_id defaults name params r s :
  dict_get "result" (with_defaults defaults params) = Some r ->
  (forall rd, r <> VDict rd) ->
  py_str r <> "" -> py_str r <> UNDEF_RESULT ->
  exists s',
    register_item self_id (VDict defaults) (name, VDict params) s
    = (Ok tt, s')
    /\ forall c n,
         entry_of (cls_registry s') c n
         = if str_in c registered_formats && String.eqb n name
           then Some (modifier_of self_id name
                        (dict_pop "result" (with_defaults defaults params))
                        (VStr (py_str r)))
           else entry_of (cls_registry s) c n.
Proof.
  intros Hres Hr Hne Hdef. unfold register_item, item_params, as_dict. unfold_m.
  rewrite Hres. unfold registered_formats.
  generalize category_lists as lists. intros lists. revert s.
  induction lists as [|clist lists IH]; intros s.
  - exists s. split; reflexivity.
  - cbn [for_each]. unfold_m.
    destruct (register_categories self_id name
                (dict_pop "result" (with_defaults defaults params)) r clist
                Hr Hne Hdef s) as (s1 & -> & H1).
    destruct (IH s1) as (s' & -> & H2). exists s'. split; [reflexivity|].
    intros c n. rewrite H2, H1. cbn [concat]. rewrite map_app, concat_app.
    rewrite str_in_app.
    destruct (str_in c (concat (map expand_formats (concat lists)))),
      (str_in c (concat (map expand_formats clist))), (String.eqb n name);
      reflexivity.
Qed.

(** *** The names an expression can use *)

Lemma dict_get_items (k : string) (items : list (string * pydict)) :
  dict_get k (map (fun nm => (fst nm, VDict (snd nm))) items)
  = option_map VDict (dict_get k items).
Proof.
  induction items as [|[n m] items IH]; simpl; [reflexivity|].
  now destruct (String.eqb k n).
Qed.

(** X20.  In the context handed to an item, a name denotes the registered item
    of that name if there is one, else the function of that name that the
    package has for the format, else the function common to all formats,
    else the sections or the checksum method of the binary. *)
Theorem context_name_resolution exe items parser s d s' :
  NoDup (dict_keys items) ->
  NoDup (dict_keys (format_globals (format exe))) ->
  NoDup (dict_keys common_globals) ->
  item_context exe items parser s = (Ok d, s') ->
  exists secs cc,
    (parser = VNone <-> cc = None)
    /\ forall k,
         dict_get k d
         = match dict_get k items with
           | Some m => Some (VDict m)
           | None =>
               match dict_get k (format_globals (format exe)) with
               | Some v => Some v
               | None =>
                   match dict_get k common_globals with
                   | Some v => Some v
                   | None => dict_get k (context_base secs cc)
                   end
               end
           end.
Proof.
  intros Hitems Hfmt Hcommon. unfold item_context, record, host. unfold_m.
  assert (Hlook : forall base k,
            dict_get k
              (dict_update
                 (dict_update (dict_update base common_globals)
                              (format_globals (format exe)))
                 (map (fun nm => (fst nm, VDict (snd nm))) items))
            = match dict_get k items with
              | Some m => Some (VDict m)
              | None =>
                  match dict_get k (format_globals (format exe)) with
                  | Some v => Some v
                  | None =>
                      match dict_get k common_globals with
                      | Some v => Some v
                      | None => dict_get k base
                      end
                  end
              end).
  { intros base k. rewrite !dict_get_update; try assumption.
    - rewrite dict_get_items. now destruct (dict_get k items).
    - unfold dict_keys in *. rewrite map_map. exact Hitems. }
  destruct parser; cbn [world set_world set_trace trace].
  1:{ destruct (lief_parse _ _) as [[tmp|e] w1]; [|discriminate].
      cbn [world set_world].
      destruct (sections_of tmp w1) as [[secs|e] w2]; [|discriminate].
      intros [= <- <-]. exists secs, None. split; [tauto|]. apply Hlook. }
  all: destruct (get_sections _ _) as [[secs|e] w1]; [|discriminate];
    cbn [world set_world];
    destruct (compute_checksum_of _ w1) as [[cc|e] w2]; [|discriminate];
    intros [= <- <-]; exists secs, (Some cc);
    (split; [split; discriminate | apply Hlook]).
Qed.

(** *** A build that fails *)

Lemma register_all_registry self_id y :
  preserves (fun s1 s2 : state W =>
               cls_registry s1 <> None -> cls_registry s2 <> None)
            (register_all self_id y).
Proof.
  assert (PreOrder (fun s1 s2 : state W =>
                      cls_registry s1 <> None -> cls_registry s2 <> None))
    by (split; [intros ? ? | intros ? ? ? ? ? ?]; auto).
  unfold register_all, register_item, item_params, register_category, as_dict,
    with_registry.
  frame_using ltac:(apply preserves_modify; try apply _;
                    intros ? ?; discriminate).
Qed.

(** X28.  When the definitions file cannot be read, the registry stays unset
    and the next [__init__] tries again.  When it is read but the
    construction raises on the way, the registry made so far stays, and
    the next [__init__] takes it as it is, without reading the file
    again. *)
Theorem failed_build_not_retried i j s src :
  cls_registry s = None -> cls_source s = Some src ->
  (forall e w, read_yaml src (world s) = (Raise e, w) ->
               ensure_registry i s = (Raise e, set_world w s)
               /\ cls_registry (set_world w s) = None)
  /\ (forall y w e s',
         read_yaml src (world s) = (Ok y, w) ->
         ensure_registry i s = (Raise e, s') ->
         cls_registry s' <> None
         /\ ensure_registry j s' = (Ok tt, s')).
Proof.
  intros Hreg Hsrc. split.
  - intros e w Hread. unfold ensure_registry, source_get, host. unfold_m.
    rewrite Hreg, Hsrc, Hread. split; [reflexivity | exact Hreg].
  - intros y w e s' Hread. unfold ensure_registry at 1.
    unfold source_get, host. unfold_m. rewrite Hreg, Hsrc, Hread.
    intros Hrun. apply register_all_registry in Hrun.
    assert (Hsome : cls_registry s' <> None) by (apply Hrun; discriminate).
    split; [exact Hsome|].
    destruct (cls_registry s') as [reg|] eqn:E; [|congruence].
    now apply ensure_registry_loaded with (reg := reg).
Qed.

End Pipeline.

End PipelineFacts.

(** ** Merging and plain defaults *)

Module MergeFacts.
Import Merge PyFacts DictMore Loader.

(** *** [_merge] *)

Lemma merge_unfold config k v keep :
  _merge config k v keep
  = match dict_get k config with
    | None => dict_set k v config
    | Some (VDict v1) =>
        match v with
        | VDict d =>
            dict_set k
              (VDict (fold_left
                        (fun acc kv => _merge acc (fst kv) (snd kv) false)
                        d v1))
              config
        | _ => if keep then config else dict_set k v config
        end
    | Some (VList v1) =>
        match v with
        | VList l => dict_set k (VList (extend_new v1 l)) config
        | _ => dict_set k (VList (v1 ++ [v])) config
        end
    | Some _ => if keep then config else dict_set k v config
    end.
Proof. destruct v; reflexivity. Qed.


Lemma merge_cases config k v keep :
  _merge config k v keep = config
  \/ exists v', _merge config k v keep = dict_set k v' config.
Proof.
  rewrite merge_unfold.
  destruct (dict_get k config) as [[]|]; destruct v, keep; eauto.
Qed.

Lemma merge_keys config k v keep :
  dict_keys (_merge config k v keep)
  = (if dict_mem k config then dict_keys config
     else dict_keys config ++ [k]).
Proof.
  unfold dict_mem. destruct (dict_get k config) as [v1|] eqn:E.
  - destruct (merge_cases config k v keep) as [->|[v' ->]]; [reflexivity|].
    apply dict_keys_set_mem. unfold dict_mem. now rewrite E.
  - rewrite merge_unfold, E. now apply dict_keys_set_new.
Qed.

(** X21.  A merge under the key [k] leaves the other keys alone.  The keys of
    the configuration keep their order; [k] comes last when it is new, and
    then holds [v].  No key is ever removed. *)
Theorem merge_touches_one_key config k v keep :
  (forall k', k' <> k ->
              dict_get k' (_merge config k v keep) = dict_get k' config)
  /\ dict_keys (_merge config k v keep)
     = (if dict_mem k config then dict_keys config
        else dict_keys config ++ [k])
  /\ (dict_mem k config = false ->
      dict_get k (_merge config k v keep) = Some v).
Proof.
  split; [|split].
  - intros k' Hne. destruct (merge_cases config k v keep) as [->|[v' ->]];
      [reflexivity|].
    rewrite dict_get_set. destruct (String.eqb_spec k' k); congruence.
  - apply merge_keys.
  - unfold dict_mem. destruct (dict_get k config) eqn:E; [discriminate|].
    intros _. rewrite merge_unfold, E, dict_get_set.
    now rewrite String.eqb_refl.
Qed.

Lemma py_in_app x l l' : py_in x (l ++ l') = py_in x l || py_in x l'.
Proof. apply existsb_app. Qed.

Lemma extend_new_spec l : forall v1,
  exists new,
    extend_new v1 l = v1 ++ new
    /\ new `sublist_of` l
    /\ (forall x, x ∈ new -> py_in x v1 = false)
    /\ (forall x, x ∈ l -> x ∈ new \/ py_in x (v1 ++ new) = true).
Proof.
  unfold extend_new. induction l as [|sv l IH]; intros v1; simpl.
  - exists []. rewrite app_nil_r. repeat split; [constructor | |];
      intros x Hx; inversion Hx.
  - destruct (py_in sv v1) eqn:E.
    + destruct (IH v1) as (new & -> & Hsub & Hnew & Hall).
      exists new. split; [reflexivity|]. split; [now constructor|].
      split; [exact Hnew|]. intros x Hx.
      apply elem_of_cons in Hx as [->|Hx]; [|now apply Hall].
      right. now rewrite py_in_app, E.
    + destruct (IH (v1 ++ [sv])) as (new & -> & Hsub & Hnew & Hall).
      exists (sv :: new). rewrite <- app_assoc. split; [reflexivity|].
      split; [now constructor|]. split.
      * intros x Hx. apply elem_of_cons in Hx as [->|Hx]; [exact E|].
        specialize (Hnew x Hx). rewrite py_in_app in Hnew.
        now apply orb_false_iff in Hnew.
      * intros x Hx. apply elem_of_cons in Hx as [->|Hx]; [left; left|].
        destruct (Hall x Hx) as [Hin|Hin]; [left; now right|].
        right. now rewrite <- app_assoc in Hin.
Qed.

(** X22.  Merging a list into a list keeps the list that is there and appends,
    in their order, elements of the other that it does not hold yet:
    nothing that is already there is appended, and every element of the
    other list ends up in the result.  A value that is not a list is
    appended as it is, even when the list holds it already. *)
Theorem merge_lists_union config k v1 l x keep :
  dict_get k config = Some (VList v1) ->
  (exists new,
      dict_get k (_merge config k (VList l) keep) = Some (VList (v1 ++ new))
      /\ new `sublist_of` l
      /\ (forall y, y ∈ new -> py_in y v1 = false)
      /\ (forall y, y ∈ l -> y ∈ new \/ py_in y (v1 ++ new) = true))
  /\ ((forall m, x <> VList m) ->
      dict_get k (_merge config k x keep) = Some (VList (v1 ++ [x]))).
Proof.
  intros Hk. split.
  - rewrite merge_unfold, Hk, dict_get_set, String.eqb_refl.
    destruct (extend_new_spec l v1) as (new & -> & H1 & H2 & H3).
    exists new. now repeat split.
  - intros Hlist. rewrite merge_unfold, Hk.
    destruct x; try (now destruct (Hlist l0));
      now rewrite dict_get_set, String.eqb_refl.
Qed.

Lemma merge_all_keys d : forall v1,
  exists new,
    dict_keys (fold_left (fun acc kv => _merge acc (fst kv) (snd kv) false)
                         d v1)
    = dict_keys v1 ++ new
    /\ (forall sk, sk ∈ new -> sk ∈ dict_keys d /\ sk ∉ dict_keys v1)
    /\ (forall sk, sk ∈ dict_keys d -> sk ∈ dict_keys v1 \/ sk ∈ new).
Proof.
  induction d as [|[sk sv] d IH]; intros v1; simpl.
  - exists []. rewrite app_nil_r. split; [reflexivity|].
    split; intros k Hk; inversion Hk.
  - destruct (IH (_merge v1 sk sv false)) as (new & Hkeys & Hnew & Hall).
    pose proof (merge_keys v1 sk sv false) as Hk1.
    rewrite Hkeys, Hk1. rewrite Hk1 in Hnew, Hall.
    rewrite dict_mem_keys in *.
    destruct (str_in sk (dict_keys v1)) eqn:E.
    + exists new. split; [reflexivity|]. split.
      * intros k Hk. destruct (Hnew k Hk). split; [now right | assumption].
      * intros k Hk. apply elem_of_cons in Hk as [->|Hk]; [|now apply Hall].
        left. now apply str_in_spec.
    + exists (sk :: new). rewrite <- app_assoc. split; [reflexivity|]. split.
      * intros k Hk. apply elem_of_cons in Hk as [->|Hk].
        -- split; [left|]. intros Hin. apply str_in_spec in Hin. congruence.
        -- destruct (Hnew k Hk) as [H1 H2]. split; [now right|].
           intros Hin. apply H2. apply elem_of_app. now left.
      * intros k Hk. apply elem_of_cons in Hk as [->|Hk]; [right; left|].
        destruct (Hall k Hk) as [Hin|Hin]; [|right; now right].
        apply elem_of_app in Hin as [Hin|Hin]; [now left|].
        apply list_elem_of_singleton in Hin as ->. right. left.
Qed.

(** X27.  Merging a mapping into a mapping loses no key: the keys that were
    there stay, in their order, and the keys that only the other mapping
    has come after them. *)
Theorem merge_mappings_keys config k v1 d keep :
  dict_get k config = Some (VDict v1) ->
  exists merged new,
    dict_get k (_merge config k (VDict d) keep) = Some (VDict merged)
    /\ dict_keys merged = dict_keys v1 ++ new
    /\ (forall sk, sk ∈ new -> sk ∈ dict_keys d /\ sk ∉ dict_keys v1)
    /\ (forall sk, sk ∈ dict_keys d -> sk ∈ dict_keys merged).
Proof.
  intros Hk. rewrite merge_unfold, Hk, dict_get_set, String.eqb_refl.
  destruct (merge_all_keys d v1) as (new & Hkeys & Hnew & Hall).
  eexists. exists new. split; [reflexivity|]. split; [exact Hkeys|].
  split; [exact Hnew|]. intros sk Hsk. rewrite Hkeys, elem_of_app.
  now apply Hall.
Qed.

(** *** Plain defaults *)




Section Plain.
Context {W : Type} `{Host W}.
Variable no_defaults : list string.

Lemma apply_defaults_plain defaults name :
  plain_allowed no_defaults defaults ->
  forall params config,
    dict_get name config = Some (VDict params) ->
    for_each defaults (apply_default no_defaults name) config
    = (Ok tt, dict_set name (fill_plain defaults (VDict params)) config).
Proof.
  intros Hplain.
  induction Hplain as [|[default value] defaults [Hv Hallowed] _ IH];
    intros params config Hname; cbn [for_each fst snd] in *.
  - unfold fill_plain. cbn [fold_left]. now rewrite dict_set_same.
  - assert (Hstep :
              apply_default no_defaults name (default, value) config
              = (Ok tt,
                 dict_set name (VDict (dict_setdefault default value params))
                          config)).
    { unfold apply_default. rewrite Hallowed.
      unfold entry_setdefault, entry.
      cbv beta iota zeta
          delta [mbind M_bind bind mret M_ret ret raise get modify].
      destruct value; try discriminate; now rewrite Hname. }
    cbv beta iota zeta delta [mbind M_bind bind]. rewrite Hstep.
    rewrite (IH (dict_setdefault default value params)).
    + now rewrite dict_set_set.
    + now rewrite dict_get_set, String.eqb_refl.
Qed.

Lemma fill_entry_keys defaults config :
  dict_keys (map (fill_entry defaults) config) = dict_keys config.
Proof. unfold dict_keys. rewrite map_map. now apply map_ext. Qed.

(** One pass of the loop over the entries. *)
Lemma plain_pass defaults todo :
  plain_allowed no_defaults defaults ->
  forall seen,
    NoDup (dict_keys (seen ++ todo)) -> all_mappings todo ->
    for_each (dict_keys todo)
             (fun name => for_each defaults (apply_default no_defaults name))
             (map (fill_entry defaults) seen ++ todo)
    = (Ok tt, map (fill_entry defaults) (seen ++ todo)).
Proof.
  intros Hplain.
  induction todo as [|[name v] todo IH]; intros seen Hnd Hall.
  - simpl. now rewrite !app_nil_r.
  - apply Forall_cons in Hall as [[params Hv] Hall]. simpl in Hv. subst v.
    assert (Hname : name ∉ dict_keys (map (fill_entry defaults) seen)).
    { rewrite fill_entry_keys. unfold dict_keys in *.
      rewrite map_app in Hnd. apply NoDup_app in Hnd as (_ & Hdisj & _).
      intros Hin. apply (Hdisj name Hin). simpl. left. }
    cbn [dict_keys map fst for_each].
    cbv beta iota zeta delta [mbind M_bind bind].
    rewrite (apply_defaults_plain defaults name Hplain params)
      by now apply dict_get_middle.
    rewrite (dict_set_middle _ _ _ _ _ Hname).
    specialize (IH (seen ++ [(name, VDict params)])).
    rewrite <- app_assoc in IH. simpl in IH.
    rewrite map_app, <- app_assoc in IH. simpl in IH.
    now apply IH.
Qed.

Lemma dict_get_fill_entry defaults config name params :
  dict_get name config = Some (VDict params) ->
  dict_get name (map (fill_entry defaults) config)
  = Some (fill_plain defaults (VDict params)).
Proof.
  induction config as [|[k v] config IH]; simpl; [discriminate|].
  destruct (String.eqb_spec name k) as [->|Hne].
  - now intros [= ->].
  - exact IH.
Qed.

(** X23.  Plain defaults cascade.  After the pass every entry defines what it
    defined, with the same values; for the other keys it has the value
    that the [defaults] of its file give, and failing that the value of
    the defaults inherited from the enclosing folders.  The [defaults]
    key itself is gone, and the entries keep their order. *)
Theorem plain_defaults_cascade inherited own config :
  NoDup (dict_keys config) -> NoDup (dict_keys own) ->
  file_defaults config = Some own ->
  plain_allowed no_defaults (dict_update inherited own) ->
  all_mappings (dict_pop "defaults" config) ->
  exists config',
    _set no_defaults true inherited config = (Ok tt, config')
    /\ dict_keys config' = dict_keys (dict_pop "defaults" config)
    /\ forall name params,
         dict_get name (dict_pop "defaults" config) = Some (VDict params) ->
         exists params',
           dict_get name config' = Some (VDict params')
           /\ forall k,
                dict_get k params'
                = match dict_get k params with
                  | Some x => Some x
                  | None => match dict_get k own with
                            | Some x => Some x
                            | None => dict_get k inherited
                            end
                  end.
Proof.
  intros Hnd Hown Hfile Hplain Hall.
  exists (map (fill_entry (dict_update inherited own))
              (dict_pop "defaults" config)).
  split; [|split].
  - unfold _set, file_defaults in *.
    cbv beta iota zeta delta [mbind M_bind bind mret M_ret ret raise get
                              modify].
    assert (Hpass := plain_pass (dict_update inherited own)
                       (dict_pop "defaults" config) Hplain []
                       (dict_pop_NoDup _ _ Hnd) Hall).
    simpl in Hpass.
    destruct (dict_get "defaults" config) as [[]|]; try discriminate;
      injection Hfile as Hfile; subst own; exact Hpass.
  - apply fill_entry_keys.
  - intros name params Hname. eexists. split.
    + rewrite (dict_get_fill_entry _ _ _ _ Hname). reflexivity.
    + intros k. rewrite dict_get_fill_plain.
      now rewrite (dict_get_update k inherited own Hown).
Qed.

(** X24.  A default for a parameter that the caller does not allow stops the
    loader with [ValueError] as soon as an entry is reached; a file
    without entries passes, whatever its defaults. *)
Theorem forbidden_default_rejected
        inherited own config name params rest pre default value post :
  file_defaults config = Some own ->
  (dict_pop "defaults" config = [] ->
   _set no_defaults true inherited config = (Ok tt, []))
  /\ (dict_pop "defaults" config = (name, VDict params) :: rest ->
      dict_update inherited own = pre ++ (default, value) :: post ->
      plain_allowed no_defaults pre -> str_in default no_defaults = true ->
      fst (_set no_defaults true inherited config)
      = Raise (ValueError ("default value for parameter '" ++ default
                           ++ "' is not allowed"))).
Proof.
  intros Hfile. unfold _set, file_defaults in *.
  cbv beta iota zeta delta [mbind M_bind bind mret M_ret ret raise get
                            modify].
  split.
  - intros Hpop. destruct (dict_get "defaults" config) as [[]|];
      try discriminate; now rewrite Hpop.
  - intros Hpop Hdefaults Hpre Hforbidden.
    assert (Hrun :
              fst (for_each (dict_update inherited own)
                            (apply_default no_defaults name)
                            ((name, VDict params) :: rest))
              = Raise (ValueError ("default value for parameter '" ++ default
                                   ++ "' is not allowed"))).
    { rewrite Hdefaults, EffFacts.for_each_app.
      cbv beta iota zeta delta [mbind M_bind bind].
      rewrite (apply_defaults_plain pre name Hpre params)
        by (simpl; now rewrite String.eqb_refl).
      cbn [for_each]. cbv beta iota zeta delta [mbind M_bind bind].
      unfold apply_default at 1. now rewrite Hforbidden. }
    destruct (dict_get "defaults" config) as [[]|]; try discriminate;
      injection Hfile as Hfile; subst own; rewrite Hpop;
      cbn [dict_keys map fst for_each];
      cbv beta iota zeta delta [mbind M_bind bind];
      destruct (for_each (dict_update inherited _) _ _) as [[[]|e] c1];
      simpl in Hrun; try discriminate; exact Hrun.
Qed.

End Plain.

End MergeFacts.

(** ** The content of the variants *)

Module VariantsMore.
Import PyFacts DictMore Variants VariantsFacts.


Section Content.
Context {W : Type} `{Host W}.

(** A tuple leaves the variants of other names alone. *)
Lemma add_variant_other item attrs template variants values variants' n :
  add_variant item attrs template variants values = Ok variants' ->
  n <> vitem_name item values ->
  dict_get n variants' = dict_get n variants.
Proof.
  unfold add_variant. set (vitem := vitem_name item values).
  set (variants1 := dict_setdefault vitem (VDict template) variants).
  intros Hrun Hne.
  assert (H1 : dict_get n variants1 = dict_get n variants).
  { unfold variants1. rewrite dict_get_setdefault.
    destruct (dict_get n variants); [reflexivity|].
    destruct (String.eqb_spec n vitem); congruence. }
  destruct (zip attrs values ++ template) as [|kv kvs].
  - now injection Hrun as <-.
  - destruct (dict_get vitem variants1) as [[]|]; try discriminate.
    injection Hrun as <-. rewrite dict_get_set.
    destruct (String.eqb_spec n vitem); congruence.
Qed.

(** The variant a tuple is about: what it held, or a copy of the
    template when it is new, completed with the attributes of the tuple
    and then with the entries of the template. *)
Lemma add_variant_same item attrs template variants values variants' :
  all_mappings variants ->
  add_variant item attrs template variants values = Ok variants' ->
  exists init v,
    match dict_get (vitem_name item values) variants with
    | Some own => own
    | None => VDict template
    end = VDict init
    /\ dict_get (vitem_name item values) variants' = Some (VDict v)
    /\ forall k,
         dict_get k v
         = match dict_get k init with
           | Some x => Some x
           | None => dict_get k (zip attrs values ++ template)
           end.
Proof.
  unfold add_variant. set (vitem := vitem_name item values).
  set (variants1 := dict_setdefault vitem (VDict template) variants).
  intros Hall Hrun.
  assert (Hinit : exists init,
             match dict_get vitem variants with
             | Some own => own
             | None => VDict template
             end = VDict init
             /\ dict_get vitem variants1 = Some (VDict init)).
  { unfold variants1. rewrite dict_get_setdefault, String.eqb_refl.
    destruct (dict_get vitem variants) as [own|] eqn:E; [|eauto].
    destruct (all_mappings_get _ _ _ Hall E) as [d ->]. eauto. }
  destruct Hinit as (init & Hinit & Hget). exists init.
  destruct (zip attrs values ++ template) as [|kv kvs] eqn:Ekvs.
  - injection Hrun as <-. exists init. split; [exact Hinit|].
    split; [exact Hget|]. intros k. now destruct (dict_get k init).
  - rewrite Hget in Hrun. injection Hrun as <-.
    exists (fold_left (fun acc kv => dict_setdefault (fst kv) (snd kv) acc)
                      (kv :: kvs) init).
    split; [exact Hinit|]. rewrite dict_get_set, String.eqb_refl.
    split; [reflexivity|]. intros k. apply dict_get_fill_plain.
Qed.

Lemma add_variants_kept item attrs template tuples :
  forall variants variants' n own,
    all_mappings variants ->
    res_fold (add_variant item attrs template) tuples variants
    = Ok variants' ->
    dict_get n variants = Some (VDict own) ->
    exists v, dict_get n variants' = Some (VDict v)
              /\ (forall k x, dict_get k own = Some x -> dict_get k v = Some x)
              /\ (n ∉ map (vitem_name item) tuples -> v = own).
Proof.
  induction tuples as [|values tuples IH];
    intros variants variants' n own Hall Hrun Hn; simpl in Hrun.
  - injection Hrun as <-. exists own. repeat split; [exact Hn|].
    intros k x Hk. exact Hk.
  - destruct (add_variant_keys item attrs template variants values Hall)
      as (v1 & E1 & _ & Hall1).
    rewrite E1 in Hrun.
    destruct (String.eqb_spec n (vitem_name item values)) as [->|Hne].
    + destruct (add_variant_same _ _ _ _ _ _ Hall E1)
        as (init & v & Hinit & Hget & Hlook).
      rewrite Hn in Hinit. injection Hinit as <-.
      destruct (IH v1 variants' _ v Hall1 Hrun Hget) as (v' & Hv' & Hext & _).
      exists v'. split; [exact Hv'|]. split.
      * intros k x Hk. apply Hext. now rewrite Hlook, Hk.
      * intros Hnot. exfalso. apply Hnot. simpl. left.
    + pose proof (add_variant_other _ _ _ _ _ _ n E1 Hne) as Hsame.
      rewrite Hn in Hsame.
      destruct (IH v1 variants' n own Hall1 Hrun Hsame)
        as (v' & Hv' & Hext & Hfresh).
      exists v'. split; [exact Hv'|]. split; [exact Hext|].
      intros Hnot. apply Hfresh. intros Hin. apply Hnot. simpl.
      now right.
Qed.

(** X25.  A variant that is declared keeps what it declares: the expansion of
    the template never removes nor replaces one of its values, it only
    adds the keys that the variant lacks.  A declared variant whose name
    is the name of no tuple is left as it is. *)
Theorem declared_variant_kept item variants template ls name own :
  dict_get "_template" variants = Some (VDict template) ->
  res_map py_iter (template_iterables template) = Ok ls ->
  all_mappings (dict_pop "_template" variants) ->
  dict_get name (dict_pop "_template" variants) = Some (VDict own) ->
  exists variants' v,
    expand_template item variants = Ok variants'
    /\ dict_get name variants' = Some (VDict v)
    /\ (forall k x, dict_get k own = Some x -> dict_get k v = Some x)
    /\ (name ∉ tuple_names item ls -> v = own).
Proof.
  intros Htpl Hiter Hall Hname. unfold expand_template. rewrite Htpl.
  cbn [template_of mbind res_bind].
  destruct template as [|t0 template'] eqn:Et.
  - exists (dict_pop "_template" variants), own.
    repeat split; [exact Hname | now intros].
  - rewrite <- Et in *. rewrite Hiter. cbn [mbind res_bind].
    destruct (add_variants_keys item (template_attrs template)
                (template_rest template) (product ls)
                (dict_pop "_template" variants) Hall)
      as (variants' & Hrun & _ & _).
    destruct (add_variants_kept _ _ _ _ _ _ _ _ Hall Hrun Hname)
      as (v & Hv & Hext & Hfresh).
    exists variants', v. rewrite Hrun. repeat split; assumption.
Qed.

Lemma add_variants_other item attrs template tuples :
  forall variants variants' n,
    res_fold (add_variant item attrs template) tuples variants
    = Ok variants' ->
    n ∉ map (vitem_name item) tuples ->
    dict_get n variants' = dict_get n variants.
Proof.
  induction tuples as [|values tuples IH];
    intros variants variants' n Hrun Hn; simpl in Hrun.
  - now injection Hrun as <-.
  - destruct (add_variant item attrs template variants values) as [v1|e]
      eqn:E1; [|discriminate].
    rewrite (IH _ _ _ Hrun).
    + apply (add_variant_other _ _ _ _ _ _ n E1). intros ->. apply Hn.
      simpl. left.
    + intros Hin. apply Hn. simpl. now right.
Qed.


(** X26.  The variant that the expansion creates for a tuple holds the entries
    of the template that are not attribute declarations and, for every
    attribute that these entries do not define, the value of the
    tuple. *)
Theorem synthesized_variant_content item variants template ls values :
  dict_get "_template" variants = Some (VDict template) ->
  template <> [] ->
  res_map py_iter (template_iterables template) = Ok ls ->
  all_mappings (dict_pop "_template" variants) ->
  values ∈ product ls ->
  NoDup (tuple_names item ls) ->
  dict_get (vitem_name item values) (dict_pop "_template" variants) = None ->
  exists variants' v,
    expand_template item variants = Ok variants'
    /\ dict_get (vitem_name item values) variants' = Some (VDict v)
    /\ forall k,
         dict_get k v
         = match dict_get k (template_rest template) with
           | Some x => Some x
           | None => dict_get k (zip (template_attrs template) values)
           end.
Proof.
  intros Htpl Hne Hiter Hall Hvalues Hnd Hfresh.
  unfold expand_template. rewrite Htpl. cbn [template_of mbind res_bind].
  destruct template as [|t0 template'] eqn:Et; [congruence|].
  rewrite <- Et in *. rewrite Hiter. cbn [mbind res_bind].
  set (attrs := template_attrs template) in *.
  set (rest := template_rest template) in *.
  destruct (add_variants_keys item attrs rest (product ls)
              (dict_pop "_template" variants) Hall)
    as (variants' & Hrun & _ & _).
  exists variants'. rewrite Hrun.
  apply list_elem_of_split in Hvalues as (pre & post & Hsplit).
  unfold tuple_names in Hnd. rewrite Hsplit in Hrun, Hnd.
  rewrite map_app in Hnd. cbn [map] in Hnd.
  apply NoDup_app in Hnd as (_ & Hpre & Hpost).
  apply NoDup_cons in Hpost as [Hpost _].
  rewrite res_fold_app in Hrun.
  destruct (add_variants_keys item attrs rest pre
              (dict_pop "_template" variants) Hall)
    as (v1 & Hrun1 & _ & Hall1).
  rewrite Hrun1 in Hrun. cbn [res_fold] in Hrun.
  destruct (add_variant item attrs rest v1 values) as [v2|e] eqn:E2;
    [|discriminate].
  pose proof (add_variants_other _ _ _ _ _ _ (vitem_name item values) Hrun1)
    as Hkeep1.
  rewrite Hfresh in Hkeep1.
  destruct (add_variant_same _ _ _ _ _ _ Hall1 E2)
    as (init & v & Hinit & Hget & Hlook).
  rewrite Hkeep1 in Hinit.
  2:{ intros Hin. apply (Hpre _ Hin). left. }
  injection Hinit as <-.
  exists v. split; [reflexivity|]. split.
  - rewrite (add_variants_other _ _ _ _ _ _ _ Hrun Hpost). exact Hget.
  - intros k. rewrite Hlook, dict_get_app.
    destruct (dict_get k rest); [reflexivity|].
    now destruct (dict_get k (zip attrs values)).
Qed.

End Content.

End VariantsMore.

(** ** Pattern defaults whose value is not boolean *)

Module MatchingFacts.
Import Matching PyFacts DictMore EffFacts Loader LoaderFacts.
Import Modifiers ModifiersFacts.

Section MatchingFacts.
Context {W : Type} `{Host W}.
Variable no_defaults : list string.
Variable default : string.
Variable v : pyval.
Hypothesis v_not_bool : is_bool v = false.

Lemma fill_matching_keys ps config :
  dict_keys (fill_matching default v ps config) = dict_keys config.
Proof.
  unfold fill_matching, dict_keys. rewrite map_map. now apply map_ext.
Qed.

Lemma fill_matching_mappings ps config :
  all_mappings config -> all_mappings (fill_matching default v ps config).
Proof.
  unfold all_mappings, fill_matching. intros Hall.
  apply Forall_map. eapply Forall_impl; [exact Hall|].
  intros [k x] [params ->]. simpl. eauto.
Qed.

Lemma fill_matching_compose p ps config :
  all_mappings config ->
  fill_matching default v ps (fill_matching default v [p] config)
  = fill_matching default v (p :: ps) config.
Proof.
  unfold all_mappings, fill_matching. intros Hall. rewrite map_map.
  apply map_ext_Forall. eapply Forall_impl; [exact Hall|].
  intros [k x] [params ->]. cbn [fst snd existsb]. rewrite orb_false_r.
  destruct (re_search p k), (existsb _ ps); cbn [orb]; try reflexivity.
  now rewrite dict_setdefault_twice.
Qed.

Lemma apply_pattern_plain q name2 (config : pydict) :
  apply_pattern default v (VStr q) name2 config
  = if re_search q name2 then entry_setdefault name2 default v config
    else (Ok tt, config).
Proof.
  unfold apply_pattern, search.
  cbv beta iota zeta delta [mbind M_bind bind mret M_ret ret].
  destruct v; try discriminate; now destruct (re_search q name2).
Qed.

(** One pass of the loop over the names, for one pattern. *)
Lemma matching_pass q todo :
  forall seen,
    NoDup (dict_keys (seen ++ todo)) -> all_mappings todo ->
    for_each (dict_keys todo) (apply_pattern default v (VStr q))
             (fill_matching default v [q] seen ++ todo)
    = (Ok tt, fill_matching default v [q] (seen ++ todo)).
Proof.
  induction todo as [|[name x] todo IH]; intros seen Hnd Hall.
  - simpl. now rewrite !app_nil_r.
  - apply Forall_cons in Hall as [[params Hx] Hall]. simpl in Hx. subst x.
    assert (Hname : name ∉ dict_keys (fill_matching default v [q] seen)).
    { rewrite fill_matching_keys. unfold dict_keys in *.
      rewrite map_app in Hnd. apply NoDup_app in Hnd as (_ & Hdisj & _).
      intros Hin. apply (Hdisj name Hin). simpl. left. }
    cbn [dict_keys map fst for_each].
    cbv beta iota zeta delta [mbind M_bind bind].
    rewrite apply_pattern_plain.
    specialize (IH (seen ++ [(name, VDict params)])).
    rewrite <- app_assoc in IH. simpl in IH.
    unfold fill_matching in IH at 1. rewrite map_app, <- app_assoc in IH.
    cbn [map app fst snd existsb] in IH. rewrite orb_false_r in IH.
    destruct (re_search q name) eqn:Eq.
    + unfold entry_setdefault, entry.
      cbv beta iota zeta
          delta [mbind M_bind bind mret M_ret ret raise get modify].
      rewrite (dict_get_middle _ _ _ _ Hname). cbv beta iota zeta.
      rewrite (dict_set_middle _ _ _ _ _ Hname).
      now apply IH.
    + now apply IH.
Qed.

Lemma apply_patterns_matching ps : forall config,
  NoDup (dict_keys config) -> all_mappings config ->
  apply_patterns default v (map VStr ps) config
  = (Ok tt, fill_matching default v ps config).
Proof.
  unfold apply_patterns.
  induction ps as [|p ps IH]; intros config Hnd Hall.
  - simpl. f_equal. unfold fill_matching. clear Hnd.
    induction Hall as [|[k x] config [params Hx] _ IHc]; [reflexivity|].
    simpl in Hx. subst x. cbn [map fst snd existsb]. f_equal. exact IHc.
  - cbn [map for_each]. cbv beta iota zeta delta [mbind M_bind bind get].
    pose proof (matching_pass p config [] Hnd Hall) as Hfirst.
    simpl in Hfirst. rewrite Hfirst.
    rewrite IH.
    + now rewrite fill_matching_compose.
    + now rewrite fill_matching_keys.
    + now apply fill_matching_mappings.
Qed.

Lemma dict_get_fill_matching ps config name params :
  dict_get name config = Some (VDict params) ->
  dict_get name (fill_matching default v ps config)
  = Some (VDict (if existsb (fun p => re_search p name) ps
                 then dict_setdefault default v params
                 else params)).
Proof.
  induction config as [|[k x] config IH]; simpl; [discriminate|].
  destruct (String.eqb_spec name k) as [->|Hne].
  - now intros [= ->].
  - exact IH.
Qed.

(** X29.  A pattern default whose value is not boolean: an entry
    receives the value exactly when it does not define the key and its
    name matches one of the patterns, whichever; the entries that match
    none are left as they are, and no entry is added or removed. *)
Theorem any_pattern_decides (name0 : string) ps config name params :
  str_in default no_defaults = false ->
  NoDup (dict_keys config) -> all_mappings config ->
  dict_get name config = Some (VDict params) ->
  exists config',
    apply_default no_defaults name0
      (default, VDict [("match", VList (map VStr ps)); ("value", v)]) config
    = (Ok tt, config')
    /\ dict_keys config' = dict_keys config
    /\ dict_get name config'
       = Some (VDict (if existsb (fun p => re_search p name) ps
                      then dict_setdefault default v params
                      else params)).
Proof.
  intros Hallowed Hnd Hall Hname.
  exists (fill_matching default v ps config). split; [|split].
  - unfold apply_default. rewrite Hallowed.
    cbn -[apply_patterns map].
    cbv beta iota zeta delta [mbind M_bind bind mret M_ret ret].
    apply apply_patterns_matching; assumption.
  - apply fill_matching_keys.
  - now apply dict_get_fill_matching.
Qed.

End MatchingFacts.

End MatchingFacts.

(** ** The further cases, run through the theorems *)

Module CasesFacts.
Import Cases Sample Helpers Names Views Merge.
Import PyFacts HelpersFacts NamesFacts PipelineFacts MergeFacts VariantsMore.
Import Matching MatchingFacts.
Import Modifiers Variants Loader.

Lemma repeatn_cycles_witness :
  _repeatn (@nil nat) 4 = Raise ZeroDivisionError
  /\ _repeatn [1; 2; 3] (-2) = Ok []
  /\ exists r, _repeatn [1; 2; 3] 7 = Ok r
               /\ Z.of_nat (length r) = 7%Z
               /\ forall i, i < length r ->
                            nth_error r i = nth_error [1; 2; 3] (i mod 3).
Proof.
  split; [|split].
  - apply (repeatn_cycles (@nil nat) 4). reflexivity.
  - apply (repeatn_cycles [1; 2; 3] (-2)); [discriminate | lia].
  - apply (repeatn_cycles [1; 2; 3] 7); [discriminate | lia].
Defined.

Lemma int_above_asym x y : int_above x y = true -> int_above y x = false.
Proof.
  destruct x, y; simpl; try discriminate. rewrite !Z.ltb_lt, Z.ltb_ge. lia.
Qed.

Lemma int_above_trans x y z :
  int_above x y = true -> int_above y z = true -> int_above x z = true.
Proof.
  destruct x, y, z; simpl; try discriminate. rewrite !Z.ltb_lt. lia.
Qed.

Lemma extremum_ignores_none_witness :
  _extremum int_gt [VNone; VNone] = Ok VNone
  /\ exists m, _extremum int_gt some_values = Ok m
               /\ m ∈ some_values /\ m <> VNone
               /\ forall x, x ∈ some_values -> x <> VNone ->
                            int_above x m = false.
Proof.
  split.
  - apply (extremum_ignores_none int_gt int_above int_above_asym
             int_above_trans [VNone; VNone]).
    repeat constructor.
  - apply (extremum_ignores_none int_gt int_above int_above_asym
             int_above_trans some_values).
    + intros x y Hx Hy Hnx Hny. unfold some_values in Hx, Hy.
      rewrite !elem_of_cons, elem_of_nil in Hx, Hy.
      destruct Hx as [->|[->|[->|[->|[->|[]]]]]]; try congruence;
        destruct Hy as [->|[->|[->|[->|[->|[]]]]]]; try congruence;
        reflexivity.
    + apply Exists_cons_tl, Exists_cons_hd. discriminate.
Defined.

Lemma select_first_allowed_witness :
  _wrapper String.eqb None first_choice
           [".text"; ".data"; ".rsrc"] [".extra"] [] [".text"]
  = inl ".data"
  /\ _wrapper String.eqb None first_choice
              [".text"] [".text"; ".extra"] [] [".text"]
     = inr (Some ".extra").
Proof.
  split.
  - refine (eq_trans
              (proj1 (proj2 (select_first_allowed String.eqb None
                               first_choice String.eqb_refl
                               [".text"; ".data"; ".rsrc"] [".extra"] []
                               [".text"])) eq_refl) _).
    vm_compute. reflexivity.
  - refine (eq_trans
              (proj2 (proj2 (select_first_allowed String.eqb None
                               first_choice String.eqb_refl
                               [".text"] [".text"; ".extra"] []
                               [".text"])) _) _).
    + repeat constructor.
    + vm_compute. reflexivity.
Defined.

Lemma names_sorted_witness :
  let s := fresh [("modifiers.yml", ab_yaml)] (Some ["B"]) in
  let s' := snd (names 0 "PE" s) in
  increasing ["A"; "B"]
  /\ (exists reg,
         cls_registry s' = Some reg
         /\ forall n, n ∈ ["A"; "B"]
                      <-> exists c items,
                            c ∈ expand_formats "PE"
                            /\ dict_get c reg = Some items
                            /\ n ∈ dict_keys items)
  /\ trace s' = trace s /\ applied s' = applied s
  /\ select_obj s' = select_obj s.
Proof.
  refine (names_sorted 0 "PE" (fresh [("modifiers.yml", ab_yaml)] (Some ["B"]))
            ["A"; "B"] _ _).
  vm_compute. reflexivity.
Defined.

Lemma names_missing_format_witness :
  let s := fresh [("modifiers.yml", pe32_only_yaml)] None in
  names 0 "PE" s = (Raise (KeyError ".NET"), snd (force_registry 0 s)).
Proof.
  refine (names_missing_format 0 "PE"
            (fresh [("modifiers.yml", pe32_only_yaml)] None) _
            (match cls_registry
                     (snd (force_registry 0
                             (fresh [("modifiers.yml", pe32_only_yaml)]
                                    None))) with
             | Some reg => reg
             | None => []
             end)
            [] ".NET" ["PE32"; "PE64"] _ _ _ _ _).
  - vm_compute. reflexivity.
  - vm_compute. reflexivity.
  - reflexivity.
  - constructor.
  - vm_compute. reflexivity.
Defined.


Lemma init_without_executable_witness :
  init 0 None false (fresh [("modifiers.yml", ab_yaml)] None)
  = ensure_registry 0 (fresh [("modifiers.yml", ab_yaml)] None)
  /\ init 0 None true (fresh [("modifiers.yml", ab_yaml)] (Some ["A"]))
     = (Raise (AttributeError "'NoneType' object has no attribute 'format'"),
        snd (ensure_registry 0
               (fresh [("modifiers.yml", ab_yaml)] (Some ["A"])))).
Proof.
  split.
  - apply (init_without_executable 0 false
             (fresh [("modifiers.yml", ab_yaml)] None)).
    left. reflexivity.
  - refine (proj2 (init_without_executable 0 true
                     (fresh [("modifiers.yml", ab_yaml)] (Some ["A"])))
                  "A" [] _ eq_refl _).
    vm_compute. reflexivity.
Defined.

Lemma nothing_selected_nothing_done_witness :
  run (Some pe32) (loaded [good_a; good_b] (Some []))
  = (Ok tt, loaded [good_a; good_b] (Some []))
  /\ run (Some pe32) (loaded [off_a] None) = (Ok tt, loaded [off_a] None).
Proof.
  split.
  - refine (nothing_selected_nothing_done pe32 [("PE32", [good_a; good_b])]
              [good_a; good_b] (loaded [good_a; good_b] (Some []))
              eq_refl eq_refl _).
    left. exists []. split; [reflexivity | repeat constructor].
  - refine (nothing_selected_nothing_done pe32 [("PE32", [off_a])]
              [off_a] (loaded [off_a] None) eq_refl eq_refl _).
    right. split; [reflexivity|]. repeat constructor.
    exists (VBool false). split; reflexivity.
Defined.

Lemma applied_in_registry_order_witness :
  let s := loaded [good_a; bad_i; good_b] (Some ["B"; "I"; "A"]) in
  exists l,
    applied (snd (run (Some pe32) s)) = applied s ++ l
    /\ l `sublist_of`
         dict_keys (List.filter (selected (select_obj s))
                                [good_a; bad_i; good_b])
    /\ (NoDup (dict_keys [good_a; bad_i; good_b]) -> NoDup l).
Proof.
  refine (applied_in_registry_order pe32
            [("PE32", [good_a; bad_i; good_b])] [good_a; bad_i; good_b]
            (loaded [good_a; bad_i; good_b] (Some ["B"; "I"; "A"]))
            _ _ eq_refl eq_refl _).
  apply surjective_pairing.
Defined.

(** On that run the names come out in the order of the registry. *)
Example applied_order_run :
  applied (snd (run (Some pe32)
                  (loaded [good_a; bad_i; good_b] (Some ["B"; "I"; "A"]))))
  = ["A"; "B"].
Proof. vm_compute. reflexivity. Qed.

Lemma zero_loop_reported_applied_witness :
  let s := loaded [idle_a] None in
  let s1 := snd (item_context pe32 [idle_a] VNone s) in
  apply_item pe32 [idle_a] VNone idle_a s
  = (Ok VNone, set_applied (applied s1 ++ ["A"]) s1).
Proof.
  refine (zero_loop_reported_applied pe32 [idle_a] VNone "A" (snd idle_a) 0
            (loaded [idle_a] None)
            (match fst (item_context pe32 [idle_a] VNone
                          (loaded [idle_a] None)) with
             | Ok d => d
             | Raise _ => []
             end) _ _ _ _ _).
  - reflexivity.
  - vm_compute. reflexivity.
  - reflexivity.
  - lia.
Defined.

Lemma loop_unrolls_witness :
  modifier_call (dict_set "loop" (VInt (1 + 1)) (snd good_a)) iso_d VNone kw
                iso_s
  = (p ← modifier_call (dict_set "loop" VNone (snd good_a)) iso_d VNone kw;
     modifier_call (dict_set "loop" (VInt 1) (snd good_a)) iso_d p kw) iso_s.
Proof.
  apply (loop_unrolls (snd good_a) iso_d VNone kw 1 iso_s). lia.
Defined.

Lemma list_result_never_evaluated_witness :
  (let s := loaded [chain_l; good_b] None in
   let s1 := snd (item_context pe32 [chain_l; good_b] VNone s) in
   apply_items pe32 [chain_l; good_b] [chain_l; good_b] VNone s
   = apply_items pe32 [chain_l; good_b] [good_b] VNone
       (logged Warning
          ("L" ++ ": List of expressions is not supported for the result "
               ++ "of Modifier") s1))
  /\ (let s := loaded [chain_idle; good_b] None in
      let s1 := snd (item_context pe32 [chain_idle; good_b] VNone s) in
      apply_items pe32 [chain_idle; good_b] [chain_idle; good_b] VNone s
      = apply_items pe32 [chain_idle; good_b] [good_b] VNone
          (set_applied (applied s1 ++ ["L"]) s1)).
Proof.
  split.
  - refine (proj1 (list_result_never_evaluated pe32 [chain_l; good_b] "L"
                     (snd chain_l) VNone [VStr "keep"; VStr "keep"] [good_b]
                     VNone (loaded [chain_l; good_b] None)
                     (match fst (item_context pe32 [chain_l; good_b] VNone
                                   (loaded [chain_l; good_b] None)) with
                      | Ok d => d
                      | Raise _ => []
                      end) _ _ _ _ _ _) _).
    + reflexivity.
    + vm_compute. reflexivity.
    + reflexivity.
    + reflexivity.
    + exact I.
    + exact I.
  - refine (proj2 (list_result_never_evaluated pe32 [chain_idle; good_b] "L"
                     (snd chain_idle) (VInt 0) [VStr "keep"; VStr "keep"]
                     [good_b] VNone (loaded [chain_idle; good_b] None)
                     (match fst (item_context pe32 [chain_idle; good_b] VNone
                                   (loaded [chain_idle; good_b] None)) with
                      | Ok d => d
                      | Raise _ => []
                      end) _ _ _ _ _ _) _).
    + reflexivity.
    + vm_compute. reflexivity.
    + reflexivity.
    + reflexivity.
    + exact I.
    + simpl. lia.
Defined.

(** What the run reports for the two chains: the first is left out with
    a warning, the second is listed although nothing of it was
    evaluated. *)
Example chain_runs :
  applied (snd (apply_items pe32 [chain_l; good_b] [chain_l; good_b] VNone
                  (loaded [chain_l; good_b] None)))
  = ["B"]
  /\ applied (snd (apply_items pe32 [chain_idle; good_b]
                     [chain_idle; good_b] VNone
                     (loaded [chain_idle; good_b] None)))
     = ["L"; "B"]
  /\ log (snd (apply_items pe32 [chain_idle; good_b]
                 [chain_idle; good_b] VNone
                 (loaded [chain_idle; good_b] None)))
     = [].
Proof. repeat split; vm_compute; reflexivity. Qed.

Lemma failing_function_message_lost_witness :
  dict2_call "Modifier" false fail_f fail_data false [("parser", VNone)]
             (loaded [] None)
  = (Raise (NameError "name 'result' is not defined"),
     set_world [] (loaded [] None))
  /\ dict2_call "Feature" false fail_f fail_data true [("parser", VNone)]
                (loaded [] None)
     = (Ok VNone, set_world [] (loaded [] None)).
Proof.
  split.
  - refine (failing_function_message_lost "Modifier" false fail_f fail_data
              false [("parser", VNone)] (VStr "fail") f_fail
              (OtherError "cannot alter") (loaded [] None) [] []
              _ _ _ _ _ _).
    + reflexivity.
    + exact I.
    + exact I.
    + discriminate.
    + reflexivity.
    + reflexivity.
  - refine (failing_function_message_lost "Feature" false fail_f fail_data
              true [("parser", VNone)] (VStr "fail") f_fail
              (OtherError "cannot alter") (loaded [] None) [] []
              _ _ _ _ _ _).
    + reflexivity.
    + exact I.
    + exact I.
    + discriminate.
    + reflexivity.
    + reflexivity.
Defined.

Lemma silent_call_logs_nothing_witness :
  let out := dict2_call "Feature" false (snd bad_i) [] true []
                        (loaded [] None) in
  log (snd out) = log (loaded [] None).
Proof.
  refine (silent_call_logs_nothing "Feature" false (snd bad_i) [] []
            (loaded [] None) (Raise (OtherError "division by zero")) _ _ _).
  - vm_compute. reflexivity.
  - discriminate.
Defined.

Lemma no_expression_not_registered_witness :
  register_item 0 (VDict [("apply", VBool true)])
                ("A", VDict [("description", VStr "does nothing")])
                (loaded [good_b] None)
  = (Ok tt, loaded [good_b] None).
Proof.
  refine (no_expression_not_registered 0 [("apply", VBool true)] "A"
            [("description", VStr "does nothing")] []
            (loaded [good_b] None) _ _).
  - reflexivity.
  - repeat constructor.
Defined.

Lemma dict2_init_precedence_witness :
  let idict := [("apply", VBool false); ("result", VStr "keep");
                ("logger", VObj 9)] in
  let self := match dict2_init _fields idict [("name", VStr "A")] with
              | Ok self => self
              | Raise _ => []
              end in
  dict_get "apply" self = Some (VBool false)
  /\ dict_get "logger" self = None
  /\ dict_get "loop" self = Some VNone
  /\ dict_get "name" self = Some (VStr "A").
Proof.
  intros idict self.
  assert (Hi : NoDup (dict_keys idict))
    by (apply (bool_decide_unpack _); vm_compute; exact I).
  assert (Hk : NoDup (dict_keys [("name", VStr "A")]))
    by (apply (bool_decide_unpack _); vm_compute; exact I).
  assert (Hself : dict2_init _fields idict [("name", VStr "A")] = Ok self)
    by (vm_compute; reflexivity).
  split; [|split; [|split]].
  - exact (dict2_init_precedence _fields idict [("name", VStr "A")] self
             "apply" Hi Hk Hself).
  - exact (dict2_init_precedence _fields idict [("name", VStr "A")] self
             "logger" Hi Hk Hself).
  - exact (dict2_init_precedence _fields idict [("name", VStr "A")] self
             "loop" Hi Hk Hself).
  - exact (dict2_init_precedence _fields idict [("name", VStr "A")] self
             "name" Hi Hk Hself).
Defined.

Lemma name_error_reported_witness :
  dict2_call "Feature" false lost_n [] false [] (loaded [] None)
  = (Raise (NameError ("name '" ++ "entropy" ++ "' is not defined")),
     logged Debug
       ("'" ++ "entropy" ++ "' is either not computed yet or mistaken")
       (set_world [] (loaded [] None))).
Proof.
  refine (name_error_reported "Feature" false lost_n [] false []
            (VStr "entropy") "entropy" (loaded [] None) [] _ _ _ _ _).
  - reflexivity.
  - exact I.
  - exact I.
  - repeat split; discriminate.
  - reflexivity.
Defined.

Lemma plain_result_registered_witness :
  let s := loaded [] None in
  exists s',
    register_item 0 (VDict []) ("A", VDict [("result", VStr "keep")]) s
    = (Ok tt, s')
    /\ forall c n,
         entry_of (cls_registry s') c n
         = if str_in c registered_formats && String.eqb n "A"
           then Some (modifier_of 0 "A"
                        (dict_pop "result"
                           (with_defaults [] [("result", VStr "keep")]))
                        (VStr (py_str (VStr "keep"))))
           else entry_of (cls_registry s) c n.
Proof.
  refine (plain_result_registered 0 [] "A" [("result", VStr "keep")]
            (VStr "keep") (loaded [] None) _ _ _ _).
  - reflexivity.
  - discriminate.
  - discriminate.
  - discriminate.
Defined.

Lemma context_name_resolution_witness :
  let s := loaded [good_a] None in
  exists secs cc,
    (VNone = VNone <-> cc = None)
    /\ forall k,
         dict_get k (match fst (item_context pe32 [good_a] VNone s) with
                     | Ok d => d
                     | Raise _ => []
                     end)
         = match dict_get k [good_a] with
           | Some m => Some (VDict m)
           | None =>
               match dict_get k (format_globals (format pe32)) with
               | Some v => Some v
               | None =>
                   match dict_get k common_globals with
                   | Some v => Some v
                   | None => dict_get k (context_base secs cc)
                   end
               end
           end.
Proof.
  refine (context_name_resolution pe32 [good_a] VNone (loaded [good_a] None)
            _ _ _ _ _ _).
  - apply (bool_decide_unpack _); vm_compute; exact I.
  - apply (bool_decide_unpack _); vm_compute; exact I.
  - apply (bool_decide_unpack _); vm_compute; exact I.
  - vm_compute. reflexivity.
Defined.

(** The iteration on a registry of two categories that share a name. *)
Example iter_names_run :
  iter_names [("PE32", [("A", 1); ("B", 2)]); ("PE64", [("C", 3); ("A", 4)])]
  = ["A"; "B"; "C"].
Proof. reflexivity. Qed.

Lemma merge_touches_one_key_witness :
  dict_get "tags" (_merge base_cfg "upx"
                     (VDict [("formats", VList [VStr "Mach-O"])]) false)
  = dict_get "tags" base_cfg
  /\ dict_keys (_merge base_cfg "yoda" (VDict []) false)
     = dict_keys base_cfg ++ ["yoda"]
  /\ dict_get "yoda" (_merge base_cfg "yoda" (VDict []) false)
     = Some (VDict []).
Proof.
  split; [|split].
  - apply (merge_touches_one_key base_cfg "upx"
             (VDict [("formats", VList [VStr "Mach-O"])]) false).
    discriminate.
  - exact (proj1 (proj2 (merge_touches_one_key base_cfg "yoda" (VDict [])
                           false))).
  - apply (merge_touches_one_key base_cfg "yoda" (VDict []) false).
    reflexivity.
Defined.

Lemma merge_lists_union_witness :
  (exists new,
      dict_get "tags" (_merge base_cfg "tags" (VList [VStr "y"; VStr "z"])
                         false)
      = Some (VList ([VStr "x"; VStr "y"] ++ new))
      /\ new `sublist_of` [VStr "y"; VStr "z"]
      /\ (forall y, y ∈ new -> py_in y [VStr "x"; VStr "y"] = false)
      /\ (forall y, y ∈ [VStr "y"; VStr "z"] ->
                    y ∈ new \/ py_in y ([VStr "x"; VStr "y"] ++ new) = true))
  /\ dict_get "tags" (_merge base_cfg "tags" (VStr "y") false)
     = Some (VList ([VStr "x"; VStr "y"] ++ [VStr "y"])).
Proof.
  split.
  - apply (merge_lists_union base_cfg "tags" [VStr "x"; VStr "y"]
             [VStr "y"; VStr "z"] (VStr "y") false).
    reflexivity.
  - apply (merge_lists_union base_cfg "tags" [VStr "x"; VStr "y"]
             [VStr "y"; VStr "z"] (VStr "y") false).
    + reflexivity.
    + discriminate.
Defined.

Lemma plain_defaults_cascade_witness :
  exists config',
    _set (H := Sample.host) [] true inherited_defaults plain_cfg
    = (Ok tt, config')
    /\ dict_keys config' = dict_keys (dict_pop "defaults" plain_cfg)
    /\ forall name params,
         dict_get name (dict_pop "defaults" plain_cfg) = Some (VDict params) ->
         exists params',
           dict_get name config' = Some (VDict params')
           /\ forall k,
                dict_get k params'
                = match dict_get k params with
                  | Some x => Some x
                  | None =>
                      match dict_get k [("keep", VBool true);
                                        ("source", VStr "here")] with
                      | Some x => Some x
                      | None => dict_get k inherited_defaults
                      end
                  end.
Proof.
  refine (plain_defaults_cascade (H := Sample.host) [] inherited_defaults
            [("keep", VBool true); ("source", VStr "here")] plain_cfg
            _ _ _ _ _).
  - apply (bool_decide_unpack _); vm_compute; exact I.
  - apply (bool_decide_unpack _); vm_compute; exact I.
  - reflexivity.
  - repeat constructor.
  - repeat constructor; simpl; eauto.
Defined.

(** The configuration that comes out. *)
Example plain_defaults_run :
  _set (H := Sample.host) [] true inherited_defaults plain_cfg
  = (Ok tt,
     [("a", VDict [("result", VStr "e"); ("source", VStr "here");
                   ("author", VStr "me"); ("keep", VBool true)]);
      ("b", VDict [("result", VStr "f"); ("keep", VBool false);
                   ("source", VStr "here"); ("author", VStr "me")])]).
Proof. vm_compute. reflexivity. Qed.

Lemma forbidden_default_rejected_witness :
  fst (_set (H := Sample.host) ["base"; "install"; "steps"; "variants"] true
         [] steps_cfg)
  = Raise (ValueError ("default value for parameter '" ++ "steps"
                       ++ "' is not allowed"))
  /\ _set (H := Sample.host) ["base"; "install"; "steps"; "variants"] true []
          [("defaults", VDict [("steps", VList [])])]
     = (Ok tt, []).
Proof.
  split.
  - refine (proj2 (forbidden_default_rejected (H := Sample.host)
                     ["base"; "install"; "steps"; "variants"] []
                     [("keep", VBool true); ("steps", VList [])] steps_cfg
                     "a" [("result", VStr "e")] []
                     [("keep", VBool true)] "steps" (VList []) []
                     eq_refl) eq_refl eq_refl _ eq_refl).
    repeat constructor.
  - refine (proj1 (forbidden_default_rejected (H := Sample.host)
                     ["base"; "install"; "steps"; "variants"] []
                     [("steps", VList [])]
                     [("defaults", VDict [("steps", VList [])])]
                     "a" [] [] [] "steps" (VList []) []
                     eq_refl) eq_refl).
Defined.

Lemma declared_variant_kept_witness :
  exists variants' v,
    expand_template (H := Sample.host) "T" tpl_variants = Ok variants'
    /\ dict_get "T-2" variants' = Some (VDict v)
    /\ (forall k x, dict_get k [("level", VStr "high")] = Some x ->
                    dict_get k v = Some x)
    /\ ("T-2" ∉ tuple_names (H := Sample.host) "T" [[VInt 1; VInt 2]] ->
        v = [("level", VStr "high")]).
Proof.
  refine (declared_variant_kept (H := Sample.host) "T" tpl_variants
            [("_n", VList [VInt 1; VInt 2]); ("level", VStr "low")]
            [[VInt 1; VInt 2]] "T-2" [("level", VStr "high")] _ _ _ _).
  - reflexivity.
  - reflexivity.
  - repeat constructor; simpl; eauto.
  - reflexivity.
Defined.

Lemma synthesized_variant_content_witness :
  exists variants' v,
    expand_template (H := Sample.host) "T" tpl_variants = Ok variants'
    /\ dict_get (vitem_name (H := Sample.host) "T" [VInt 1]) variants'
       = Some (VDict v)
    /\ forall k,
         dict_get k v
         = match dict_get k
                   (template_rest [("_n", VList [VInt 1; VInt 2]);
                                   ("level", VStr "low")]) with
           | Some x => Some x
           | None =>
               dict_get k
                 (zip (template_attrs [("_n", VList [VInt 1; VInt 2]);
                                       ("level", VStr "low")])
                      [VInt 1])
           end.
Proof.
  refine (synthesized_variant_content (H := Sample.host) "T" tpl_variants
            [("_n", VList [VInt 1; VInt 2]); ("level", VStr "low")]
            [[VInt 1; VInt 2]] [VInt 1] _ _ _ _ _ _ _).
  - reflexivity.
  - discriminate.
  - reflexivity.
  - repeat constructor; simpl; eauto.
  - left.
  - apply (bool_decide_unpack _); vm_compute; exact I.
  - reflexivity.
Defined.

(** The variants that come out of that declaration. *)
Example template_with_declared_run :
  expand_template (H := Sample.host) "T" tpl_variants
  = Ok [("T-2", VDict [("level", VStr "high"); ("n", VInt 2)]);
        ("other", VDict [("n", VInt 9)]);
        ("T-1", VDict [("level", VStr "low"); ("n", VInt 1)])].
Proof. vm_compute. reflexivity. Qed.

Lemma merge_mappings_keys_witness :
  exists merged new,
    dict_get "upx"
      (_merge base_cfg "upx"
         (VDict [("formats", VList [VStr "PE"]); ("status", VStr "ok")])
         false)
    = Some (VDict merged)
    /\ dict_keys merged
       = dict_keys [("formats", VList [VStr "PE"; VStr "ELF"])] ++ new
    /\ (forall sk, sk ∈ new ->
                   sk ∈ dict_keys [("formats", VList [VStr "PE"]);
                                   ("status", VStr "ok")]
                   /\ sk ∉ dict_keys
                            [("formats", VList [VStr "PE"; VStr "ELF"])])
    /\ (forall sk, sk ∈ dict_keys [("formats", VList [VStr "PE"]);
                                   ("status", VStr "ok")] ->
                   sk ∈ dict_keys merged).
Proof.
  apply (merge_mappings_keys base_cfg "upx"
           [("formats", VList [VStr "PE"; VStr "ELF"])]
           [("formats", VList [VStr "PE"]); ("status", VStr "ok")] false).
  reflexivity.
Defined.

Lemma failed_build_not_retried_witness :
  let lost := fresh [] None in
  let s := fresh [("modifiers.yml", broken_yaml)] None in
  let s' := snd (ensure_registry 0 s) in
  (ensure_registry 0 lost
   = (Raise (OtherError "No such file or directory"), set_world [] lost)
   /\ cls_registry (set_world [] lost) = None)
  /\ (cls_registry s' <> None /\ ensure_registry 1 s' = (Ok tt, s')).
Proof.
  split.
  - refine (proj1 (failed_build_not_retried 0 1 (fresh [] None)
                     "modifiers.yml" eq_refl eq_refl)
                  (OtherError "No such file or directory") [] _).
    reflexivity.
  - refine (proj2 (failed_build_not_retried 0 1
                     (fresh [("modifiers.yml", broken_yaml)] None)
                     "modifiers.yml" eq_refl eq_refl)
                  broken_yaml [("modifiers.yml", broken_yaml)]
                  (AttributeError "object is not a mapping") _ _ _).
    + reflexivity.
    + vm_compute. reflexivity.
Defined.

Lemma any_pattern_decides_witness :
  exists config',
    apply_default (H := Sample.host) [] "entropy"
      ("source", VDict [("match", VList (map VStr ["^entropy"; "^is_"]));
                        ("value", VStr "derived")])
      (dict_pop "defaults" source_cfg)
    = (Ok tt, config')
    /\ dict_keys config' = dict_keys (dict_pop "defaults" source_cfg)
    /\ dict_get "is_pe" config'
       = Some (VDict (if existsb (fun p => re_search p "is_pe")
                                 ["^entropy"; "^is_"]
                      then dict_setdefault "source" (VStr "derived")
                                           [("result", VStr "p")]
                      else [("result", VStr "p")])).
Proof.
  apply (any_pattern_decides (H := Sample.host) [] "source" (VStr "derived")
           eq_refl "entropy" ["^entropy"; "^is_"]
           (dict_pop "defaults" source_cfg) "is_pe" [("result", VStr "p")]).
  - reflexivity.
  - apply (bool_decide_unpack _); vm_compute; exact I.
  - repeat constructor; simpl; eauto.
  - reflexivity.
Defined.

(** The configuration that the loader makes of it: the entry that
    matches the second pattern has the value, as the one that matches the
    first; the entry that matches none has no [source]. *)
Example source_default_run :
  Loader.load_file (H := Sample.host) [] true (VDict source_cfg)
  = Ok [("entropy", VDict [("result", VStr "e"); ("source", VStr "derived")]);
        ("is_pe", VDict [("result", VStr "p"); ("source", VStr "derived")]);
        ("size", VDict [("result", VStr "s")]);
        ("is_forced", VDict [("result", VStr "f"); ("source", VStr "own")])].
Proof. vm_compute. reflexivity. Qed.

End CasesFacts.
